(** * Session model and request gate of the QR scanner registry

    A shallow embedding of [src/lib/auth.ts], [src/middleware/index.ts],
    [src/pages/api/auth/logout.ts] and the callback of
    [src/pages/api/auth/google.ts], together with the ECMAScript built-ins
    they call ([JSON.parse], [JSON.stringify], [Date]).

    Conventions.
    - A JavaScript string is a list of UTF-16 code units ([jstr]); [lit]
      turns an ASCII literal of the source into one.
    - [throw] / [try]-[catch] is the [outcome] monad.
    - [Date.now()] is a parameter [now], a time value in milliseconds.
    - Types are erased at run time: the functions of [auth.ts] work on any
      JavaScript [value], as they do when a cookie is cast to [AuthSession].
    - What an engine is free to choose, or what depends on binary64
      arithmetic, is a field of [Host]. *)

From Stdlib Require Import String Ascii DecimalString.
From Stdlib Require Import ZArith NArith List Bool Lia.
Import ListNotations.

Local Open Scope Z_scope.

(** ** Strings *)

Definition jstr : Type := list N.

Definition lit (s : string) : jstr := map N_of_ascii (list_ascii_of_string s).

(** A literal in which ['] stands for the double quote, for JSON texts. *)
Definition dq (s : string) : jstr :=
  map (fun c => if (c =? 39)%N then 34%N else c) (lit s).

Definition ch (a : ascii) : N := N_of_ascii a.
Arguments ch a%_char.

Definition jstr_eqb (a b : jstr) : bool :=
  if list_eq_dec N.eq_dec a b then true else false.

(** [Array.prototype.join]. *)
Fixpoint join (sep : jstr) (parts : list jstr) : jstr :=
  match parts with
  | [] => []
  | [p] => p
  | p :: rest => p ++ sep ++ join sep rest
  end.

(** Decimal digits of a non-negative integer, least significant last,
    in a field of exactly [w] digits. *)
Fixpoint pad_digits (w : nat) (n : Z) : jstr :=
  match w with
  | O => []
  | S w' => pad_digits w' (n / 10) ++ [Z.to_N (48 + n mod 10)]
  end.

(** [Number::toString] on an integer (exact below 10^21). *)
Definition int_to_string (z : Z) : jstr :=
  if z <? 0
  then lit "-" ++ lit (NilZero.string_of_uint (N.to_uint (Z.to_N (- z))))
  else lit (NilZero.string_of_uint (N.to_uint (Z.to_N z))).

(** ** Exceptions *)

Inductive exn : Type :=
| SyntaxError
| TypeError
| RangeError
| AuthenticationError (message : jstr)
| ValidationError (message : jstr)
| HostError (message : jstr).

Inductive outcome (A : Type) : Type :=
| Return (a : A)
| Throw (e : exn).
Arguments Return {A} a.
Arguments Throw {A} e.

Definition bind {A B : Type} (m : outcome A) (k : A -> outcome B) : outcome B :=
  match m with
  | Return a => k a
  | Throw e => Throw e
  end.

Notation "x <- m ;; k" := (bind m (fun x => k))
  (at level 61, m at next level, right associativity).

(** [try { body } catch (e) { handler e }]. *)
Definition try_catch {A : Type} (body : outcome A) (handler : exn -> outcome A)
  : outcome A :=
  match body with
  | Return a => Return a
  | Throw e => handler e
  end.

(** ** Values *)

(** The number a JSON literal denotes, [(-1)^d_neg * d_mant * 10^d_exp],
    before the engine rounds it to binary64. *)
Record decimal : Type := Decimal {
  d_neg : bool;
  d_mant : N;
  d_exp : Z
}.

Unset Elimination Schemes.
Inductive value : Type :=
| VUndefined
| VNull
| VBool (b : bool)
| VNum (n : decimal)
| VStr (s : jstr)
| VArr (items : list value)
| VObj (fields : list (jstr * value)).
Set Elimination Schemes.

(** Induction on values, through the lists they nest. *)
Definition value_ind (P : value -> Prop)
  (Hundefined : P VUndefined)
  (Hnull : P VNull)
  (Hbool : forall b, P (VBool b))
  (Hnum : forall n, P (VNum n))
  (Hstr : forall s, P (VStr s))
  (Harr : forall items, Forall P items -> P (VArr items))
  (Hobj : forall fields, Forall (fun kv => P (snd kv)) fields -> P (VObj fields))
  : forall v, P v :=
  fix go (v : value) : P v :=
    match v with
    | VUndefined => Hundefined
    | VNull => Hnull
    | VBool b => Hbool b
    | VNum n => Hnum n
    | VStr s => Hstr s
    | VArr items =>
        Harr items
          ((fix all (l : list value) : Forall P l :=
              match l with
              | [] => Forall_nil P
              | x :: rest => Forall_cons x (go x) (all rest)
              end) items)
    | VObj fields =>
        Hobj fields
          ((fix all (l : list (jstr * value)) : Forall (fun kv => P (snd kv)) l :=
              match l with
              | [] => Forall_nil _
              | kv :: rest => Forall_cons kv (go (snd kv)) (all rest)
              end) fields)
    end.

(** What the engine decides. *)
Record Host : Type := {
  (** [ToBoolean] of the Number a literal rounds to. *)
  number_truthy : decimal -> bool;
  (** whether that Number is finite. *)
  number_finite : decimal -> bool;
  (** [Number::toString]. *)
  number_string : decimal -> jstr;
  (** time value of [new Date(n)]; [None] is NaN. *)
  number_time : decimal -> option Z;
  (** [Date.parse] on a string outside the ECMAScript date-time format. *)
  legacy_date_parse : jstr -> option Z
}.

(** Own property lookup; the first entry of a key is the live one. *)
Fixpoint assoc (k : jstr) (fields : list (jstr * value)) : option value :=
  match fields with
  | [] => None
  | (k', v) :: rest => if jstr_eqb k k' then Some v else assoc k rest
  end.

(** [v.k] on a value other than [null] and [undefined], for the property
    names the sources read (none of them is an array index, [length] or an
    inherited method). *)
Definition prop (v : value) (k : jstr) : value :=
  match v with
  | VObj fields => match assoc k fields with Some x => x | None => VUndefined end
  | _ => VUndefined
  end.

(** [v.k]. *)
Definition Get (v : value) (k : jstr) : outcome value :=
  match v with
  | VUndefined | VNull => Throw TypeError
  | _ => Return (prop v k)
  end.

(** [v?.k]. *)
Definition Get_optional (v : value) (k : jstr) : value :=
  match v with
  | VUndefined | VNull => VUndefined
  | _ => prop v k
  end.

(** [typeof v === 'object']. *)
Definition typeof_object (v : value) : bool :=
  match v with
  | VNull | VArr _ | VObj _ => true
  | _ => false
  end.

Section Engine.
Context (host : Host).

(** [ToBoolean]. *)
Definition truthy (v : value) : bool :=
  match v with
  | VUndefined | VNull => false
  | VBool b => b
  | VNum n => number_truthy host n
  | VStr s => negb (jstr_eqb s [])
  | VArr _ | VObj _ => true
  end.

End Engine.

(** ** JSON.stringify

    [SerializeJSONProperty] of ECMA-262 without replacer or indentation.
    No value of the model is callable, so a [toJSON] property is never
    invoked. *)

Definition hex_digit (n : N) : N :=
  (if n <? 10 then 48 + n else 87 + n)%N.

Definition hex4 (u : N) : jstr :=
  [hex_digit (u / 4096 mod 16); hex_digit (u / 256 mod 16);
   hex_digit (u / 16 mod 16); hex_digit (u mod 16)]%N.

Definition unicode_escape (u : N) : jstr := lit "\u" ++ hex4 u.

Definition is_high_surrogate (u : N) : bool := ((55296 <=? u) && (u <=? 56319))%N.
Definition is_low_surrogate (u : N) : bool := ((56320 <=? u) && (u <=? 57343))%N.

(** One code unit that is not half of a surrogate pair. *)
Definition quote_unit (u : N) : jstr :=
  (if u =? 8 then lit "\b"
   else if u =? 9 then lit "\t"
   else if u =? 10 then lit "\n"
   else if u =? 12 then lit "\f"
   else if u =? 13 then lit "\r"
   else if u =? 34 then [92; 34]
   else if u =? 92 then [92; 92]
   else if (u <? 32) || is_high_surrogate u || is_low_surrogate u
        then unicode_escape u
   else [u])%N.

Fixpoint quote_body (s : jstr) : jstr :=
  match s with
  | [] => []
  | u :: rest =>
      if is_high_surrogate u then
        match rest with
        | l :: rest' =>
            if is_low_surrogate l then u :: l :: quote_body rest'
            else quote_unit u ++ quote_body rest
        | [] => quote_unit u
        end
      else quote_unit u ++ quote_body rest
  end.

(** [QuoteJSONString]. *)
Definition quote (s : jstr) : jstr := 34%N :: quote_body s ++ [34%N].

Section Stringify.
Context (host : Host).

(** The members of an object: a property whose value serializes to
    [undefined] is left out. *)
Definition members (ser : value -> option jstr) : list (jstr * value) -> list jstr :=
  fix go (fs : list (jstr * value)) : list jstr :=
    match fs with
    | [] => []
    | (k, x) :: rest =>
        match ser x with
        | Some t => (quote k ++ lit ":" ++ t) :: go rest
        | None => go rest
        end
    end.

(** The elements of an array: [undefined] is written [null]. *)
Definition element (ser : value -> option jstr) (x : value) : jstr :=
  match ser x with
  | Some t => t
  | None => lit "null"
  end.

(** [None] is the [undefined] that [JSON.stringify] gives for [undefined]. *)
Fixpoint serialize (v : value) : option jstr :=
  match v with
  | VUndefined => None
  | VNull => Some (lit "null")
  | VBool true => Some (lit "true")
  | VBool false => Some (lit "false")
  | VNum n => Some (if number_finite host n then number_string host n else lit "null")
  | VStr s => Some (quote s)
  | VArr items =>
      Some (lit "[" ++ join (lit ",") (map (element serialize) items) ++ lit "]")
  | VObj fields =>
      Some (lit "{" ++ join (lit ",") (members serialize fields) ++ lit "}")
  end.

Definition JSON_stringify (v : value) : option jstr := serialize v.

(** [`${JSON.stringify(v)}`] inside a template literal. *)
Definition template_of_json (v : value) : jstr :=
  match JSON_stringify v with
  | Some t => t
  | None => lit "undefined"
  end.

End Stringify.

(** ** JSON.parse *)

Definition is_ws (c : N) : bool :=
  ((c =? 32) || (c =? 9) || (c =? 10) || (c =? 13))%N.

Fixpoint skip_ws (s : jstr) : jstr :=
  match s with
  | c :: rest => if is_ws c then skip_ws rest else s
  | [] => []
  end.

Definition is_digit (c : N) : bool := ((48 <=? c) && (c <=? 57))%N.

Definition hex_value (c : N) : option N :=
  (if is_digit c then Some (c - 48)
   else if (97 <=? c) && (c <=? 102) then Some (c - 87)
   else if (65 <=? c) && (c <=? 70) then Some (c - 55)
   else None)%N.

(** The characters of a string literal after its opening quote. *)
Fixpoint parse_string_body (s : jstr) : option (jstr * jstr) :=
  match s with
  | [] => None
  | c :: rest =>
      if (c =? 34)%N then Some ([], rest)
      else if (c =? 92)%N then
        match rest with
        | e :: rest1 =>
            let simple (u : N) :=
              match parse_string_body rest1 with
              | Some (t, r) => Some (u :: t, r)
              | None => None
              end in
            if (e =? 34)%N then simple 34%N
            else if (e =? 92)%N then simple 92%N
            else if (e =? 47)%N then simple 47%N
            else if (e =? ch "b")%N then simple 8%N
            else if (e =? ch "f")%N then simple 12%N
            else if (e =? ch "n")%N then simple 10%N
            else if (e =? ch "r")%N then simple 13%N
            else if (e =? ch "t")%N then simple 9%N
            else if (e =? ch "u")%N then
              match rest1 with
              | h1 :: h2 :: h3 :: h4 :: rest2 =>
                  match hex_value h1, hex_value h2, hex_value h3, hex_value h4 with
                  | Some a, Some b, Some c', Some d =>
                      match parse_string_body rest2 with
                      | Some (t, r) => Some ((a * 4096 + b * 256 + c' * 16 + d)%N :: t, r)
                      | None => None
                      end
                  | _, _, _, _ => None
                  end
              | _ => None
              end
            else None
        | [] => None
        end
      else if (c <? 32)%N then None
      else
        match parse_string_body rest with
        | Some (t, r) => Some (c :: t, r)
        | None => None
        end
  end.

Fixpoint take_digits (s : jstr) : jstr * jstr :=
  match s with
  | c :: rest =>
      if is_digit c then let '(ds, r) := take_digits rest in (c :: ds, r)
      else ([], s)
  | [] => ([], [])
  end.

Definition digits_value (ds : jstr) : N :=
  fold_left (fun acc c => (acc * 10 + (c - 48))%N) ds 0%N.

(** A number literal: an optional minus sign, an integer part without a
    leading zero (or a lone zero), an optional fraction and an optional
    exponent. *)
Definition parse_number (s : jstr) : option (decimal * jstr) :=
  let '(neg, s1) :=
    match s with
    | c :: r => if (c =? ch "-")%N then (true, r) else (false, s)
    | [] => (false, s)
    end in
  let int_part :=
    match s1 with
    | c :: r =>
        if (c =? 48)%N then Some ([c], r)
        else if is_digit c then Some (take_digits s1)
        else None
    | [] => None
    end in
  match int_part with
  | None => None
  | Some (ip, s2) =>
      let frac_part :=
        match s2 with
        | c :: r =>
            if (c =? ch ".")%N then
              match take_digits r with
              | ([], _) => None
              | (fp, r') => Some (fp, r')
              end
            else Some ([], s2)
        | [] => Some ([], s2)
        end in
      match frac_part with
      | None => None
      | Some (fp, s3) =>
          let exp_part :=
            match s3 with
            | c :: r =>
                if ((c =? ch "e") || (c =? ch "E"))%N then
                  let '(eneg, r1) :=
                    match r with
                    | sg :: r' =>
                        if (sg =? ch "-")%N then (true, r')
                        else if (sg =? ch "+")%N then (false, r')
                        else (false, r)
                    | [] => (false, r)
                    end in
                  match take_digits r1 with
                  | ([], _) => None
                  | (ep, r2) =>
                      let e := Z.of_N (digits_value ep) in
                      Some (if eneg then - e else e, r2)
                  end
                else Some (0, s3)
            | [] => Some (0, s3)
            end in
          match exp_part with
          | None => None
          | Some (e, s4) =>
              Some (Decimal neg (digits_value (ip ++ fp)) (e - Z.of_nat (length fp)), s4)
          end
      end
  end.

(** A canonical numeric string below 2^32 - 1: an array index, which an
    ordinary object lists before its other keys, in ascending order. *)
Definition array_index (k : jstr) : option N :=
  match k with
  | [] => None
  | c :: rest =>
      if forallb is_digit k && (negb (c =? 48)%N || match rest with [] => true | _ => false end)
      then let i := digits_value k in
           if (i <? 4294967295)%N then Some i else None
      else None
  end.

Fixpoint has_key (k : jstr) (fields : list (jstr * value)) : bool :=
  match fields with
  | [] => false
  | (k', _) :: rest => jstr_eqb k k' || has_key k rest
  end.

Fixpoint replace_key (k : jstr) (v : value) (fields : list (jstr * value))
  : list (jstr * value) :=
  match fields with
  | [] => []
  | (k', v') :: rest =>
      if jstr_eqb k k' then (k', v) :: rest else (k', v') :: replace_key k v rest
  end.

Fixpoint insert_index (i : N) (k : jstr) (v : value) (fields : list (jstr * value))
  : list (jstr * value) :=
  match fields with
  | [] => [(k, v)]
  | (k', v') :: rest =>
      match array_index k' with
      | Some j => if (j <? i)%N then (k', v') :: insert_index i k v rest
                  else (k, v) :: fields
      | None => (k, v) :: fields
      end
  end.

(** [CreateDataProperty] on the object under construction: a repeated key
    keeps its place and takes the later value. *)
Definition obj_set (fields : list (jstr * value)) (k : jstr) (v : value)
  : list (jstr * value) :=
  if has_key k fields then replace_key k v fields
  else match array_index k with
       | Some i => insert_index i k v fields
       | None => fields ++ [(k, v)]
       end.

Definition starts_with (p s : jstr) : option jstr :=
  if jstr_eqb (firstn (length p) s) p then Some (skipn (length p) s) else None.

Fixpoint parse_value (fuel : nat) (s : jstr) {struct fuel} : option (value * jstr) :=
  match fuel with
  | O => None
  | S fuel' =>
      match skip_ws s with
      | [] => None
      | c :: r =>
          if (c =? ch "{")%N then
            match skip_ws r with
            | c2 :: r2 =>
                if (c2 =? ch "}")%N then Some (VObj [], r2)
                else parse_members fuel' [] (c2 :: r2)
            | [] => None
            end
          else if (c =? ch "[")%N then
            match skip_ws r with
            | c2 :: r2 =>
                if (c2 =? ch "]")%N then Some (VArr [], r2)
                else parse_elements fuel' [] (c2 :: r2)
            | [] => None
            end
          else if (c =? 34)%N then
            match parse_string_body r with
            | Some (t, r') => Some (VStr t, r')
            | None => None
            end
          else
            match starts_with (lit "true") (c :: r) with
            | Some r' => Some (VBool true, r')
            | None =>
            match starts_with (lit "false") (c :: r) with
            | Some r' => Some (VBool false, r')
            | None =>
            match starts_with (lit "null") (c :: r) with
            | Some r' => Some (VNull, r')
            | None =>
            match parse_number (c :: r) with
            | Some (n, r') => Some (VNum n, r')
            | None => None
            end end end end
      end
  end

(** Members of an object, from the opening quote of a key on. *)
with parse_members (fuel : nat) (acc : list (jstr * value)) (s : jstr) {struct fuel}
  : option (value * jstr) :=
  match fuel with
  | O => None
  | S fuel' =>
      match s with
      | q :: r =>
          if (q =? 34)%N then
            match parse_string_body r with
            | Some (k, r1) =>
                match skip_ws r1 with
                | colon :: r2 =>
                    if (colon =? ch ":")%N then
                      match parse_value fuel' r2 with
                      | Some (v, r3) =>
                          let acc' := obj_set acc k v in
                          match skip_ws r3 with
                          | c :: r4 =>
                              if (c =? ch ",")%N then parse_members fuel' acc' (skip_ws r4)
                              else if (c =? ch "}")%N then Some (VObj acc', r4)
                              else None
                          | [] => None
                          end
                      | None => None
                      end
                    else None
                | [] => None
                end
            | None => None
            end
          else None
      | [] => None
      end
  end

(** Elements of an array, from the first character of an element on. *)
with parse_elements (fuel : nat) (acc : list value) (s : jstr) {struct fuel}
  : option (value * jstr) :=
  match fuel with
  | O => None
  | S fuel' =>
      match parse_value fuel' s with
      | Some (v, r1) =>
          match skip_ws r1 with
          | c :: r2 =>
              if (c =? ch ",")%N then parse_elements fuel' (acc ++ [v]) r2
              else if (c =? ch "]")%N then Some (VArr (acc ++ [v]), r2)
              else None
          | [] => None
          end
      | None => None
      end
  end.

(** [JSON.parse] without reviver; every failure is a [SyntaxError]. Each
    nested call consumes a character first, so the length of the text is
    fuel enough. *)
Definition JSON_parse (text : jstr) : outcome value :=
  match parse_value (S (length text)) text with
  | Some (v, rest) =>
      match skip_ws rest with
      | [] => Return v
      | _ :: _ => Throw SyntaxError
      end
  | None => Throw SyntaxError
  end.

(** ** Date

    Time values are integers of milliseconds since the epoch; [NaN] is the
    time value of an invalid date. Arithmetic on them is exact: every
    time value is below 2^53. *)

Inductive num : Type :=
| NaN
| Int (z : Z).

Definition msPerDay : Z := 86400000.

(** Largest magnitude of a time value ([TimeClip]). *)
Definition maxTime : Z := 8640000000000000.

Definition TimeClip (t : Z) : num :=
  if Z.abs t <=? maxTime then Int t else NaN.

(** Year, month (1..12) and day of month of a day number, proleptic
    Gregorian calendar ([YearFromTime], [MonthFromTime], [DateFromTime]). *)
Definition civil_from_days (n : Z) : Z * Z * Z :=
  let z := n + 719468 in
  let era := z / 146097 in
  let doe := z mod 146097 in
  let yoe := (doe - doe / 1460 + doe / 36524 - doe / 146096) / 365 in
  let doy := doe - (365 * yoe + yoe / 4 - yoe / 100) in
  let mp := (5 * doy + 2) / 153 in
  let d := doy - (153 * mp + 2) / 5 + 1 in
  let m := if mp <? 10 then mp + 3 else mp - 9 in
  (yoe + era * 400 + (if m <=? 2 then 1 else 0), m, d).

(** Day number of a calendar date ([MakeDay]). *)
Definition days_from_civil (y m d : Z) : Z :=
  let y' := if m <=? 2 then y - 1 else y in
  let era := y' / 400 in
  let yoe := y' mod 400 in
  let mp := if 2 <? m then m - 3 else m + 9 in
  let doy := (153 * mp + 2) / 5 + d - 1 in
  let doe := yoe * 365 + yoe / 4 - yoe / 100 + doy in
  era * 146097 + doe - 719468.

Definition year_string (y : Z) : jstr :=
  if (0 <=? y) && (y <=? 9999) then pad_digits 4 y
  else (if y <? 0 then lit "-" else lit "+") ++ pad_digits 6 (Z.abs y).

(** [Date.prototype.toISOString] on a valid time value:
    [YYYY-MM-DDTHH:mm:ss.sssZ], the year with a sign and six digits
    outside 0..9999. *)
Definition iso_string (t : Z) : jstr :=
  let '(y, m, d) := civil_from_days (t / msPerDay) in
  let ms := t mod msPerDay in
  year_string y ++ lit "-" ++ pad_digits 2 m ++ lit "-" ++ pad_digits 2 d ++
  lit "T" ++ pad_digits 2 (ms / 3600000) ++ lit ":" ++
  pad_digits 2 (ms / 60000 mod 60) ++ lit ":" ++
  pad_digits 2 (ms / 1000 mod 60) ++ lit "." ++
  pad_digits 3 (ms mod 1000) ++ lit "Z".

(** [new Date(t).toISOString()]. *)
Definition Date_toISOString (t : Z) : outcome jstr :=
  match TimeClip t with
  | Int t' => Return (iso_string t')
  | NaN => Throw RangeError
  end.

Fixpoint read_digits (w : nat) (acc : Z) (s : jstr) : option (Z * jstr) :=
  match w with
  | O => Some (acc, s)
  | S w' =>
      match s with
      | c :: rest =>
          if is_digit c then read_digits w' (acc * 10 + (Z.of_N c - 48)) rest
          else None
      | [] => None
      end
  end.

Definition expect (c : N) (s : jstr) : option jstr :=
  match s with
  | c' :: rest => if (c' =? c)%N then Some rest else None
  | [] => None
  end.

Definition read_year (s : jstr) : option (Z * jstr) :=
  match s with
  | c :: rest =>
      if (c =? ch "+")%N then read_digits 6 0 rest
      else if (c =? ch "-")%N then
        match read_digits 6 0 rest with
        | Some (y, r) => if y =? 0 then None else Some (- y, r)
        | None => None
        end
      else read_digits 4 0 s
  | [] => None
  end.

Notation "'let?' p := e 'in' k" :=
  (match e with Some p => k | None => None end)
  (at level 10, p pattern, e at level 200, k at level 200).

(** The complete UTC form of the ECMAScript date-time string format, with
    legal element values, as [toISOString] writes it. *)
Definition iso_parse (s : jstr) : option Z :=
  let? (y, s) := read_year s in
  let? s := expect (ch "-") s in
  let? (m, s) := read_digits 2 0 s in
  let? s := expect (ch "-") s in
  let? (d, s) := read_digits 2 0 s in
  let? s := expect (ch "T") s in
  let? (hh, s) := read_digits 2 0 s in
  let? s := expect (ch ":") s in
  let? (mm, s) := read_digits 2 0 s in
  let? s := expect (ch ":") s in
  let? (ss, s) := read_digits 2 0 s in
  let? s := expect (ch ".") s in
  let? (ms, s) := read_digits 3 0 s in
  let? s := expect (ch "Z") s in
  match s with
  | _ :: _ => None
  | [] =>
      let day := days_from_civil y m d in
      let '(y', m', d') := civil_from_days day in
      if (y' =? y) && (m' =? m) && (d' =? d) &&
         (hh <=? 23) && (mm <=? 59) && (ss <=? 59)
      then
        match TimeClip (day * msPerDay + hh * 3600000 + mm * 60000 + ss * 1000 + ms) with
        | Int t => Some t
        | NaN => None
        end
      else None
  end.

Section Dates.
Context (host : Host).

(** [Date.parse]: the format above is read here; any other text (the
    shorter forms, local time, legacy formats) is the engine's to
    recognise or not, except the empty string, which no engine does. *)
Definition Date_parse (s : jstr) : num :=
  match s with
  | [] => NaN
  | _ :: _ =>
      match iso_parse s with
      | Some t => Int t
      | None =>
          match legacy_date_parse host s with
          | Some t => Int t
          | None => NaN
          end
      end
  end.

(** [ToString], with the elements of an array joined as
    [Array.prototype.toString] does. A plain object prints as
    [[object Object]] unless an own [toString] property, which cannot be
    callable here, hides the inherited method. *)
Fixpoint ToString (v : value) : outcome jstr :=
  match v with
  | VUndefined => Return (lit "undefined")
  | VNull => Return (lit "null")
  | VBool true => Return (lit "true")
  | VBool false => Return (lit "false")
  | VNum n => Return (number_string host n)
  | VStr s => Return s
  | VArr items =>
      parts <- (fix each (xs : list value) : outcome (list jstr) :=
                  match xs with
                  | [] => Return []
                  | x :: rest =>
                      t <- match x with
                           | VUndefined | VNull => Return []
                           | _ => ToString x
                           end ;;
                      ts <- each rest ;;
                      Return (t :: ts)
                  end) items ;;
      Return (join (lit ",") parts)
  | VObj fields =>
      if has_key (lit "toString") fields then Throw TypeError
      else Return (lit "[object Object]")
  end.

(** [new Date(v).getTime()]. *)
Definition Date_getTime (v : value) : outcome num :=
  match v with
  | VUndefined => Return NaN
  | VNull => Return (Int 0)
  | VBool b => Return (Int (if b then 1 else 0))
  | VNum n => Return (match number_time host n with Some t => Int t | None => NaN end)
  | VStr s => Return (Date_parse s)
  | VArr _ | VObj _ => s <- ToString v ;; Return (Date_parse s)
  end.

End Dates.

(** [a < b] on Numbers: false when either is NaN. *)
Definition num_lt (a b : num) : bool :=
  match a, b with
  | Int x, Int y => x <? y
  | _, _ => false
  end.

(** [Math.floor(a / d)] for a positive integer [d]. *)
Definition Math_floor_div (a : num) (d : Z) : num :=
  match a with
  | Int x => Int (x / d)
  | NaN => NaN
  end.

Definition num_sub (a b : num) : num :=
  match a, b with
  | Int x, Int y => Int (x - y)
  | _, _ => NaN
  end.

(** [Math.max]: NaN if either argument is. *)
Definition Math_max (a b : num) : num :=
  match a, b with
  | Int x, Int y => Int (Z.max x y)
  | _, _ => NaN
  end.

(** [Array.prototype.every] with a callback that may throw. *)
Fixpoint every {A : Type} (p : A -> outcome bool) (l : list A) : outcome bool :=
  match l with
  | [] => Return true
  | x :: rest => b <- p x ;; if b then every p rest else Return false
  end.

(** ** src/lib/auth.ts *)

Module Auth.
Section Auth.
Context (host : Host).
(** [Date.now()]. *)
Context (now : Z).

(** [createAuthSession(user, accessToken, expiresIn)], [expiresIn] a whole
    number of seconds. [toISOString] throws on an invalid date. *)
Definition createAuthSession (user accessToken : value) (expiresIn : Z)
  : outcome value :=
  expiresAt <- Date_toISOString (now + expiresIn * 1000) ;;
  Return (VObj [(lit "user", user);
                (lit "accessToken", accessToken);
                (lit "expiresAt", VStr expiresAt)]).

Definition isSessionValid (session : value) : outcome bool :=
  if negb (truthy host session) then Return false
  else
    expiresAt <- Get session (lit "expiresAt") ;;
    if negb (truthy host expiresAt) then Return false
    else
      expirationTime <- Date_getTime host expiresAt ;;
      let currentTime := Int now in
      Return (num_lt currentTime expirationTime).

Definition isSessionExpired (session : value) : outcome bool :=
  valid <- isSessionValid session ;;
  Return (negb valid).

Definition getSessionTimeRemaining (session : value) : outcome num :=
  if negb (truthy host session) then Return (Int 0)
  else
    expiresAt <- Get session (lit "expiresAt") ;;
    if negb (truthy host expiresAt) then Return (Int 0)
    else
      expirationTime <- Date_getTime host expiresAt ;;
      let currentTime := Int now in
      let remainingMs := num_sub expirationTime currentTime in
      Return (Math_max (Int 0) (Math_floor_div remainingMs 1000)).

Definition requiredFields : list jstr :=
  [lit "id"; lit "google_id"; lit "email"; lit "name";
   lit "created_at"; lit "updated_at"].

Definition validateUser (user : value) : outcome bool :=
  if negb (truthy host user) || negb (typeof_object user) then Return false
  else
    every (fun field =>
             v <- Get user field ;;
             Return (match v with
                     | VNull | VUndefined => false
                     | VStr s => negb (jstr_eqb s [])
                     | _ => true
                     end))
          requiredFields.

Definition requireValidSession (session : value) : outcome value :=
  if negb (truthy host session)
  then Throw (AuthenticationError (lit "No session provided"))
  else
    valid <- isSessionValid session ;;
    if negb valid then Throw (AuthenticationError (lit "Session has expired"))
    else
      user <- Get session (lit "user") ;;
      ok <- validateUser user ;;
      if negb ok then Throw (AuthenticationError (lit "Invalid user data in session"))
      else Get session (lit "user").

Definition getUserFromSession (session : value) : outcome value :=
  try_catch (requireValidSession session) (fun _ => Return VNull).

(** [JSON.parse(cookieValue) as AuthSession] is a cast: nothing is checked. *)
Definition parseSessionFromCookie (cookieValue : jstr) : outcome value :=
  try_catch
    (session <- JSON_parse cookieValue ;;
     valid <- isSessionValid session ;;
     Return (if valid then session else VNull))
    (fun _ => Return VNull).

End Auth.

Record CookieOptions : Type := {
  httpOnly : bool;
  secure : bool;
  sameSite : jstr;
  maxAge : Z;
  path : jstr
}.

Definition getSessionCookieOptions (isProduction : bool) : CookieOptions :=
  {| httpOnly := true;
     secure := isProduction;
     sameSite := lit "lax";
     maxAge := 3600;
     path := lit "/" |}.

(** [cookieParts.push(part)] when [cond] holds. *)
Definition push_if (cond : bool) (part : jstr) (parts : list jstr) : list jstr :=
  if cond then parts ++ [part] else parts.

Definition serializeSessionToCookie (host : Host) (session : value)
  (isProduction : bool) : jstr :=
  let options := getSessionCookieOptions isProduction in
  let sessionJson := template_of_json host session in
  let cookieParts := [lit "session=" ++ sessionJson] in
  let cookieParts := push_if (httpOnly options) (lit "HttpOnly") cookieParts in
  let cookieParts := push_if (secure options) (lit "Secure") cookieParts in
  let cookieParts :=
    push_if (negb (jstr_eqb (sameSite options) []))
      (lit "SameSite=" ++ sameSite options) cookieParts in
  let cookieParts :=
    push_if (negb (maxAge options =? 0))
      (lit "Max-Age=" ++ int_to_string (maxAge options)) cookieParts in
  let cookieParts :=
    push_if (negb (jstr_eqb (path options) []))
      (lit "Path=" ++ path options) cookieParts in
  join (lit "; ") cookieParts.

Definition createClearSessionCookie : jstr :=
  lit "session=; Path=/; Expires=Thu, 01 Jan 1970 00:00:00 GMT; HttpOnly; SameSite=Lax".

End Auth.

(** ** Request handlers

    A handler runs on the [World]: the cookies of the request, the calls
    made to [context.cookies.delete], [context.locals], the lines written
    with [console.error], and how often the [redirect] helper was called.
    The world survives a [throw]. *)

(** [App.Locals], declared in the middleware. *)
Module App.
Record Locals : Type := {
  session : value;
  user : value;
  isAuthenticated : bool
}.
End App.

Inductive logged : Type :=
| LogError (e : exn)
| LogValue (v : value).

Record World : Type := {
  cookies : list (jstr * jstr);
  deleted : list (jstr * jstr);
  locals : option App.Locals;
  console : list (jstr * logged);
  redirect_calls : nat
}.

Definition io (A : Type) : Type := World -> outcome A * World.

Definition ret {A : Type} (a : A) : io A := fun w => (Return a, w).

Definition raise {A : Type} (e : exn) : io A := fun w => (Throw e, w).

Definition lift {A : Type} (m : outcome A) : io A := fun w => (m, w).

Definition bind_io {A B : Type} (m : io A) (k : A -> io B) : io B :=
  fun w =>
    match m w with
    | (Return a, w') => k a w'
    | (Throw e, w') => (Throw e, w')
    end.

Notation "x <~ m ;; k" := (bind_io m (fun x => k))
  (at level 61, m at next level, right associativity).
Notation "m ;;; k" := (bind_io m (fun _ => k))
  (at level 61, right associativity).

Definition try_catch_io {A : Type} (body : io A) (handler : exn -> io A) : io A :=
  fun w =>
    match body w with
    | (Return a, w') => (Return a, w')
    | (Throw e, w') => handler e w'
    end.

Fixpoint cookie_value (name : jstr) (jar : list (jstr * jstr)) : option jstr :=
  match jar with
  | [] => None
  | (n, v) :: rest => if jstr_eqb n name then Some v else cookie_value name rest
  end.

(** [context.cookies.get(name)]: the cookie's value when the request
    carries one of that name. *)
Definition cookies_get (name : jstr) : io (option jstr) :=
  fun w => (Return (cookie_value name (cookies w)), w).

(** [context.cookies.delete(name, { path })]. *)
Definition cookies_delete (name path : jstr) : io unit :=
  fun w =>
    (Return tt,
     {| cookies := cookies w; deleted := deleted w ++ [(name, path)];
        locals := locals w; console := console w;
        redirect_calls := redirect_calls w |}).

Definition set_locals (l : App.Locals) : io unit :=
  fun w =>
    (Return tt,
     {| cookies := cookies w; deleted := deleted w;
        locals := Some l; console := console w;
        redirect_calls := redirect_calls w |}).

(** [console.error(label, what)]. *)
Definition console_error (label : jstr) (what : logged) : io unit :=
  fun w =>
    (Return tt,
     {| cookies := cookies w; deleted := deleted w;
        locals := locals w; console := console w ++ [(label, what)];
        redirect_calls := redirect_calls w |}).

Record Response : Type := {
  location : jstr;
  headers : list (jstr * jstr)
}.

(** [response.headers.set(name, v)]. *)
Fixpoint headers_set (name v : jstr) (hs : list (jstr * jstr)) : list (jstr * jstr) :=
  match hs with
  | [] => [(name, v)]
  | (n, x) :: rest =>
      if jstr_eqb n name then (n, v) :: rest else (n, x) :: headers_set name v rest
  end.

Fixpoint headers_get (name : jstr) (hs : list (jstr * jstr)) : option jstr :=
  match hs with
  | [] => None
  | (n, x) :: rest => if jstr_eqb n name then Some x else headers_get name rest
  end.

Definition set_header (name v : jstr) (r : Response) : Response :=
  {| location := location r; headers := headers_set name v (headers r) |}.

(** The [redirect] helper of the route context. What its n-th call does
    with a target is the caller's to say (a test double may fail once and
    then answer). *)
Definition Redirect : Type := nat -> jstr -> outcome Response.

Definition call_redirect (redirect : Redirect) (target : jstr) : io Response :=
  fun w =>
    (redirect (redirect_calls w) target,
     {| cookies := cookies w; deleted := deleted w;
        locals := locals w; console := console w;
        redirect_calls := S (redirect_calls w) |}).

(** ** src/middleware/index.ts *)

Module Middleware.
Section Middleware.
Context (host : Host) (now : Z).
Context {R : Type}.

(** [next] is the rest of the request: the downstream handler on the
    annotated context. *)
Definition onRequest (next : io R) : io R :=
  sessionCookie <~ cookies_get (lit "session") ;;
  session <~
    match sessionCookie with
    | Some cookieValue =>
        try_catch_io
          (parsedSession <~ lift (JSON_parse cookieValue) ;;
           valid <~ lift (Auth.isSessionValid host now parsedSession) ;;
           if valid then ret parsedSession
           else cookies_delete (lit "session") (lit "/") ;;; ret VNull)
          (fun error =>
             console_error (lit "Error parsing session cookie:") (LogError error) ;;;
             cookies_delete (lit "session") (lit "/") ;;;
             ret VNull)
    | None => ret VNull
    end ;;
  set_locals
    {| App.session := session;
       App.user := (let u := Get_optional session (lit "user") in
                    if truthy host u then u else VNull);
       App.isAuthenticated := truthy host session |} ;;;
  next.

End Middleware.
End Middleware.

(** ** src/pages/api/auth/logout.ts *)

Module Logout.

Definition POST (redirect : Redirect) : io Response :=
  try_catch_io
    (response <~ call_redirect redirect (lit "/?logout=success") ;;
     ret (set_header (lit "Set-Cookie")
            (lit "session=; Path=/; Expires=Thu, 01 Jan 1970 00:00:00 GMT; HttpOnly; SameSite=Lax")
            response))
    (fun error =>
       console_error (lit "Logout error:") (LogError error) ;;;
       response <~ call_redirect redirect (lit "/?error=logout_failed") ;;
       ret (set_header (lit "Set-Cookie")
              (lit "session=; Path=/; Expires=Thu, 01 Jan 1970 00:00:00 GMT; HttpOnly; SameSite=Lax")
              response)).

End Logout.

(** ** src/pages/api/auth/google.ts, the callback *)

Module Google.

(** What [getToken] resolves to. *)
Record Tokens : Type := {
  access_token : value
}.

(** The profile [oauth2.userinfo.get()] resolves to. *)
Record GoogleUser : Type := {
  id : value;
  email : value;
  name : value;
  picture : value
}.

(** What a query on the store resolves to. *)
Record QueryResult : Type := {
  data : value;
  error : value
}.

(** The parties the callback talks to; a rejected promise is a [Throw]. *)
Record Collaborators : Type := {
  (** [oauth2Client.getToken(code)]. *)
  getToken : jstr -> outcome Tokens;
  (** [setCredentials(tokens)], [google.oauth2(...)] and
      [oauth2.userinfo.get()]. *)
  userinfo_get : Tokens -> outcome GoogleUser;
  (** [createClient()]. *)
  createClient : outcome unit;
  (** [from('users').select('*').eq('google_id', id).single()]. *)
  select_user : value -> outcome QueryResult;
  (** [from('users').update(fields).eq('google_id', id).select().single()]. *)
  update_user : value -> value -> outcome QueryResult;
  (** [from('users').insert(fields).select().single()]. *)
  insert_user : value -> outcome QueryResult;
  redirect : Redirect;
  (** [import.meta.env.NODE_ENV]. *)
  NODE_ENV : value
}.

(** The two query parameters the callback reads from [request.url];
    [None] is the [null] of [searchParams.get]. *)
Record Request : Type := {
  code : option jstr;
  oauth_error : option jstr
}.

(** A value an option of the session cookie can hold. *)
Inductive option_value : Type :=
| OBool (b : bool)
| OStr (s : jstr)
| ONum (z : Z).

(** [`${value}`]. *)
Definition option_to_string (v : option_value) : jstr :=
  match v with
  | OBool true => lit "true"
  | OBool false => lit "false"
  | OStr s => s
  | ONum z => int_to_string z
  end.

(** [Object.entries(cookieOptions)], in the order the properties were
    written. *)
Definition Object_entries (o : Auth.CookieOptions) : list (jstr * option_value) :=
  [(lit "httpOnly", OBool (Auth.httpOnly o));
   (lit "secure", OBool (Auth.secure o));
   (lit "sameSite", OStr (Auth.sameSite o));
   (lit "maxAge", ONum (Auth.maxAge o));
   (lit "path", OStr (Auth.path o))].

(** [a || b]. *)
Definition or_else (host : Host) (a b : value) : value :=
  if truthy host a then a else b.

(** [v === 'production']. *)
Definition is_production (v : value) : bool :=
  match v with
  | VStr s => jstr_eqb s (lit "production")
  | _ => false
  end.

Section Callback.
Context (host : Host) (now : Z) (ext : Collaborators).

Definition option_truthy (o : option jstr) : bool :=
  match o with
  | Some s => negb (jstr_eqb s [])
  | None => false
  end.

Definition POST (request : Request) : io Response :=
  try_catch_io
    (if option_truthy (oauth_error request) then
       console_error (lit "OAuth error:")
         (LogValue (match oauth_error request with Some s => VStr s | None => VNull end)) ;;;
       call_redirect (redirect ext) (lit "/?error=oauth_denied")
     else
       match code request with
       | None => raise (ValidationError (lit "Authorization code is required"))
       | Some code =>
       if jstr_eqb code [] then raise (ValidationError (lit "Authorization code is required"))
       else
         tokens <~ lift (getToken ext code) ;;
         googleUser <~ lift (userinfo_get ext tokens) ;;
         if negb (truthy host (id googleUser)) || negb (truthy host (email googleUser))
            || negb (truthy host (name googleUser))
         then raise (AuthenticationError (lit "Incomplete user information from Google"))
         else
           supabase <~ lift (createClient ext) ;;
           found <~ lift (select_user ext (id googleUser)) ;;
           user <~
             (if truthy host (data found) && negb (truthy host (error found)) then
                updated_at <~ lift (Date_toISOString now) ;;
                updated <~ lift (update_user ext
                                   (VObj [(lit "email", email googleUser);
                                          (lit "name", name googleUser);
                                          (lit "avatar_url", or_else host (picture googleUser) VNull);
                                          (lit "updated_at", VStr updated_at)])
                                   (id googleUser)) ;;
                if truthy host (error updated) || negb (truthy host (data updated)) then
                  console_error (lit "Error updating user:") (LogValue (error updated)) ;;;
                  raise (AuthenticationError (lit "Failed to update user information"))
                else ret (data updated)
              else
                created <~ lift (insert_user ext
                                   (VObj [(lit "google_id", id googleUser);
                                          (lit "email", email googleUser);
                                          (lit "name", name googleUser);
                                          (lit "avatar_url", or_else host (picture googleUser) VNull)])) ;;
                if truthy host (error created) || negb (truthy host (data created)) then
                  console_error (lit "Error creating user:") (LogValue (error created)) ;;;
                  raise (AuthenticationError (lit "Failed to create user account"))
                else ret (data created)) ;;
           session <~ lift (Auth.createAuthSession now user
                              (or_else host (access_token tokens) (VStr []))
                              3600) ;;
           let cookieOptions := Auth.getSessionCookieOptions (is_production (NODE_ENV ext)) in
           response <~ call_redirect (redirect ext) (lit "/?auth=success") ;;
           ret (set_header (lit "Set-Cookie")
                  (lit "session=" ++ template_of_json host session ++ lit "; " ++
                   join (lit "; ")
                     (map (fun '(key, value) => key ++ lit "=" ++ option_to_string value)
                        (Object_entries cookieOptions)))
                  response)
       end)
    (fun error =>
       console_error (lit "Authentication error:") (LogError error) ;;;
       match error with
       | ValidationError _ => call_redirect (redirect ext) (lit "/?error=invalid_request")
       | AuthenticationError _ => call_redirect (redirect ext) (lit "/?error=auth_failed")
       | _ => call_redirect (redirect ext) (lit "/?error=server_error")
       end).

End Callback.
End Google.

(** ** Typed views

    The shapes TypeScript declares, and how such a value looks at run
    time. *)

Module Types.

(** A row of the [users] table ([src/db/types.ts]). *)
Record User : Type := {
  id : jstr;
  google_id : jstr;
  email : jstr;
  name : jstr;
  avatar_url : option jstr;
  created_at : jstr;
  updated_at : jstr
}.

Definition User_value (u : User) : value :=
  VObj [(lit "id", VStr (id u));
        (lit "google_id", VStr (google_id u));
        (lit "email", VStr (email u));
        (lit "name", VStr (name u));
        (lit "avatar_url", match avatar_url u with Some a => VStr a | None => VNull end);
        (lit "created_at", VStr (created_at u));
        (lit "updated_at", VStr (updated_at u))].

(** [AuthSession] as the functions of [auth.ts] receive it: the user is
    whatever object the caller wrapped, and [expiresAt] may be missing
    (the tests cast such objects to [AuthSession]). *)
Record AuthSession : Type := {
  user : value;
  accessToken : jstr;
  expiresAt : option jstr
}.

Definition session_value (s : AuthSession) : value :=
  VObj ([(lit "user", user s); (lit "accessToken", VStr (accessToken s))] ++
        match expiresAt s with
        | Some e => [(lit "expiresAt", VStr e)]
        | None => []
        end).

(** [AuthSession | null]. *)
Definition nullable (s : option AuthSession) : value :=
  match s with
  | Some s => session_value s
  | None => VNull
  end.

End Types.

(** ** Values that JSON carries unchanged *)

(** Code units are 16 bits wide. *)
Definition wf_string (s : jstr) : bool := forallb (fun u => (u <? 65536)%N) s.

Definition fields_safe (safe : value -> bool) : list (jstr * value) -> bool :=
  fix go (fs : list (jstr * value)) : bool :=
    match fs with
    | [] => true
    | (k, x) :: rest =>
        wf_string k
        && match array_index k with Some _ => false | None => true end
        && negb (has_key k rest)
        && safe x
        && go rest
    end.

(** No [undefined] and no number inside, keys distinct and none an array
    index. *)
Fixpoint json_safe (v : value) : bool :=
  match v with
  | VUndefined | VNum _ => false
  | VNull | VBool _ => true
  | VStr s => wf_string s
  | VArr items => forallb json_safe items
  | VObj fields => fields_safe json_safe fields
  end.

Definition wf_user (u : Types.User) : bool :=
  wf_string (Types.id u) && wf_string (Types.google_id u) &&
  wf_string (Types.email u) && wf_string (Types.name u) &&
  match Types.avatar_url u with Some a => wf_string a | None => true end &&
  wf_string (Types.created_at u) && wf_string (Types.updated_at u).

(** The text of [x] parses back to [x], whatever follows it. *)
Definition value_text_ok (host : Host) (x : value) : Prop :=
  forall s, serialize host x = Some s ->
  forall fuel rest, (List.length s < fuel)%nat ->
  parse_value fuel (s ++ rest) = Some (x, rest).

(** The first character of a serialized [json_safe] value. *)
Definition opener (c : N) : bool :=
  ((c =? 123) || (c =? 91) || (c =? 34) || (c =? 116) || (c =? 102) || (c =? 110))%N.

(** ** A host to run the model with

    It knows no date format beyond the ECMAScript one and computes with
    the exact decimal a number literal writes, which is what a binary64
    engine does for an integer below 2^53. A Number that is not an
    integer is printed in exponent form. *)

Definition decimal_signed (d : decimal) : Z :=
  if d_neg d then - Z.of_N (d_mant d) else Z.of_N (d_mant d).

Definition plain_host : Host :=
  {| number_truthy := fun d => negb (d_mant d =? 0)%N;
     number_finite := fun _ => true;
     number_string := fun d =>
       if 0 <=? d_exp d then int_to_string (decimal_signed d * 10 ^ d_exp d)
       else int_to_string (decimal_signed d) ++ lit "e" ++ int_to_string (d_exp d);
     number_time := fun d =>
       let t := if 0 <=? d_exp d then decimal_signed d * 10 ^ d_exp d
                else Z.quot (decimal_signed d) (10 ^ (- d_exp d)) in
       match TimeClip t with Int t' => Some t' | NaN => None end;
     legacy_date_parse := fun _ => None |}.

(** ** Vocabulary of the statements *)

(** A field [validateUser] accepts. *)
Definition present (v : value) : bool :=
  match v with
  | VNull | VUndefined => false
  | VStr s => negb (jstr_eqb s [])
  | _ => true
  end.

(** The store answered with a row and no error. *)
Definition stored (host : Host) (q : Google.QueryResult) : bool :=
  negb (truthy host (Google.error q)) && truthy host (Google.data q).

(** A login that goes through: the code is exchanged for [tokens], the
    profile has an id, an email and a name, and the store returns the
    row [user], updated when the lookup found the account and inserted
    otherwise. *)
Definition login_succeeds (host : Host) (now : Z) (ext : Google.Collaborators)
  (request : Google.Request) (tokens : Google.Tokens) (user : value) : Prop :=
  exists code profile found,
    Google.option_truthy (Google.oauth_error request) = false /\
    Google.code request = Some code /\ code <> [] /\
    Google.getToken ext code = Return tokens /\
    Google.userinfo_get ext tokens = Return profile /\
    truthy host (Google.id profile) = true /\
    truthy host (Google.email profile) = true /\
    truthy host (Google.name profile) = true /\
    Google.createClient ext = Return tt /\
    Google.select_user ext (Google.id profile) = Return found /\
    ((truthy host (Google.data found) && negb (truthy host (Google.error found)) = true /\
      exists stamp updated,
        Date_toISOString now = Return stamp /\
        Google.update_user ext
          (VObj [(lit "email", Google.email profile);
                 (lit "name", Google.name profile);
                 (lit "avatar_url", Google.or_else host (Google.picture profile) VNull);
                 (lit "updated_at", VStr stamp)])
          (Google.id profile) = Return updated /\
        stored host updated = true /\ user = Google.data updated)
     \/
     (truthy host (Google.data found) && negb (truthy host (Google.error found)) = false /\
      exists created,
        Google.insert_user ext
          (VObj [(lit "google_id", Google.id profile);
                 (lit "email", Google.email profile);
                 (lit "name", Google.name profile);
                 (lit "avatar_url", Google.or_else host (Google.picture profile) VNull)])
        = Return created /\
        stored host created = true /\ user = Google.data created)).

(** The header the callback writes. *)
Definition callback_cookie (json : jstr) (production : bool) : jstr :=
  lit "session=" ++ json ++ lit "; httpOnly=true; secure=" ++
  (if production then lit "true" else lit "false") ++
  lit "; sameSite=lax; maxAge=3600; path=/".


(** ** The fixtures of the tests *)

Module Fixture.

(** [vi.setSystemTime(new Date('2024-01-01T12:00:00Z'))]. *)
Definition now : Z := 1704110400000.

Definition mockUser : Types.User :=
  {| Types.id := lit "user-123";
     Types.google_id := lit "123456789";
     Types.email := lit "test@example.com";
     Types.name := lit "Test User";
     Types.avatar_url := Some (lit "https://example.com/avatar.jpg");
     Types.created_at := lit "2024-01-01T00:00:00Z";
     Types.updated_at := lit "2024-01-01T00:00:00Z" |}.

(** [createAuthSession(mockUser, 'token123')]. *)
Definition mockSession : value :=
  VObj [(lit "user", Types.User_value mockUser);
        (lit "accessToken", VStr (lit "token123"));
        (lit "expiresAt", VStr (lit "2024-01-01T13:00:00.000Z"))].

(** The same session, typed. *)
Definition mockTypedSession : Types.AuthSession :=
  {| Types.user := Types.User_value mockUser;
     Types.accessToken := lit "token123";
     Types.expiresAt := Some (lit "2024-01-01T13:00:00.000Z") |}.

(** [JSON.stringify] of it, the value of the session cookie. *)
Definition mockCookieValue : jstr :=
  dq ("{'user':{'id':'user-123','google_id':'123456789'," ++
      "'email':'test@example.com','name':'Test User'," ++
      "'avatar_url':'https://example.com/avatar.jpg'," ++
      "'created_at':'2024-01-01T00:00:00Z','updated_at':'2024-01-01T00:00:00Z'}," ++
      "'accessToken':'token123','expiresAt':'2024-01-01T13:00:00.000Z'}")%string.

Definition emptyWorld : World :=
  {| cookies := []; deleted := []; locals := None; console := [];
     redirect_calls := 0 |}.

Definition worldWithCookie (v : jstr) : World :=
  {| cookies := [(lit "session", v)]; deleted := []; locals := None;
     console := []; redirect_calls := 0 |}.

Definition mockResponse : Response := {| location := []; headers := [] |}.

(** [vi.fn().mockReturnValue(mockResponse)]. *)
Definition mockRedirect : Redirect := fun _ _ => Return mockResponse.

(** [vi.fn().mockImplementationOnce(() => { throw new Error('Redirect
    failed') }).mockReturnValue(mockResponse)]. *)
Definition failingOnceRedirect : Redirect :=
  fun n _ =>
    match n with
    | O => Throw (HostError (lit "Redirect failed"))
    | S _ => Return mockResponse
    end.


(** A session whose expiry is not a date. *)
Definition sessionWithBadExpiry : Types.AuthSession :=
  {| Types.user := Types.User_value mockUser;
     Types.accessToken := lit "token123";
     Types.expiresAt := Some (lit "not-a-date") |}.

(** A cookie a client may send: well-formed JSON, not yet expired, the
    user an empty string. *)
Definition cookieWithEmptyUser : jstr :=
  dq "{'user':'','accessToken':'t','expiresAt':'2999-01-01T00:00:00.000Z'}".

(** The collaborators of the callback test: the account is not found and
    the insert returns the row. *)
Definition mockTokens : Google.Tokens :=
  {| Google.access_token := VStr (lit "mock-access-token") |}.

Definition mockCollaborators : Google.Collaborators :=
  {| Google.getToken := fun _ => Return mockTokens;
     Google.userinfo_get := fun _ =>
       Return {| Google.id := VStr (lit "google-123");
                 Google.email := VStr (lit "test@example.com");
                 Google.name := VStr (lit "Test User");
                 Google.picture := VStr (lit "https://example.com/avatar.jpg") |};
     Google.createClient := Return tt;
     Google.select_user := fun _ =>
       Return {| Google.data := VNull;
                 Google.error := VObj [(lit "code", VStr (lit "PGRST116"))] |};
     Google.update_user := fun _ _ =>
       Return {| Google.data := VNull; Google.error := VNull |};
     Google.insert_user := fun _ =>
       Return {| Google.data := Types.User_value mockUser; Google.error := VNull |};
     Google.redirect := mockRedirect;
     Google.NODE_ENV := VStr (lit "test") |}.

Definition mockRequest : Google.Request :=
  {| Google.code := Some (lit "mock-code"); Google.oauth_error := None |}.

(** [createAuthSession(mockUser, 'mock-access-token', 3600)]. *)
Definition mockCallbackSession : value :=
  VObj [(lit "user", Types.User_value mockUser);
        (lit "accessToken", VStr (lit "mock-access-token"));
        (lit "expiresAt", VStr (lit "2024-01-01T13:00:00.000Z"))].

End Fixture.

(** ** More of the String and RegExp built-ins

    What [src/lib/validation.ts] calls. *)

(** [WhiteSpace] and [LineTerminator] of ECMA-262: the code units that
    [String.prototype.trim] strips and the class [\s] matches. *)
Definition is_space (c : N) : bool :=
  ((c =? 9) || (c =? 10) || (c =? 11) || (c =? 12) || (c =? 13) || (c =? 32) ||
   (c =? 160) || (c =? 5760) || ((8192 <=? c) && (c <=? 8202)) ||
   (c =? 8232) || (c =? 8233) || (c =? 8239) || (c =? 8287) || (c =? 12288) ||
   (c =? 65279))%N.

Fixpoint trimStart (s : jstr) : jstr :=
  match s with
  | c :: rest => if is_space c then trimStart rest else s
  | [] => []
  end.

Definition trimEnd (s : jstr) : jstr := rev (trimStart (rev s)).

(** [String.prototype.trim]. *)
Definition trim (s : jstr) : jstr := trimEnd (trimStart s).

(** [s.length]. *)
Definition String_length (s : jstr) : Z := Z.of_nat (List.length s).

(** [s.includes(needle)]. *)
Fixpoint includes (needle s : jstr) : bool :=
  match starts_with needle s with
  | Some _ => true
  | None =>
      match s with
      | [] => false
      | _ :: rest => includes needle rest
      end
  end.

(** The patterns of [validation.ts] that are tested against a whole
    string: after [^], a sequence of character classes, each matched once
    or, under [+], at least once and as often as possible, giving back
    what the rest of the pattern needs; [$] at the end. *)
Inductive atom : Type :=
| One (class : N -> bool)
| Many (class : N -> bool)
| End_of_input.

(** Whether the pattern matches at the start of [s]. *)
Fixpoint match_here (r : list atom) (s : jstr) {struct r} : bool :=
  match r with
  | [] => true
  | One class :: r' =>
      match s with
      | c :: s' => class c && match_here r' s'
      | [] => false
      end
  | Many class :: r' =>
      (fix many (s : jstr) : bool :=
         match s with
         | c :: s' => class c && (many s' || match_here r' s')
         | [] => false
         end) s
  | End_of_input :: r' =>
      match s with
      | [] => match_here r' []
      | _ :: _ => false
      end
  end.

(** [/^r/.test(s)]. *)
Definition RegExp_test (r : list atom) (s : jstr) : bool := match_here r s.

(** [s.replace(/[class]/g, '')]. *)
Definition remove_all (class : N -> bool) (s : jstr) : jstr :=
  filter (fun c => negb (class c)) s.

(** [s.replace(/[class]+/g, r)]: every maximal run of the class becomes
    [r]; [in_run] says that the code unit before belongs to a run that is
    replaced already. *)
Fixpoint replace_runs (class : N -> bool) (r : jstr) (in_run : bool) (s : jstr) : jstr :=
  match s with
  | [] => []
  | c :: rest =>
      if class c
      then (if in_run then [] else r) ++ replace_runs class r true rest
      else c :: replace_runs class r false rest
  end.

(** [typeof v === 'string']. *)
Definition typeof_string (v : value) : bool :=
  match v with
  | VStr _ => true
  | _ => false
  end.

(** The code units of a value that is a string. *)
Definition string_of (v : value) : jstr :=
  match v with
  | VStr s => s
  | _ => []
  end.

(** ** Error objects

    The classes of [src/types.ts] and [src/lib/errors.ts]. Each extends
    [Error] directly, sets [name] in its constructor and adds one public
    property. *)

Module Err.

Inductive class : Type :=
| Error
| DatabaseError
| AuthenticationError
| ValidationError
| NetworkError
| CameraError
| ScanError
| RateLimitError.

Definition class_eqb (a b : class) : bool :=
  match a, b with
  | Error, Error | DatabaseError, DatabaseError
  | AuthenticationError, AuthenticationError | ValidationError, ValidationError
  | NetworkError, NetworkError | CameraError, CameraError
  | ScanError, ScanError | RateLimitError, RateLimitError => true
  | _, _ => false
  end.

(** An instance of [Error]: [class_of] is the class of this repository it
    was built by ([Error] for an error of the engine or of a library),
    [detail] the public property of that class ([cause], [field],
    [statusCode], [code], [scanType] or [retryAfter]), [undefined] when
    the constructor was not given one. *)
Record object : Type := {
  class_of : class;
  name : jstr;
  message : jstr;
  detail : value
}.

(** What a [throw] statement throws: an error object or any other value. *)
Inductive thrown : Type :=
| Instance (e : object)
| Other (v : value).

(** [new DatabaseError(message, cause)]. *)
Definition new_DatabaseError (message : jstr) (cause : value) : object :=
  {| class_of := DatabaseError; name := lit "DatabaseError";
     message := message; detail := cause |}.

(** [new AuthenticationError(message)]; the message defaults to
    'Authentication required'. *)
Definition new_AuthenticationError (message : option jstr) : object :=
  {| class_of := AuthenticationError; name := lit "AuthenticationError";
     message := match message with Some m => m | None => lit "Authentication required" end;
     detail := VUndefined |}.

(** [new ValidationError(message, field)]. *)
Definition new_ValidationError (message : jstr) (field : value) : object :=
  {| class_of := ValidationError; name := lit "ValidationError";
     message := message; detail := field |}.

(** [new NetworkError(message, statusCode)]. *)
Definition new_NetworkError (message : option jstr) (statusCode : value) : object :=
  {| class_of := NetworkError; name := lit "NetworkError";
     message := match message with Some m => m | None => lit "Network request failed" end;
     detail := statusCode |}.

(** [new CameraError(message, code)]. *)
Definition new_CameraError (message : option jstr) (code : value) : object :=
  {| class_of := CameraError; name := lit "CameraError";
     message := match message with Some m => m | None => lit "Camera access failed" end;
     detail := code |}.

(** [new ScanError(message, scanType)]. *)
Definition new_ScanError (message : option jstr) (scanType : value) : object :=
  {| class_of := ScanError; name := lit "ScanError";
     message := match message with Some m => m | None => lit "Scan processing failed" end;
     detail := scanType |}.

(** [new RateLimitError(message, retryAfter)]. *)
Definition new_RateLimitError (message : option jstr) (retryAfter : value) : object :=
  {| class_of := RateLimitError; name := lit "RateLimitError";
     message := match message with Some m => m | None => lit "Rate limit exceeded" end;
     detail := retryAfter |}.

(** [e instanceof C]. *)
Definition instanceof (t : thrown) (c : class) : bool :=
  match t with
  | Instance e =>
      match c with
      | Error => true
      | _ => class_eqb (class_of e) c
      end
  | Other _ => false
  end.

End Err.

(** How a call completes when anything may be thrown. *)
Inductive completion (A : Type) : Type :=
| Normal (a : A)
| Abrupt (t : Err.thrown).
Arguments Normal {A} a.
Arguments Abrupt {A} t.

Definition and_then {A B : Type} (m : completion A) (k : A -> completion B)
  : completion B :=
  match m with
  | Normal a => k a
  | Abrupt t => Abrupt t
  end.

Notation "x <-- m ;; k" := (and_then m (fun x => k))
  (at level 61, m at next level, right associativity).

(** ** src/lib/validation.ts *)

Module Validation.

(** [throw new ValidationError(message, field)]. *)
Definition invalid {A : Type} (message : jstr) (field : value) : completion A :=
  Abrupt (Err.Instance (Err.new_ValidationError message field)).

(** [[^\s@]]. *)
Definition not_space_or_at (c : N) : bool := negb (is_space c || (c =? ch "@")%N).

(** [/^[^\s@]+@[^\s@]+\.[^\s@]+$/]. *)
Definition emailRegex : list atom :=
  [Many not_space_or_at; One (N.eqb (ch "@")); Many not_space_or_at;
   One (N.eqb (ch ".")); Many not_space_or_at; End_of_input].

(** [/^\d+$/]. *)
Definition digitsRegex : list atom := [Many is_digit; End_of_input].

(** [[\x00-\x1F\x7F]]. *)
Definition is_control (c : N) : bool := ((c <=? 31) || (c =? 127))%N.

Section Validation.
Context (host : Host).

Definition isValidEmail (email : value) : bool :=
  if negb (truthy host email) || negb (typeof_string email) then false
  else
    let trimmedEmail := trim (string_of email) in
    if includes (lit "..") trimmedEmail then false
    else RegExp_test emailRegex trimmedEmail.

Definition validateScanContent (content : value) : completion unit :=
  if negb (truthy host content) || negb (typeof_string content)
  then invalid (lit "Scan content is required") (VStr (lit "content"))
  else
    let trimmedContent := trim (string_of content) in
    if String_length trimmedContent =? 0
    then invalid (lit "Scan content cannot be empty") (VStr (lit "content"))
    else if 10000 <? String_length trimmedContent
    then invalid (lit "Scan content is too long (max 10,000 characters)")
           (VStr (lit "content"))
    else Normal tt.

Definition validateScanType (scanType : value) : bool :=
  match scanType with
  | VStr s => jstr_eqb s (lit "qr") || jstr_eqb s (lit "barcode")
  | _ => false
  end.

Definition validateScanFormat (format : value) : completion unit :=
  match format with
  | VNull | VUndefined => Normal tt
  | _ =>
      if negb (typeof_string format)
      then invalid (lit "Scan format must be a string") (VStr (lit "format"))
      else if String_length (trim (string_of format)) =? 0
      then invalid (lit "Scan format cannot be empty") (VStr (lit "format"))
      else if 100 <? String_length (string_of format)
      then invalid (lit "Scan format is too long (max 100 characters)")
             (VStr (lit "format"))
      else Normal tt
  end.

(** [v?.trim()] on a value that is a string, [null] or [undefined]. *)
Definition optional_trim (v : value) : value :=
  match v with
  | VStr s => VStr (trim s)
  | _ => VUndefined
  end.

(** The request is any value; the three validators have run before
    [content] and [format] are trimmed, so both are strings there (or
    [format] is absent). *)
Definition validateScanCreateRequest (request : value) : completion value :=
  if negb (truthy host request) || negb (typeof_object request)
  then invalid (lit "Invalid request format") VUndefined
  else
    _ <-- validateScanContent (prop request (lit "content")) ;;
    if negb (validateScanType (prop request (lit "scanType")))
    then invalid (dq "Invalid scan type. Must be 'qr' or 'barcode'") (VStr (lit "scanType"))
    else
      _ <-- validateScanFormat (prop request (lit "format")) ;;
      Normal (VObj [(lit "content", VStr (trim (string_of (prop request (lit "content")))));
                    (lit "scanType", prop request (lit "scanType"));
                    (lit "format",
                     Google.or_else host (optional_trim (prop request (lit "format")))
                       VUndefined)]).

Definition validateGoogleId (googleId : value) : completion unit :=
  if negb (truthy host googleId) || negb (typeof_string googleId)
  then invalid (lit "Google ID is required") (VStr (lit "googleId"))
  else
    let trimmedId := trim (string_of googleId) in
    if String_length trimmedId =? 0
    then invalid (lit "Google ID cannot be empty") (VStr (lit "googleId"))
    else if negb (RegExp_test digitsRegex trimmedId)
    then invalid (lit "Invalid Google ID format") (VStr (lit "googleId"))
    else Normal tt.

(** [validateDateString(dateString, fieldName)]. *)
Definition validateDateString (dateString : value) (fieldName : jstr) : completion unit :=
  if negb (truthy host dateString) || negb (typeof_string dateString)
  then invalid (fieldName ++ lit " must be a valid date string") (VStr fieldName)
  else
    match Date_parse host (string_of dateString) with
    | NaN => invalid (fieldName ++ lit " must be a valid ISO date string") (VStr fieldName)
    | Int _ => Normal tt
    end.

Definition sanitizeString (input : value) : jstr :=
  if negb (typeof_string input) then []
  else
    replace_runs is_space (lit " ") false
      (remove_all is_control (trim (string_of input))).

Definition validateSearchQuery (query : value) : completion jstr :=
  if negb (truthy host query) || negb (typeof_string query)
  then invalid (lit "Search query is required") (VStr (lit "query"))
  else
    let sanitized := sanitizeString query in
    if String_length sanitized =? 0
    then invalid (lit "Search query cannot be empty") (VStr (lit "query"))
    else if 500 <? String_length sanitized
    then invalid (lit "Search query is too long (max 500 characters)") (VStr (lit "query"))
    else Normal sanitized.

End Validation.

(** A Number as [validatePaginationParams] tells them apart: an integer,
    or a Number of which [Number.isInteger] is false (a fraction, an
    infinity, NaN). *)
Inductive number : Type :=
| Integer (n : Z)
| NotInteger.

(** [{ limit?: number; offset?: number }]; [None] is [undefined]. *)
Record PaginationParams : Type := {
  limit : option number;
  offset : option number
}.

(** [a ?? b]. *)
Definition nullish_or {A : Type} (a : option A) (b : A) : A :=
  match a with
  | Some x => x
  | None => b
  end.

Definition validatePaginationParams (params : PaginationParams)
  : completion (number * number) :=
  let limit := nullish_or (limit params) (Integer 20) in
  let offset := nullish_or (offset params) (Integer 0) in
  if match limit with
     | Integer n => (n <? 1) || (100 <? n)
     | NotInteger => true
     end
  then invalid (lit "Limit must be an integer between 1 and 100") (VStr (lit "limit"))
  else if match offset with
          | Integer n => n <? 0
          | NotInteger => true
          end
  then invalid (lit "Offset must be a non-negative integer") (VStr (lit "offset"))
  else Normal (limit, offset).

End Validation.

(** The Number an integer constant of the source is. *)
Definition number (z : Z) : value := VNum (Decimal (z <? 0) (Z.abs_N z) 0).

(** The error object an exception of the session model stands for. The
    text of a message the engine writes is the engine's, [native_message]. *)
Definition thrown_of_exn (native_message : exn -> jstr) (e : exn) : Err.thrown :=
  Err.Instance
    match e with
    | SyntaxError =>
        {| Err.class_of := Err.Error; Err.name := lit "SyntaxError";
           Err.message := native_message e; Err.detail := VUndefined |}
    | TypeError =>
        {| Err.class_of := Err.Error; Err.name := lit "TypeError";
           Err.message := native_message e; Err.detail := VUndefined |}
    | RangeError =>
        {| Err.class_of := Err.Error; Err.name := lit "RangeError";
           Err.message := native_message e; Err.detail := VUndefined |}
    | AuthenticationError message => Err.new_AuthenticationError (Some message)
    | ValidationError message => Err.new_ValidationError message VUndefined
    | HostError message =>
        {| Err.class_of := Err.Error; Err.name := lit "Error";
           Err.message := message; Err.detail := VUndefined |}
    end.

(** ** src/lib/errors.ts *)

Module Errors.

Inductive ErrorSeverity : Type :=
| LOW
| MEDIUM
| HIGH
| CRITICAL.

Record ErrorInfo : Type := {
  name : jstr;
  message : jstr;
  severity : ErrorSeverity;
  code : value;
  field : value;
  statusCode : value;
  timestamp : jstr;
  userMessage : jstr
}.

Definition ERROR_USER_MESSAGES : list (jstr * jstr) :=
  [(lit "DatabaseError", lit "We're having trouble accessing your data. Please try again.");
   (lit "AuthenticationError", lit "Please log in to continue.");
   (lit "ValidationError", lit "Please check your input and try again.");
   (lit "NetworkError", lit "Connection failed. Please check your internet and try again.");
   (lit "CameraError",
    lit "Camera access is required for scanning. Please allow camera permissions.");
   (lit "ScanError", lit "Unable to scan the code. Please try again with better lighting.");
   (lit "RateLimitError", lit "Too many requests. Please wait a moment and try again.")].

Definition ERROR_SEVERITIES : list (jstr * ErrorSeverity) :=
  [(lit "DatabaseError", HIGH);
   (lit "AuthenticationError", MEDIUM);
   (lit "ValidationError", LOW);
   (lit "NetworkError", MEDIUM);
   (lit "CameraError", MEDIUM);
   (lit "ScanError", LOW);
   (lit "RateLimitError", MEDIUM)].

(** [table[key]] for a key that is no property every object inherits
    ([constructor], [toString] and the like). *)
Fixpoint table_get {A : Type} (key : jstr) (table : list (jstr * A)) : option A :=
  match table with
  | [] => None
  | (k, a) :: rest => if jstr_eqb key k then Some a else table_get key rest
  end.

(** [errorInfo.field = v]. *)
Definition set_field (errorInfo : ErrorInfo) (v : value) : ErrorInfo :=
  {| name := name errorInfo; message := message errorInfo;
     severity := severity errorInfo; code := code errorInfo;
     field := v; statusCode := statusCode errorInfo;
     timestamp := timestamp errorInfo; userMessage := userMessage errorInfo |}.

(** [errorInfo.statusCode = v]. *)
Definition set_statusCode (errorInfo : ErrorInfo) (v : value) : ErrorInfo :=
  {| name := name errorInfo; message := message errorInfo;
     severity := severity errorInfo; code := code errorInfo;
     field := field errorInfo; statusCode := v;
     timestamp := timestamp errorInfo; userMessage := userMessage errorInfo |}.

(** [errorInfo.code = v]. *)
Definition set_code (errorInfo : ErrorInfo) (v : value) : ErrorInfo :=
  {| name := name errorInfo; message := message errorInfo;
     severity := severity errorInfo; code := v;
     field := field errorInfo; statusCode := statusCode errorInfo;
     timestamp := timestamp errorInfo; userMessage := userMessage errorInfo |}.

(** What one line of [logError] prints after 'Error logged:': the error
    information, the context, and the stack of the error logged, which
    the engine made when the error was. *)
Record LogData : Type := {
  info : ErrorInfo;
  context : value;
  stack_of : Err.thrown
}.

(** What a run leaves behind: how often the function under retry was
    called, the lines on the console, and the delays waited for. *)
Record Trace : Type := {
  calls : nat;
  printed : list LogData;
  slept : list Z
}.

(** What [safeExecute] returns: [{ result }] or [{ error }]. *)
Inductive Safe (A : Type) : Type :=
| Result (result : A)
| Failure (error : ErrorInfo).
Arguments Result {A} result.
Arguments Failure {A} error.

Definition isRetryableError (error : Err.thrown) : bool :=
  if Err.instanceof error Err.NetworkError then true
  else if Err.instanceof error Err.DatabaseError then true
  else if Err.instanceof error Err.ScanError then true
  else false.

(** [getRetryDelay(attempt, baseDelay)] for a whole number [attempt] from
    1 on and a whole number [baseDelay] of milliseconds that is not
    negative: the power of two and the product are exact then, or too
    large for a binary64, which the minimum caps just the same. *)
Definition getRetryDelay (attempt baseDelay : Z) : Z :=
  let maxDelay := 30000 in
  let delay := baseDelay * 2 ^ (attempt - 1) in
  Z.min delay maxDelay.

Section Errors.
Context (host : Host).
(** The clock, [new Date()]. *)
Context (now : Z).
Context (native_message : exn -> jstr).
(** [(typeof import.meta !== 'undefined' && import.meta.env?.DEV) ||
    process.env.NODE_ENV === 'development'], as a condition. *)
Context (development : bool).

(** A built-in that throws, called from this module. *)
Definition native {A : Type} (m : outcome A) : completion A :=
  match m with
  | Return a => Normal a
  | Throw e => Abrupt (thrown_of_exn native_message e)
  end.

Definition createErrorInfo (error : Err.thrown) : completion ErrorInfo :=
  timestamp <-- native (Date_toISOString now) ;;
  match error with
  | Err.Instance e =>
      let severity :=
        match table_get (Err.name e) ERROR_SEVERITIES with
        | Some s => s
        | None => MEDIUM
        end in
      let userMessage :=
        match table_get (Err.name e) ERROR_USER_MESSAGES with
        | Some m => m
        | None => lit "An unexpected error occurred. Please try again."
        end in
      let errorInfo :=
        {| name := Err.name e; message := Err.message e; severity := severity;
           code := VUndefined; field := VUndefined; statusCode := VUndefined;
           timestamp := timestamp; userMessage := userMessage |} in
      let errorInfo :=
        if Err.instanceof error Err.ValidationError && truthy host (Err.detail e)
        then set_field errorInfo (Err.detail e) else errorInfo in
      let errorInfo :=
        if Err.instanceof error Err.NetworkError && truthy host (Err.detail e)
        then set_statusCode errorInfo (Err.detail e) else errorInfo in
      let errorInfo :=
        if Err.instanceof error Err.CameraError && truthy host (Err.detail e)
        then set_code errorInfo (Err.detail e) else errorInfo in
      let errorInfo :=
        if Err.instanceof error Err.RateLimitError && truthy host (Err.detail e)
        then set_statusCode errorInfo (number 429) else errorInfo in
      Normal errorInfo
  | Err.Other v =>
      message <-- native (ToString host v) ;;
      Normal {| name := lit "UnknownError"; message := message; severity := MEDIUM;
                code := VUndefined; field := VUndefined; statusCode := VUndefined;
                timestamp := timestamp;
                userMessage := lit "An unexpected error occurred. Please try again." |}
  end.

(** [logError(error, context, isDev)]; [None] for [isDev] is [undefined]. *)
Definition logError (error : Err.thrown) (context : value) (isDev : option bool)
  (w : Trace) : completion unit * Trace :=
  match createErrorInfo error with
  | Abrupt t => (Abrupt t, w)
  | Normal errorInfo =>
      let logData := {| info := errorInfo; context := context; stack_of := error |} in
      let shouldLog :=
        match isDev with
        | Some b => b
        | None => development
        end in
      (Normal tt,
       if shouldLog
       then {| calls := calls w; printed := printed w ++ [logData]; slept := slept w |}
       else w)
  end.

(** [createApiErrorResponse(error, statusCode)]. *)
Definition createApiErrorResponse (error : Err.thrown) (statusCode : value)
  : completion value :=
  errorInfo <-- createErrorInfo error ;;
  Normal (VObj [(lit "error", VStr (userMessage errorInfo));
                (lit "message", VStr (message errorInfo));
                (lit "code", code errorInfo);
                (lit "field", field errorInfo);
                (lit "timestamp", VStr (timestamp errorInfo));
                (lit "statusCode",
                 Google.or_else host statusCode
                   (Google.or_else host (Errors.statusCode errorInfo) (number 500)))]).

(** [safeExecute(fn)]; [fn] is what the call [fn()] does. *)
Definition safeExecute {A : Type} (fn : completion A) : completion (Safe A) :=
  match fn with
  | Normal result => Normal (Result result)
  | Abrupt error =>
      info <-- createErrorInfo error ;;
      Normal (Failure info)
  end.

Section Retry.
Context {A : Type}.
(** What the n-th call of the function under retry settles to. *)
Context (fn : nat -> completion A).
Context (maxAttempts baseDelay : Z).
(** [context], an object or [undefined]. *)
Context (context : option (list (jstr * value))).
Context (isDev : option bool).

(** [{ ...context, attempt, maxAttempts }]. *)
Definition attempt_context (attempt : Z) : list (jstr * value) :=
  obj_set
    (obj_set match context with Some fields => fields | None => [] end
       (lit "attempt") (number attempt))
    (lit "maxAttempts") (number maxAttempts).

(** [await new Promise(resolve => setTimeout(resolve, delay))]. *)
Definition sleep (delay : Z) (w : Trace) : Trace :=
  {| calls := calls w; printed := printed w; slept := slept w ++ [delay] |}.

(** [await fn()]. *)
Definition call (w : Trace) : completion A * Trace :=
  (fn (calls w), {| calls := S (calls w); printed := printed w; slept := slept w |}).

(** The loop of [retryWithBackoff] from [attempt] on, [remaining]
    iterations before [attempt] passes [maxAttempts]. *)
Fixpoint retry_from (remaining : nat) (attempt : Z) (lastError : Err.thrown) (w : Trace)
  : completion A * Trace :=
  match remaining with
  | O => (Abrupt lastError, w)
  | S remaining' =>
      match call w with
      | (Normal a, w) => (Normal a, w)
      | (Abrupt error, w) =>
          let lastError := error in
          if (attempt =? maxAttempts) || negb (isRetryableError error) then
            match logError error (VObj (attempt_context attempt)) isDev w with
            | (Normal _, w) => (Abrupt error, w)
            | (Abrupt t, w) => (Abrupt t, w)
            end
          else
            let delay := getRetryDelay attempt baseDelay in
            match logError error
                    (VObj (obj_set (attempt_context attempt) (lit "retryDelay")
                             (number delay)))
                    isDev w with
            | (Normal _, w) => retry_from remaining' (attempt + 1) lastError (sleep delay w)
            | (Abrupt t, w) => (Abrupt t, w)
            end
      end
  end.

(** [retryWithBackoff(fn, maxAttempts, baseDelay, context, isDev)] for a
    whole number [maxAttempts]; [lastError] starts [undefined]. *)
Definition retryWithBackoff (w : Trace) : completion A * Trace :=
  retry_from (Z.to_nat maxAttempts) 1 (Err.Other VUndefined) w.

End Retry.

End Errors.

End Errors.

(** ** src/pages/api/auth/google.ts, the start of the flow *)

Module GoogleStart.

(** [new Response(body, { status, headers })]. *)
Record Answer : Type := {
  status : Z;
  answer_headers : list (jstr * jstr);
  body : jstr
}.

Section Start.
Context (host : Host).
(** [oauth2Client.generateAuthUrl({ access_type: 'offline', scope: [...],
    include_granted_scopes: true })]. *)
Context (generateAuthUrl : outcome jstr).
Context (redirect : Redirect).

(** The handler answers with what [redirect] returns or with a response
    of its own. [JSON.stringify] of an object is a string. *)
Definition GET : io (Response + Answer) :=
  try_catch_io
    (authUrl <~ lift generateAuthUrl ;;
     response <~ call_redirect redirect authUrl ;;
     ret (inl response))
    (fun error =>
       console_error (lit "Error generating OAuth URL:") (LogError error) ;;;
       ret (inr {| status := 500;
                   answer_headers := [(lit "Content-Type", lit "application/json")];
                   body :=
                     match JSON_stringify host
                             (VObj [(lit "error",
                                     VStr (lit "Failed to initiate authentication"));
                                    (lit "message",
                                     VStr (lit "Unable to connect to Google OAuth service"))])
                     with
                     | Some text => text
                     | None => []
                     end |})).

End Start.
End GoogleStart.

(** ** src/db/supabase.ts *)

Module Supabase.

(** What [supabase.auth.getUser()] resolves to. *)
Record UserResponse : Type := {
  data : value;
  error : value
}.

Section Supabase.
Context (host : Host).
(** [supabase.auth.getUser()]; a rejected promise is a [Throw]. *)
Context (auth_getUser : outcome UserResponse).

(** [const { data: { user }, error } = await supabase.auth.getUser()]
    reads [data.user] first. *)
Definition getCurrentUser : outcome value :=
  response <- auth_getUser ;;
  user <- Get (data response) (lit "user") ;;
  let error := error response in
  if truthy host error then
    message <- Get error (lit "message") ;;
    text <- ToString host message ;;
    Throw (HostError (lit "Failed to get current user: " ++ text))
  else Return user.

Definition isAuthenticated : outcome bool :=
  try_catch
    (user <- getCurrentUser ;;
     Return (truthy host user))
    (fun _ => Return false).

End Supabase.
End Supabase.

(** ** Vocabulary of the further statements *)

(** [s !== '']. *)
Definition nonempty (s : jstr) : bool := negb (jstr_eqb s []).

(** The pages the callback redirects a failed login to. *)
Definition error_targets : list jstr :=
  [lit "/?error=oauth_denied"; lit "/?error=invalid_request";
   lit "/?error=auth_failed"; lit "/?error=server_error"].

(** The page the [catch] block of the callback picks for an exception. *)
Definition error_page (e : exn) : jstr :=
  match e with
  | ValidationError _ => lit "/?error=invalid_request"
  | AuthenticationError _ => lit "/?error=auth_failed"
  | _ => lit "/?error=server_error"
  end.

(** The world after some lines on the console and one call of [redirect]. *)
Definition logged_and_redirected (w : World) (lines : list (jstr * logged)) : World :=
  {| cookies := cookies w; deleted := deleted w; locals := locals w;
     console := console w ++ lines; redirect_calls := S (redirect_calls w) |}.

(** ** Inputs to run the further statements on *)

Module Sample.

(** The text of an error of the engine. *)
Definition native_message (e : exn) : jstr :=
  match e with
  | TypeError => lit "Cannot convert object to primitive value"
  | RangeError => lit "Invalid time value"
  | _ => lit "Unexpected token"
  end.

Definition emptyTrace : Errors.Trace :=
  {| Errors.calls := 0; Errors.printed := []; Errors.slept := [] |}.

(** A call that fails twice on the network and then answers. *)
Definition flaky (n : nat) : completion Z :=
  match n with
  | O | S O => Abrupt (Err.Instance (Err.new_NetworkError None (number 503)))
  | _ => Normal 7
  end.

(** A scan as a client posts it. *)
Definition scanRequest : value :=
  VObj [(lit "content", VStr (lit "  https://example.com/item/42 "));
        (lit "scanType", VStr (lit "qr"));
        (lit "format", VStr (lit " QR_CODE "))].

(** The same scan, validated. *)
Definition scanCreateRequest : value :=
  VObj [(lit "content", VStr (lit "https://example.com/item/42"));
        (lit "scanType", VStr (lit "qr"));
        (lit "format", VStr (lit "QR_CODE"))].

(** A scan with blank content and an unknown type. *)
Definition blankScanRequest : value :=
  VObj [(lit "content", VStr (lit "   "));
        (lit "scanType", VStr (lit "nfc"))].

(** The collaborators of the callback test, with a profile that lacks
    its email. *)
Definition collaboratorsWithoutEmail : Google.Collaborators :=
  {| Google.getToken := fun _ => Return Fixture.mockTokens;
     Google.userinfo_get := fun _ =>
       Return {| Google.id := VStr (lit "google-123");
                 Google.email := VNull;
                 Google.name := VStr (lit "Test User");
                 Google.picture := VNull |};
     Google.createClient := Return tt;
     Google.select_user := fun _ =>
       Return {| Google.data := VNull; Google.error := VNull |};
     Google.update_user := fun _ _ =>
       Return {| Google.data := VNull; Google.error := VNull |};
     Google.insert_user := fun _ =>
       Return {| Google.data := VNull; Google.error := VNull |};
     Google.redirect := Fixture.mockRedirect;
     Google.NODE_ENV := VStr (lit "test") |}.

End Sample.

(** * Properties of the built-ins *)

(** ** The calendar *)

Lemma yoe_bounds doe :
  0 <= doe < 146097 ->
  let yoe := (doe - doe / 1460 + doe / 36524 - doe / 146096) / 365 in
  let doy := doe - (365 * yoe + yoe / 4 - yoe / 100) in
  0 <= yoe <= 399 /\ 0 <= doy <= 365.
Proof.
  intros H. cbv zeta.
  Z.to_euclidean_division_equations; lia.
Qed.

Lemma civil_fields n :
  let '(y, m, d) := civil_from_days n in
  1 <= m <= 12 /\ 1 <= d <= 31 /\
  (n + 719468) / 146097 * 400 <= y <= (n + 719468) / 146097 * 400 + 400.
Proof.
  unfold civil_from_days. cbv beta iota zeta.
  pose proof (Z.mod_pos_bound (n + 719468) 146097 ltac:(lia)) as Hdoe.
  pose proof (yoe_bounds _ Hdoe) as Hy. cbv zeta in Hy.
  set (doe := (n + 719468) mod 146097) in *.
  set (yoe := (doe - doe / 1460 + doe / 36524 - doe / 146096) / 365) in *.
  set (doy := doe - (365 * yoe + yoe / 4 - yoe / 100)) in *.
  destruct Hy as [Hyoe Hdoy].
  clearbody doy yoe.
  assert (0 <= (5 * doy + 2) / 153 <= 11) by (Z.to_euclidean_division_equations; lia).
  set (mp := (5 * doy + 2) / 153) in *.
  assert (Hd : 1 <= doy - (153 * mp + 2) / 5 + 1 <= 31).
  { subst mp. Z.to_euclidean_division_equations; lia. }
  clearbody mp.
  repeat split; destruct (mp <? 10) eqn:E1; try destruct (_ <=? 2) eqn:E2; try lia.
Qed.

Lemma days_civil_inverse n :
  let '(y, m, d) := civil_from_days n in days_from_civil y m d = n.
Proof.
  unfold civil_from_days, days_from_civil. cbv zeta.
  pose proof (Z.mod_pos_bound (n + 719468) 146097 ltac:(lia)) as Hdoe.
  pose proof (yoe_bounds _ Hdoe) as Hy. cbv zeta in Hy.
  pose proof (Z.div_mod (n + 719468) 146097 ltac:(lia)) as Hn.
  set (era := (n + 719468) / 146097) in *.
  set (doe := (n + 719468) mod 146097) in *.
  set (yoe := (doe - doe / 1460 + doe / 36524 - doe / 146096) / 365) in *.
  set (doy := doe - (365 * yoe + yoe / 4 - yoe / 100)) in *.
  destruct Hy as [Hyoe Hdoy].
  assert (Hmp : 0 <= (5 * doy + 2) / 153 <= 11) by (clearbody doy; Z.to_euclidean_division_equations; lia).
  set (mp := (5 * doy + 2) / 153) in *.
  set (m := if mp <? 10 then mp + 3 else mp - 9).
  assert (Hm : (if 2 <? m then m - 3 else m + 9) = mp).
  { subst m. destruct (mp <? 10) eqn:E1; destruct (2 <? _) eqn:E2; lia. }
  rewrite Hm.
  assert (Hy' : (if m <=? 2 then yoe + era * 400 + (if m <=? 2 then 1 else 0) - 1
                 else yoe + era * 400 + (if m <=? 2 then 1 else 0)) = yoe + era * 400).
  { destruct (m <=? 2); lia. }
  rewrite Hy'.
  assert (E1 : (yoe + era * 400) / 400 = era).
  { rewrite Z.div_add by lia. rewrite Z.div_small; lia. }
  assert (E2 : (yoe + era * 400) mod 400 = yoe).
  { rewrite Z.mod_add by lia. apply Z.mod_small; lia. }
  rewrite E1, E2. subst doy. lia.
Qed.

Lemma is_digit_char k : 0 <= k <= 9 -> is_digit (Z.to_N (48 + k)) = true.
Proof.
  intros H. unfold is_digit. apply andb_true_intro; split; apply N.leb_le; lia.
Qed.

Lemma read_digits_app w k acc s :
  read_digits (w + k) acc s =
  match read_digits w acc s with
  | Some (a, r) => read_digits k a r
  | None => None
  end.
Proof.
  revert acc s. induction w as [|w IH]; intros acc s; [reflexivity|].
  cbn [Nat.add read_digits]. destruct s as [|c r]; [reflexivity|].
  destruct (is_digit c); [apply IH | reflexivity].
Qed.

Lemma read_digits_pad w : forall n acc rest,
  0 <= n < 10 ^ Z.of_nat w ->
  read_digits w acc (pad_digits w n ++ rest) = Some (acc * 10 ^ Z.of_nat w + n, rest).
Proof.
  induction w as [|w IH]; intros n acc rest H.
  - cbn. f_equal. f_equal. change (10 ^ Z.of_nat 0) with 1 in H. lia.
  - replace (S w) with (w + 1)%nat at 1 by lia.
    rewrite read_digits_app. cbn [pad_digits]. rewrite <- app_assoc.
    rewrite Nat2Z.inj_succ, Z.pow_succ_r in * by lia.
    rewrite IH by (Z.to_euclidean_division_equations; lia).
    cbn [app read_digits].
    rewrite is_digit_char by (Z.to_euclidean_division_equations; lia).
    f_equal. f_equal. rewrite Z2N.id by (Z.to_euclidean_division_equations; lia).
    Z.to_euclidean_division_equations; lia.
Qed.

Lemma pad_digits_head w n rest :
  exists c tail, pad_digits (S w) n ++ rest = c :: tail /\ is_digit c = true.
Proof.
  revert n rest. induction w as [|w IH]; intros n rest.
  - cbn. eexists _, _. split; [reflexivity|].
    apply is_digit_char. Z.to_euclidean_division_equations; lia.
  - cbn [pad_digits]. rewrite <- app_assoc.
    destruct (IH (n / 10) ([Z.to_N (48 + n mod 10)] ++ rest)) as (c & tail & E & Hc).
    cbn [pad_digits] in E. rewrite E. eauto.
Qed.

Lemma read_year_string y rest :
  -1000000 < y < 1000000 ->
  read_year (year_string y ++ rest) = Some (y, rest).
Proof.
  intros H. unfold year_string.
  destruct ((0 <=? y) && (y <=? 9999)) eqn:E.
  - apply andb_prop in E. destruct E as [E1 E2].
    apply Z.leb_le in E1. apply Z.leb_le in E2.
    pose proof (read_digits_pad 4 y 0 rest) as R.
    destruct (pad_digits_head 3 y rest) as (c & tail & E & Hc).
    unfold read_year. rewrite E in *.
    assert ((c =? ch "+")%N = false /\ (c =? ch "-")%N = false) as [-> ->].
    { unfold is_digit in Hc. apply andb_prop in Hc. destruct Hc as [A B].
      apply N.leb_le in A. apply N.leb_le in B.
      split; apply N.eqb_neq; cbn; lia. }
    rewrite R by (cbn; lia). f_equal.
  - destruct (y <? 0) eqn:Eneg.
    + apply Z.ltb_lt in Eneg. cbn [lit list_ascii_of_string map app].
      unfold read_year. change (N_of_ascii "-" =? ch "+")%N with false.
      change (N_of_ascii "-" =? ch "-")%N with true. cbv iota.
      rewrite read_digits_pad by (cbn; lia).
      replace (0 * 10 ^ Z.of_nat 6 + Z.abs y =? 0) with false by (symmetry; apply Z.eqb_neq; lia).
      f_equal. f_equal. lia.
    + apply Z.ltb_ge in Eneg. cbn [lit list_ascii_of_string map app].
      unfold read_year. change (N_of_ascii "+" =? ch "+")%N with true. cbv iota.
      rewrite read_digits_pad by (cbn; lia). f_equal. f_equal. lia.
Qed.

Lemma expect_lit c rest : expect (ch c) (lit (String c EmptyString) ++ rest) = Some rest.
Proof. cbn. unfold ch. now rewrite N.eqb_refl. Qed.

Lemma iso_parse_iso_string t :
  Z.abs t <= maxTime -> iso_parse (iso_string t) = Some t.
Proof.
  intros Ht. unfold maxTime in Ht. unfold iso_string, iso_parse.
  pose proof (civil_fields (t / msPerDay)) as F.
  pose proof (days_civil_inverse (t / msPerDay)) as I.
  destruct (civil_from_days (t / msPerDay)) as [[y m] d] eqn:Ec.
  destruct F as (Hm & Hd & Hy).
  pose proof (Z.mod_pos_bound t msPerDay ltac:(reflexivity)) as Hms.
  pose proof (Z.div_mod t msPerDay ltac:(discriminate)) as Ediv.
  set (ms := t mod msPerDay) in *. set (day := t / msPerDay) in *.
  unfold msPerDay in *.
  rewrite read_year_string by (clear - Hy Ediv Hms Ht; Z.to_euclidean_division_equations; lia).
  cbv beta iota. rewrite (expect_lit "-").
  rewrite read_digits_pad by (cbn; lia). cbv beta iota. rewrite (expect_lit "-").
  rewrite read_digits_pad by (cbn; lia). cbv beta iota. rewrite (expect_lit "T").
  rewrite read_digits_pad by (cbn; clear - Hms; Z.to_euclidean_division_equations; lia).
  cbv beta iota. rewrite (expect_lit ":").
  rewrite read_digits_pad by (cbn; clear - Hms; Z.to_euclidean_division_equations; lia).
  cbv beta iota. rewrite (expect_lit ":").
  rewrite read_digits_pad by (cbn; clear - Hms; Z.to_euclidean_division_equations; lia).
  cbv beta iota. rewrite (expect_lit ".").
  rewrite read_digits_pad by (cbn; clear - Hms; Z.to_euclidean_division_equations; lia).
  cbv beta iota. rewrite <- (app_nil_r (lit "Z")). rewrite (expect_lit "Z").
  cbv beta iota. rewrite !Z.mul_0_l, !Z.add_0_l.
  rewrite I, Ec. cbv beta iota. rewrite !Z.eqb_refl.
  replace (ms / 3600000 <=? 23) with true
    by (symmetry; apply Z.leb_le; clear - Hms; Z.to_euclidean_division_equations; lia).
  replace (ms / 60000 mod 60 <=? 59) with true
    by (symmetry; apply Z.leb_le; clear - Hms; Z.to_euclidean_division_equations; lia).
  replace (ms / 1000 mod 60 <=? 59) with true
    by (symmetry; apply Z.leb_le; clear - Hms; Z.to_euclidean_division_equations; lia).
  cbn [andb].
  replace (day * 86400000 + ms / 3600000 * 3600000 + ms / 60000 mod 60 * 60000 +
           ms / 1000 mod 60 * 1000 + ms mod 1000) with t
    by (clear - Hms Ediv; Z.to_euclidean_division_equations; lia).
  unfold TimeClip, maxTime.
  replace (Z.abs t <=? 8640000000000000) with true by (symmetry; apply Z.leb_le; lia).
  reflexivity.
Qed.

(** ** String literals *)

Lemma hex_value_digit k : (k < 16)%N -> hex_value (hex_digit k) = Some k.
Proof.
  intros H. unfold hex_value, hex_digit, is_digit.
  destruct (N.ltb_spec k 10).
  - replace ((48 <=? 48 + k) && (48 + k <=? 57))%N with true
      by (symmetry; apply andb_true_intro; split; apply N.leb_le; lia).
    f_equal. lia.
  - replace ((48 <=? 87 + k) && (87 + k <=? 57))%N with false
      by (symmetry; apply andb_false_intro2; apply N.leb_gt; lia).
    replace ((97 <=? 87 + k) && (87 + k <=? 102))%N with true
      by (symmetry; apply andb_true_intro; split; apply N.leb_le; lia).
    f_equal. lia.
Qed.

Lemma parse_unicode_escape u X :
  (u < 65536)%N ->
  parse_string_body (unicode_escape u ++ X) =
  match parse_string_body X with
  | Some (t, r) => Some (u :: t, r)
  | None => None
  end.
Proof.
  intros H. unfold unicode_escape, hex4.
  cbn [lit list_ascii_of_string map app parse_string_body].
  change (N_of_ascii "\" =? 34)%N with false.
  change (N_of_ascii "\" =? 92)%N with true.
  change (N_of_ascii "u" =? 34)%N with false.
  change (N_of_ascii "u" =? 92)%N with false.
  change (N_of_ascii "u" =? 47)%N with false.
  change (N_of_ascii "u" =? ch "b")%N with false.
  change (N_of_ascii "u" =? ch "f")%N with false.
  change (N_of_ascii "u" =? ch "n")%N with false.
  change (N_of_ascii "u" =? ch "r")%N with false.
  change (N_of_ascii "u" =? ch "t")%N with false.
  change (N_of_ascii "u" =? ch "u")%N with true.
  cbv iota.
  rewrite !hex_value_digit by (apply N.mod_lt; discriminate).
  replace (u / 4096 mod 16 * 4096 + u / 256 mod 16 * 256 + u / 16 mod 16 * 16 + u mod 16)%N
    with u; [reflexivity|].
  zify. Z.to_euclidean_division_equations. lia.
Qed.

Lemma parse_quote_unit u X :
  (u < 65536)%N ->
  parse_string_body (quote_unit u ++ X) =
  match parse_string_body X with
  | Some (t, r) => Some (u :: t, r)
  | None => None
  end.
Proof.
  intros H. unfold quote_unit.
  repeat match goal with
  | |- context [ (u =? ?k)%N ] => destruct (N.eqb_spec u k); [subst u; reflexivity|]
  end.
  destruct ((u <? 32)%N || is_high_surrogate u || is_low_surrogate u) eqn:E.
  - now apply parse_unicode_escape.
  - apply orb_false_elim in E. destruct E as [E _].
    apply orb_false_elim in E. destruct E as [E _].
    cbn [app parse_string_body].
    replace (u =? 34)%N with false by (symmetry; now apply N.eqb_neq).
    replace (u =? 92)%N with false by (symmetry; now apply N.eqb_neq).
    rewrite E. reflexivity.
Qed.

Lemma parse_raw_surrogate u X :
  is_high_surrogate u = true \/ is_low_surrogate u = true ->
  parse_string_body (u :: X) =
  match parse_string_body X with
  | Some (t, r) => Some (u :: t, r)
  | None => None
  end.
Proof.
  intros H. cbn [parse_string_body].
  assert (55296 <= u)%N as Hu.
  { unfold is_high_surrogate, is_low_surrogate in H.
    destruct H as [H|H]; apply andb_prop in H; destruct H as [H _];
      apply N.leb_le in H; lia. }
  replace (u =? 34)%N with false by (symmetry; apply N.eqb_neq; lia).
  replace (u =? 92)%N with false by (symmetry; apply N.eqb_neq; lia).
  replace (u <? 32)%N with false by (symmetry; apply N.ltb_ge; lia).
  reflexivity.
Qed.

Lemma parse_quote_body_aux n : forall s rest,
  (List.length s <= n)%nat ->
  wf_string s = true ->
  parse_string_body (quote_body s ++ 34%N :: rest) = Some (s, rest).
Proof.
  induction n as [|n IH]; intros s rest Hlen Hwf.
  - destruct s; [reflexivity | cbn in Hlen; lia].
  - destruct s as [|u s]; [reflexivity|].
    cbn [wf_string forallb] in Hwf. apply andb_prop in Hwf. destruct Hwf as [Hu Hs].
    apply N.ltb_lt in Hu. cbn [List.length] in Hlen.
    cbn [quote_body].
    destruct (is_high_surrogate u) eqn:Ehigh.
    + destruct s as [|l s'].
      * rewrite parse_quote_unit by assumption. reflexivity.
      * destruct (is_low_surrogate l) eqn:Elow.
        -- cbn [app]. rewrite parse_raw_surrogate by auto.
           rewrite parse_raw_surrogate by auto.
           cbn [forallb] in Hs. apply andb_prop in Hs. destruct Hs as [_ Hs'].
           rewrite IH; [reflexivity | cbn [List.length] in Hlen; lia | exact Hs'].
        -- rewrite <- app_assoc. rewrite parse_quote_unit by assumption.
           rewrite IH; [reflexivity | lia | exact Hs].
    + rewrite <- app_assoc. rewrite parse_quote_unit by assumption.
      rewrite IH; [reflexivity | lia | exact Hs].
Qed.

Lemma parse_quote_body s rest :
  wf_string s = true ->
  parse_string_body (quote_body s ++ 34%N :: rest) = Some (s, rest).
Proof. intros H. now apply (parse_quote_body_aux (List.length s)). Qed.

(** ** [JSON.parse] after [JSON.stringify] *)

Section Roundtrip.
Context (host : Host).

Lemma serialize_opener v :
  json_safe v = true ->
  exists c t, serialize host v = Some (c :: t) /\ opener c = true.
Proof.
  destruct v as [| |[|]|n|s|items|fields]; cbn; intros H; try discriminate;
    eexists _, _; (split; [reflexivity | reflexivity]).
Qed.

Lemma opener_not_ws c : opener c = true -> is_ws c = false.
Proof.
  unfold opener, is_ws. intros H.
  repeat (apply orb_prop in H; destruct H as [H|H]);
    apply N.eqb_eq in H; subst c; reflexivity.
Qed.

Lemma join_cons sep p q rest :
  join sep (p :: q :: rest) = p ++ sep ++ join sep (q :: rest).
Proof. reflexivity. Qed.

Lemma firstn_length_app {A} (p rest : list A) : firstn (List.length p) (p ++ rest) = p.
Proof. induction p as [|a p IH]; [reflexivity|]. cbn. now rewrite IH. Qed.

Lemma skipn_length_app {A} (p rest : list A) : skipn (List.length p) (p ++ rest) = rest.
Proof. induction p as [|a p IH]; [reflexivity|]. exact IH. Qed.

Lemma starts_with_app p rest : starts_with p (p ++ rest) = Some rest.
Proof.
  unfold starts_with. rewrite firstn_length_app, skipn_length_app.
  unfold jstr_eqb. destruct (list_eq_dec N.eq_dec p p); [reflexivity|congruence].
Qed.

Lemma jstr_eqb_eq a b : jstr_eqb a b = true <-> a = b.
Proof. unfold jstr_eqb. destruct (list_eq_dec N.eq_dec a b); split; congruence. Qed.

Lemma jstr_eqb_refl a : jstr_eqb a a = true.
Proof. now apply jstr_eqb_eq. Qed.

Lemma has_key_app k a b : has_key k (a ++ b) = has_key k a || has_key k b.
Proof.
  induction a as [|[k' v] a IH]; [reflexivity|].
  cbn. rewrite IH. now rewrite orb_assoc.
Qed.

Lemma obj_set_fresh acc k x :
  has_key k acc = false -> array_index k = None ->
  obj_set acc k x = acc ++ [(k, x)].
Proof. intros H1 H2. unfold obj_set. now rewrite H1, H2. Qed.

Lemma parse_elements_join items :
  Forall (value_text_ok host) items ->
  forallb json_safe items = true ->
  items <> [] ->
  forall fuel acc rest,
    (List.length (join (lit ",") (map (element (serialize host)) items)) + 1 < fuel)%nat ->
    parse_elements fuel acc
      (join (lit ",") (map (element (serialize host)) items) ++ lit "]" ++ rest)
    = Some (VArr (acc ++ items), rest).
Proof.
  induction 1 as [|x items Hx Hitems IH]; intros Hsafe Hne fuel acc rest Hfuel;
    [congruence|].
  cbn [forallb] in Hsafe. apply andb_prop in Hsafe. destruct Hsafe as [Sx Sitems].
  destruct (serialize_opener x Sx) as (c & t & Ex & Hc).
  destruct fuel as [|fuel]; [lia|].
  cbn [parse_elements].
  destruct items as [|y items].
  - cbn [map join] in *. unfold element in *. rewrite Ex in *.
    rewrite (Hx _ Ex) by lia.
    reflexivity.
  - cbn [map] in *. rewrite join_cons in Hfuel |- *.
    remember (join (lit ",") (map (element (serialize host)) (y :: items))) as J.
    unfold element at 1. unfold element at 1 in Hfuel. rewrite Ex in *.
    rewrite length_app in Hfuel. cbn [List.length] in Hfuel.
    rewrite <- app_assoc.
    rewrite (Hx _ Ex) by (cbn [List.length]; lia).
    rewrite <- app_assoc.
    change (lit ",") with [44%N] in Hfuel |- *.
    cbn [app skip_ws].
    change (is_ws 44) with false. cbv iota.
    change (44 =? ch ",")%N with true. cbv iota.
    rewrite length_app in Hfuel. cbn [List.length] in Hfuel.
    subst J. change [44%N] with (lit ",") in Hfuel |- *.
    rewrite (IH Sitems) by (try discriminate; lia).
    now rewrite <- app_assoc.
Qed.

Lemma parse_members_step fuel acc k X :
  wf_string k = true ->
  parse_members (S fuel) acc (quote k ++ lit ":" ++ X) =
  match parse_value fuel X with
  | Some (v, r3) =>
      let acc' := obj_set acc k v in
      match skip_ws r3 with
      | c :: r4 =>
          if (c =? ch ",")%N then parse_members fuel acc' (skip_ws r4)
          else if (c =? ch "}")%N then Some (VObj acc', r4)
          else None
      | [] => None
      end
  | None => None
  end.
Proof.
  intros Hk. unfold quote. cbn [parse_members app].
  change (34 =? 34)%N with true. cbv iota.
  rewrite <- app_assoc. cbn [app].
  rewrite parse_quote_body by exact Hk.
  reflexivity.
Qed.

Lemma has_key_false_in k fs k' x' :
  has_key k fs = false -> In (k', x') fs -> jstr_eqb k' k = false.
Proof.
  induction fs as [|[k0 x0] fs IH]; intros H Hin; [destruct Hin|].
  cbn in H. apply orb_false_elim in H. destruct H as [H1 H2].
  destruct Hin as [E|Hin]; [|now apply IH].
  injection E as -> ->.
  destruct (jstr_eqb k' k) eqn:E; [|reflexivity].
  apply jstr_eqb_eq in E. subst k'. now rewrite jstr_eqb_refl in H1.
Qed.

Lemma members_cons x k fs s :
  serialize host x = Some s ->
  members (serialize host) ((k, x) :: fs) =
  (quote k ++ lit ":" ++ s) :: members (serialize host) fs.
Proof. intros E. cbn. now rewrite E. Qed.

Lemma members_nonempty fs :
  fields_safe json_safe fs = true -> fs <> [] ->
  exists m ms, members (serialize host) fs = m :: ms.
Proof.
  destruct fs as [|[k x] fs]; [congruence|]. intros H _.
  cbn in H. repeat (apply andb_prop in H; destruct H as [H ?]).
  destruct (serialize_opener x) as (c & t & E & _); [assumption|].
  rewrite (members_cons _ _ _ _ E). eauto.
Qed.

Lemma parse_members_join fs :
  Forall (fun kv => value_text_ok host (snd kv)) fs ->
  fields_safe json_safe fs = true ->
  fs <> [] ->
  forall fuel acc rest,
    (forall k x, In (k, x) fs -> has_key k acc = false) ->
    (List.length (join (lit ",") (members (serialize host) fs)) + 1 < fuel)%nat ->
    parse_members fuel acc
      (join (lit ",") (members (serialize host) fs) ++ lit "}" ++ rest)
    = Some (VObj (acc ++ fs), rest).
Proof.
  induction 1 as [|[k x] fs Hx Hfs IH]; intros Hsafe Hne fuel acc rest Hacc Hfuel;
    [congruence|].
  cbn [snd] in Hx.
  pose proof Hsafe as Hsafe0.
  cbn [fields_safe] in Hsafe.
  apply andb_prop in Hsafe. destruct Hsafe as [Hsafe Sfs].
  apply andb_prop in Hsafe. destruct Hsafe as [Hsafe Sx].
  apply andb_prop in Hsafe. destruct Hsafe as [Hsafe Hfresh].
  apply andb_prop in Hsafe. destruct Hsafe as [Hk Hidx].
  apply negb_true_iff in Hfresh.
  destruct (array_index k) eqn:Eidx; [discriminate|].
  destruct (serialize_opener x Sx) as (c & t & Ex & Hc).
  rewrite (members_cons _ _ _ _ Ex) in *.
  destruct fuel as [|fuel]; [lia|].
  assert (Hset : obj_set acc k x = acc ++ [(k, x)]).
  { apply obj_set_fresh; [|assumption]. apply (Hacc k x). now left. }
  destruct fs as [|kv fs].
  - cbn [members join] in *.
    rewrite <- !app_assoc. rewrite parse_members_step by exact Hk.
    rewrite !length_app in Hfuel.
    rewrite (Hx _ Ex) by lia.
    cbv zeta. rewrite Hset. reflexivity.
  - destruct (members_nonempty (kv :: fs) Sfs ltac:(discriminate)) as (m & ms & Em).
    rewrite Em in Hfuel |- *. rewrite join_cons in Hfuel |- *.
    rewrite <- Em in Hfuel |- *.
    remember (join (lit ",") (members (serialize host) (kv :: fs))) as J.
    rewrite <- !app_assoc. rewrite parse_members_step by exact Hk.
    rewrite !length_app in Hfuel.
    rewrite (Hx _ Ex) by lia.
    cbv zeta. rewrite Hset.
    change (lit ",") with [44%N] in Hfuel |- *.
    cbn [app skip_ws].
    change (is_ws 44) with false. cbv iota.
    change (44 =? ch ",")%N with true. cbv iota.
    cbn [List.length] in Hfuel.
    assert (Hskip : skip_ws (J ++ lit "}" ++ rest) = J ++ lit "}" ++ rest).
    { subst J. rewrite Em. destruct kv as [k1 x1].
      cbn in Sfs. repeat (apply andb_prop in Sfs; destruct Sfs as [Sfs ?]).
      destruct (serialize_opener x1) as (c1 & t1 & Ex1 & _); [assumption|].
      rewrite (members_cons _ _ _ _ Ex1) in Em. injection Em as <- <-.
      unfold quote. destruct (members (serialize host) fs); reflexivity. }
    rewrite Hskip. subst J. change [44%N] with (lit ",") in Hfuel |- *.
    rewrite (IH Sfs); [now rewrite <- app_assoc | discriminate | | lia].
    intros k' x' Hin. rewrite has_key_app. cbn [has_key].
    rewrite (Hacc k' x') by (now right).
    rewrite (has_key_false_in _ _ _ _ Hfresh Hin). reflexivity.
Qed.

Theorem parse_serialize v : json_safe v = true -> value_text_ok host v.
Proof.
  induction v as [| |b|n|s|items IH|fields IH] using value_ind;
    intros Hsafe text Etext fuel rest Hfuel; try discriminate;
    (destruct fuel as [|fuel]; [lia|]).
  - injection Etext as <-. reflexivity.
  - destruct b; injection Etext as <-; reflexivity.
  - injection Etext as <-. cbn [json_safe] in Hsafe.
    unfold quote. cbn [parse_value app skip_ws].
    change (is_ws 34) with false. cbv iota.
    change (34 =? ch "{")%N with false. change (34 =? ch "[")%N with false.
    change (34 =? 34)%N with true. cbv iota.
    rewrite <- app_assoc. cbn [app]. now rewrite parse_quote_body.
  - injection Etext as <-. cbn [json_safe] in Hsafe.
    cbn [app]. rewrite <- app_assoc.
    cbn [parse_value app skip_ws].
    change (is_ws 91) with false. cbv iota.
    change (91 =? ch "{")%N with false. change (91 =? ch "[")%N with true. cbv iota.
    destruct items as [|x items]; [reflexivity|].
    assert (Hskip : exists c r, c :: r = join (lit ",") (map (element (serialize host)) (x :: items)) ++ lit "]" ++ rest
                                /\ opener c = true).
    { cbn [forallb] in Hsafe. apply andb_prop in Hsafe. destruct Hsafe as [Sx _].
      destruct (serialize_opener x Sx) as (c & t & Ex & Hc).
      cbn [map]. unfold element at 1. rewrite Ex.
      destruct (map (element (serialize host)) items); cbn; eauto. }
    destruct Hskip as (c & r & E & Hc).
    rewrite <- E. cbn [skip_ws]. rewrite (opener_not_ws _ Hc).
    replace (c =? ch "]")%N with false.
    2:{ symmetry. apply N.eqb_neq. intros ->. discriminate. }
    rewrite E. change (VArr (x :: items)) with (VArr ([] ++ x :: items)).
    cbn [List.length] in Hfuel. rewrite length_app in Hfuel.
    apply parse_elements_join with (acc := []); try assumption; try discriminate.
    + clear - IH Hsafe. induction IH as [|y l Hy Hl IHl]; [constructor|].
      cbn [forallb] in Hsafe. apply andb_prop in Hsafe. destruct Hsafe as [Sy Sl].
      constructor; auto.
    + change (List.length (lit "]")) with 1%nat in Hfuel. lia.
  - injection Etext as <-. cbn [json_safe] in Hsafe.
    cbn [app]. rewrite <- app_assoc.
    cbn [parse_value app skip_ws].
    change (is_ws 123) with false. cbv iota.
    change (123 =? ch "{")%N with true. cbv iota.
    destruct fields as [|kv fields]; [reflexivity|].
    destruct (members_nonempty (kv :: fields) Hsafe ltac:(discriminate)) as (m & ms & Em).
    assert (Hskip : exists r, 34%N :: r = join (lit ",") (members (serialize host) (kv :: fields)) ++ lit "}" ++ rest).
    { destruct kv as [k1 x1]. pose proof Hsafe as Sfs.
      cbn in Sfs. repeat (apply andb_prop in Sfs; destruct Sfs as [Sfs ?]).
      destruct (serialize_opener x1) as (c1 & t1 & Ex1 & _); [assumption|].
      rewrite (members_cons _ _ _ _ Ex1).
      unfold quote. destruct (members (serialize host) fields); cbn; eauto. }
    destruct Hskip as (r & E).
    rewrite <- E. cbn [skip_ws]. change (is_ws 34) with false. cbv iota.
    change (34 =? ch "}")%N with false. cbv iota.
    rewrite E. change (VObj (kv :: fields)) with (VObj ([] ++ kv :: fields)).
    cbn [List.length] in Hfuel. rewrite length_app in Hfuel.
    apply parse_members_join with (acc := []); try assumption; try discriminate.
    + clear - IH Hsafe. induction IH as [|[k y] l Hy Hl IHl]; [constructor|].
      cbn [fields_safe] in Hsafe. repeat (apply andb_prop in Hsafe; destruct Hsafe as [Hsafe ?]).
      constructor; auto.
    + reflexivity.
    + change (List.length (lit "}")) with 1%nat in Hfuel. lia.
Qed.

Theorem JSON_parse_stringify v text :
  json_safe v = true ->
  JSON_stringify host v = Some text ->
  JSON_parse text = Return v.
Proof.
  intros Hsafe E. unfold JSON_parse.
  rewrite <- (app_nil_r text) at 2.
  rewrite (parse_serialize v Hsafe text E) by lia.
  reflexivity.
Qed.

End Roundtrip.

(** ** The fuel of the parser *)

Lemma skip_ws_length s : (List.length (skip_ws s) <= List.length s)%nat.
Proof.
  induction s as [|c s IH]; [reflexivity|].
  cbn [skip_ws]. destruct (is_ws c); cbn [List.length]; lia.
Qed.

Lemma parse_string_body_length n : forall s t r,
  (List.length s <= n)%nat ->
  parse_string_body s = Some (t, r) -> (List.length r < List.length s)%nat.
Proof.
  induction n as [|n IH]; intros s t r Hn H.
  - destruct s; [discriminate | cbn in Hn; lia].
  - destruct s as [|c s]; [discriminate|].
    cbn [parse_string_body] in H. cbn [List.length] in *.
    destruct (c =? 34)%N; [injection H as _ <-; lia|].
    destruct (c =? 92)%N.
    + destruct s as [|e s1]; [discriminate|]. cbn [List.length] in *.
      assert (Hsimple : forall u,
        match parse_string_body s1 with
        | Some (t0, r0) => Some (u :: t0, r0)
        | None => None
        end = Some (t, r) -> (List.length r < S (S (List.length s1)))%nat).
      { intros u Hs. destruct (parse_string_body s1) as [[t0 r0]|] eqn:E; [|discriminate].
        injection Hs as _ <-. apply IH in E; lia. }
      repeat match type of H with
      | (if ?b then _ else _) = _ => destruct b; [now apply Hsimple in H|]
      end.
      destruct (e =? ch "u")%N; [|discriminate].
      destruct s1 as [|h1 [|h2 [|h3 [|h4 s2]]]]; try discriminate.
      destruct (hex_value h1), (hex_value h2), (hex_value h3), (hex_value h4);
        try discriminate.
      destruct (parse_string_body s2) as [[t0 r0]|] eqn:E; [|discriminate].
      injection H as _ <-. cbn [List.length] in *. apply IH in E; lia.
    + destruct (c <? 32)%N; [discriminate|].
      destruct (parse_string_body s) as [[t0 r0]|] eqn:E; [|discriminate].
      injection H as _ <-. apply IH in E; lia.
Qed.

Lemma take_digits_length s ds r :
  take_digits s = (ds, r) -> (List.length r <= List.length s)%nat.
Proof.
  revert ds r. induction s as [|c s IH]; intros ds r H.
  - injection H as _ <-. reflexivity.
  - cbn [take_digits] in H. destruct (is_digit c).
    + destruct (take_digits s) as [ds' r'] eqn:E. injection H as _ <-.
      specialize (IH _ _ eq_refl). cbn [List.length]. lia.
    + injection H as _ <-. reflexivity.
Qed.

Lemma starts_with_length p s r :
  p <> [] -> starts_with p s = Some r -> (List.length r < List.length s)%nat.
Proof.
  unfold starts_with. intros Hp H.
  destruct (jstr_eqb (firstn (List.length p) s) p) eqn:E; [|discriminate].
  injection H as <-. apply jstr_eqb_eq in E.
  assert (List.length p <= List.length s)%nat.
  { rewrite <- E at 1. rewrite length_firstn. lia. }
  rewrite length_skipn. destruct p; [congruence|]. cbn [List.length] in *. lia.
Qed.

Lemma parse_number_length s d r :
  parse_number s = Some (d, r) -> (List.length r < List.length s)%nat.
Proof.
  unfold parse_number. intros H.
  set (sign := match s with
               | [] => (false, s)
               | c :: r0 => if (c =? ch "-")%N then (true, r0) else (false, s)
               end) in H.
  assert (Hsign : (List.length (snd sign) <= List.length s)%nat).
  { subst sign. destruct s as [|c r0]; [reflexivity|].
    destruct (c =? ch "-")%N; cbn [snd List.length]; lia. }
  destruct sign as [neg s1]. cbn [snd] in Hsign.
  set (int_part := match s1 with
                   | [] => None
                   | c :: r0 => if (c =? 48)%N then Some ([c], r0)
                                else if is_digit c then Some (take_digits s1) else None
                   end) in H.
  assert (Hint : forall ip s2, int_part = Some (ip, s2) ->
                 (List.length s2 < List.length s1)%nat).
  { subst int_part. intros ip s2 E. destruct s1 as [|c r0]; [discriminate|].
    destruct (c =? 48)%N; [injection E as _ <-; cbn; lia|].
    destruct (is_digit c) eqn:Ed; [|discriminate].
    injection E as E. cbn [take_digits] in E. rewrite Ed in E.
    destruct (take_digits r0) as [ds' r'] eqn:Et. injection E as _ <-.
    apply take_digits_length in Et. cbn [List.length]. lia. }
  destruct int_part as [[ip s2]|]; [|discriminate].
  specialize (Hint _ _ eq_refl).
  set (frac_part := match s2 with
                    | [] => Some ([], s2)
                    | c :: r0 => if (c =? ch ".")%N
                                 then match take_digits r0 with
                                      | ([], _) => None
                                      | (fp, r') => Some (fp, r')
                                      end
                                 else Some ([], s2)
                    end) in H.
  assert (Hfrac : forall fp s3, frac_part = Some (fp, s3) ->
                  (List.length s3 <= List.length s2)%nat).
  { subst frac_part. intros fp s3 E. destruct s2 as [|c r0]; [injection E as _ <-; lia|].
    destruct (c =? ch ".")%N; [|injection E as _ <-; lia].
    destruct (take_digits r0) as [[|x fp'] r'] eqn:Et; [discriminate|].
    injection E as _ <-. apply take_digits_length in Et. cbn [List.length]. lia. }
  destruct frac_part as [[fp s3]|]; [|discriminate].
  specialize (Hfrac _ _ eq_refl).
  match type of H with
  | match ?x with _ => _ end = _ => set (exp_part := x) in H
  end.
  assert (Hexp : forall e s4, exp_part = Some (e, s4) ->
                 (List.length s4 <= List.length s3)%nat).
  { subst exp_part. intros e s4 E. destruct s3 as [|c r0]; [injection E as _ <-; lia|].
    destruct ((c =? ch "e") || (c =? ch "E"))%N; [|injection E as _ <-; lia].
    match type of E with
    | (let '(_, _) := ?x in _) = _ => set (sgn := x) in E
    end.
    assert (Hs : (List.length (snd sgn) <= List.length r0)%nat).
    { subst sgn. destruct r0 as [|sg r'']; [reflexivity|].
      destruct (sg =? ch "-")%N; [cbn; lia|].
      destruct (sg =? ch "+")%N; cbn; lia. }
    destruct sgn as [eneg r1]. cbn [snd] in Hs.
    destruct (take_digits r1) as [[|x ep] r2] eqn:Et; [discriminate|].
    injection E as _ <-. apply take_digits_length in Et. cbn [List.length]. lia. }
  destruct exp_part as [[e s4]|]; [|discriminate].
  specialize (Hexp _ _ eq_refl). injection H as _ <-. lia.
Qed.

(** What the parser leaves is shorter than what it was given. *)
Lemma parse_value_length fuel :
  (forall s v r, parse_value fuel s = Some (v, r) ->
                 (List.length r < List.length s)%nat) /\
  (forall acc s v r, parse_members fuel acc s = Some (v, r) ->
                     (List.length r < List.length s)%nat) /\
  (forall acc s v r, parse_elements fuel acc s = Some (v, r) ->
                     (List.length r < List.length s)%nat).
Proof.
  induction fuel as [|fuel (IHv & IHm & IHe)];
    [repeat split; intros; discriminate|].
  repeat split.
  - intros s v r H. cbn [parse_value] in H.
    pose proof (skip_ws_length s) as Hs.
    destruct (skip_ws s) as [|c s1]; [discriminate|]. cbn [List.length] in Hs.
    destruct (c =? ch "{")%N.
    { pose proof (skip_ws_length s1) as Hs1.
      destruct (skip_ws s1) as [|c2 s2]; [discriminate|].
      destruct (c2 =? ch "}")%N.
      - injection H as _ <-. cbn [List.length] in Hs1. lia.
      - apply IHm in H. lia. }
    destruct (c =? ch "[")%N.
    { pose proof (skip_ws_length s1) as Hs1.
      destruct (skip_ws s1) as [|c2 s2]; [discriminate|].
      destruct (c2 =? ch "]")%N.
      - injection H as _ <-. cbn [List.length] in Hs1. lia.
      - apply IHe in H. lia. }
    destruct (c =? 34)%N.
    { destruct (parse_string_body s1) as [[t r']|] eqn:E; [|discriminate].
      injection H as _ <-. apply (parse_string_body_length _ _ _ _ (le_n _)) in E. lia. }
    destruct (starts_with (lit "true") (c :: s1)) eqn:E1.
    { injection H as _ <-. apply starts_with_length in E1; [|discriminate].
      cbn [List.length] in E1. lia. }
    destruct (starts_with (lit "false") (c :: s1)) eqn:E2.
    { injection H as _ <-. apply starts_with_length in E2; [|discriminate].
      cbn [List.length] in E2. lia. }
    destruct (starts_with (lit "null") (c :: s1)) eqn:E3.
    { injection H as _ <-. apply starts_with_length in E3; [|discriminate].
      cbn [List.length] in E3. lia. }
    destruct (parse_number (c :: s1)) as [[n r']|] eqn:E4; [|discriminate].
    injection H as _ <-. apply parse_number_length in E4. cbn [List.length] in E4. lia.
  - intros acc s v r H. cbn [parse_members] in H.
    destruct s as [|q s1]; [discriminate|].
    destruct (q =? 34)%N; [|discriminate].
    destruct (parse_string_body s1) as [[k r1]|] eqn:Ek; [|discriminate].
    apply (parse_string_body_length _ _ _ _ (le_n _)) in Ek.
    pose proof (skip_ws_length r1) as Hr1.
    destruct (skip_ws r1) as [|colon r2]; [discriminate|].
    destruct (colon =? ch ":")%N; [|discriminate].
    destruct (parse_value fuel r2) as [[x r3]|] eqn:Ex; [|discriminate].
    apply IHv in Ex. cbv zeta in H.
    pose proof (skip_ws_length r3) as Hr3.
    destruct (skip_ws r3) as [|c r4]; [discriminate|].
    cbn [List.length] in *.
    destruct (c =? ch ",")%N.
    + apply IHm in H. pose proof (skip_ws_length r4). lia.
    + destruct (c =? ch "}")%N; [|discriminate]. injection H as _ <-. lia.
  - intros acc s v r H. cbn [parse_elements] in H.
    destruct (parse_value fuel s) as [[x r1]|] eqn:Ex; [|discriminate].
    apply IHv in Ex.
    pose proof (skip_ws_length r1) as Hr1.
    destruct (skip_ws r1) as [|c r2]; [discriminate|].
    cbn [List.length] in *.
    destruct (c =? ch ",")%N.
    + apply IHe in H. lia.
    + destruct (c =? ch "]")%N; [|discriminate]. injection H as _ <-. lia.
Qed.

(** A parse that succeeds succeeds with any fuel that reaches the number
    of characters it consumed. *)
Lemma parse_value_stable fuel :
  (forall s v r, parse_value fuel s = Some (v, r) ->
     forall f, (List.length s - List.length r <= f)%nat -> parse_value f s = Some (v, r)) /\
  (forall acc s v r, parse_members fuel acc s = Some (v, r) ->
     forall f, (List.length s - List.length r <= f)%nat ->
     parse_members f acc s = Some (v, r)) /\
  (forall acc s v r, parse_elements fuel acc s = Some (v, r) ->
     forall f, (List.length s - List.length r <= f)%nat ->
     parse_elements f acc s = Some (v, r)).
Proof.
  induction fuel as [|fuel (IHv & IHm & IHe)];
    [repeat split; intros; discriminate|].
  repeat split.
  - intros s v r H f Hf.
    pose proof (proj1 (parse_value_length (S fuel)) _ _ _ H) as Hlen.
    destruct f as [|f]; [lia|].
    cbn [parse_value] in H |- *.
    pose proof (skip_ws_length s) as Hs.
    destruct (skip_ws s) as [|c s1]; [discriminate|]. cbn [List.length] in Hs.
    destruct (c =? ch "{")%N.
    { pose proof (skip_ws_length s1) as Hs1.
      destruct (skip_ws s1) as [|c2 s2]; [discriminate|].
      destruct (c2 =? ch "}")%N; [exact H|].
      apply (IHm _ _ _ _ H). lia. }
    destruct (c =? ch "[")%N; [|exact H].
    pose proof (skip_ws_length s1) as Hs1.
    destruct (skip_ws s1) as [|c2 s2]; [discriminate|].
    destruct (c2 =? ch "]")%N; [exact H|].
    apply (IHe _ _ _ _ H). lia.
  - intros acc s v r H f Hf.
    pose proof (proj1 (proj2 (parse_value_length (S fuel))) _ _ _ _ H) as Hlen.
    destruct f as [|f]; [lia|].
    cbn [parse_members] in H |- *.
    destruct s as [|q s1]; [discriminate|].
    destruct (q =? 34)%N; [|discriminate].
    destruct (parse_string_body s1) as [[k r1]|] eqn:Ek; [|discriminate].
    apply (parse_string_body_length _ _ _ _ (le_n _)) in Ek.
    pose proof (skip_ws_length r1) as Hr1.
    destruct (skip_ws r1) as [|colon r2]; [discriminate|].
    destruct (colon =? ch ":")%N; [|discriminate].
    destruct (parse_value fuel r2) as [[x r3]|] eqn:Ex; [|discriminate].
    pose proof (proj1 (parse_value_length fuel) _ _ _ Ex) as Hx.
    cbv zeta in H.
    pose proof (skip_ws_length r3) as Hr3.
    destruct (skip_ws r3) as [|c r4] eqn:Er3; [discriminate|].
    cbn [List.length] in *.
    assert (Hr : (List.length r <= List.length r4)%nat).
    { destruct (c =? ch ",")%N.
      - apply (proj1 (proj2 (parse_value_length fuel))) in H.
        pose proof (skip_ws_length r4). lia.
      - destruct (c =? ch "}")%N; [|discriminate]. injection H as _ <-. lia. }
    rewrite (IHv _ _ _ Ex f) by lia.
    cbv zeta. rewrite Er3.
    destruct (c =? ch ",")%N; [|exact H].
    apply (IHm _ _ _ _ H). pose proof (skip_ws_length r4). lia.
  - intros acc s v r H f Hf.
    pose proof (proj2 (proj2 (parse_value_length (S fuel))) _ _ _ _ H) as Hlen.
    destruct f as [|f]; [lia|].
    cbn [parse_elements] in H |- *.
    destruct (parse_value fuel s) as [[x r1]|] eqn:Ex; [|discriminate].
    pose proof (proj1 (parse_value_length fuel) _ _ _ Ex) as Hx.
    pose proof (skip_ws_length r1) as Hr1.
    destruct (skip_ws r1) as [|c r2] eqn:Er1; [discriminate|].
    cbn [List.length] in *.
    assert (Hr : (List.length r <= List.length r2)%nat).
    { destruct (c =? ch ",")%N.
      - apply (proj2 (proj2 (parse_value_length fuel))) in H. lia.
      - destruct (c =? ch "]")%N; [|discriminate]. injection H as _ <-. lia. }
    rewrite (IHv _ _ _ Ex f) by lia.
    rewrite Er1.
    destruct (c =? ch ",")%N; [|exact H].
    apply (IHe _ _ _ _ H). lia.
Qed.

(** [JSON.parse] is the parser with any fuel that reaches the length of
    the text: a [SyntaxError] is never for want of fuel. *)
Theorem JSON_parse_any_fuel text fuel :
  (List.length text <= fuel)%nat ->
  JSON_parse text =
  match parse_value fuel text with
  | Some (v, rest) =>
      match skip_ws rest with
      | [] => Return v
      | _ :: _ => Throw SyntaxError
      end
  | None => Throw SyntaxError
  end.
Proof.
  intros H. unfold JSON_parse.
  assert (E : parse_value (S (List.length text)) text = parse_value fuel text).
  { destruct (parse_value (S (List.length text)) text) as [[v r]|] eqn:E1.
    - symmetry. apply (proj1 (parse_value_stable _) _ _ _ E1). lia.
    - destruct (parse_value fuel text) as [[v r]|] eqn:E2; [|reflexivity].
      rewrite (proj1 (parse_value_stable _) _ _ _ E2 (S (List.length text))) in E1
        by lia.
      discriminate. }
  now rewrite E.
Qed.

(** * Properties of the session model *)

Lemma wf_string_app a b : wf_string (a ++ b) = wf_string a && wf_string b.
Proof. apply forallb_app. Qed.

Lemma N_of_ascii_small a : (N_of_ascii a < 256)%N.
Proof. destruct a as [[] [] [] [] [] [] [] []]; reflexivity. Qed.

Lemma wf_string_lit s : wf_string (lit s) = true.
Proof.
  unfold lit. induction s as [|a s IH]; [reflexivity|].
  cbn [list_ascii_of_string map wf_string forallb].
  fold (wf_string (map N_of_ascii (list_ascii_of_string s))).
  rewrite IH, andb_true_r. apply N.ltb_lt. pose proof (N_of_ascii_small a). lia.
Qed.

Lemma wf_string_pad w n : wf_string (pad_digits w n) = true.
Proof.
  revert n. induction w as [|w IH]; intros n; [reflexivity|].
  cbn [pad_digits]. rewrite wf_string_app, IH.
  cbn [wf_string forallb andb]. rewrite andb_true_r.
  apply N.ltb_lt. pose proof (Z.mod_pos_bound n 10 ltac:(lia)). lia.
Qed.

Lemma wf_string_iso t : wf_string (iso_string t) = true.
Proof.
  unfold iso_string. destruct (civil_from_days (t / msPerDay)) as [[y m] d].
  assert (Hy : wf_string (year_string y) = true).
  { unfold year_string. destruct (_ && _); [apply wf_string_pad|].
    rewrite wf_string_app, wf_string_pad. destruct (y <? 0); reflexivity. }
  repeat rewrite wf_string_app. rewrite Hy, !wf_string_pad, !wf_string_lit. reflexivity.
Qed.

Lemma json_safe_user u : wf_user u = true -> json_safe (Types.User_value u) = true.
Proof.
  unfold wf_user. intros H.
  repeat (apply andb_prop in H; destruct H as [H ?]).
  destruct u as [i g e n a c up]. cbn [Types.id Types.google_id Types.email Types.name
    Types.avatar_url Types.created_at Types.updated_at] in *.
  unfold Types.User_value.
  cbn [Types.id Types.google_id Types.email Types.name
    Types.avatar_url Types.created_at Types.updated_at json_safe fields_safe].
  repeat match goal with
  | |- context [ wf_string (lit ?s) ] => rewrite (wf_string_lit s)
  end.
  rewrite H, H0, H1, H3, H4, H5.
  destruct a as [a|]; cbn [json_safe]; [rewrite H2|]; reflexivity.
Qed.

(** No JSON text starts with [session=]. *)
Lemma JSON_parse_not_json rest : JSON_parse (lit "session=" ++ rest) = Throw SyntaxError.
Proof. reflexivity. Qed.

Lemma every_forallb {A} (p : A -> bool) l :
  every (fun x => Return (p x)) l = Return (forallb p l).
Proof.
  induction l as [|x l IH]; [reflexivity|].
  cbn. destruct (p x); [exact IH | reflexivity].
Qed.

Lemma forallb_false_iff {A} (p : A -> bool) l :
  forallb p l = false <-> exists x, In x l /\ p x = false.
Proof.
  induction l as [|a l IH]; cbn [forallb].
  - split; [discriminate | intros (x & [] & _)].
  - rewrite andb_false_iff, IH. split.
    + intros [H|(x & Hin & Hx)]; [exists a; split; [now left | exact H]
                                  | exists x; split; [now right | exact Hx]].
    + intros (x & [->|Hin] & Hx); [now left | right; eauto].
Qed.

Lemma present_false_iff v :
  present v = false <-> v = VNull \/ v = VUndefined \/ v = VStr [].
Proof.
  destruct v as [| |b|n|s|items|fields]; cbn; split; auto;
    try (intros [H|[H|H]]; discriminate); try discriminate.
  - destruct s; [auto | discriminate].
  - intros [H|[H|H]]; try discriminate. injection H as ->. reflexivity.
Qed.


Lemma headers_get_set name v hs : headers_get name (headers_set name v hs) = Some v.
Proof.
  induction hs as [|[n x] hs IH]; cbn.
  - now rewrite jstr_eqb_refl.
  - destruct (jstr_eqb n name) eqn:E; cbn; rewrite E; [reflexivity | exact IH].
Qed.

Section SessionModel.
Context (host : Host) (now : Z).

Lemma truthy_session_value s : truthy host (Types.session_value s) = true.
Proof. reflexivity. Qed.

Lemma prop_expiresAt s :
  prop (Types.session_value s) (lit "expiresAt") =
  match Types.expiresAt s with Some e => VStr e | None => VUndefined end.
Proof. destruct s as [u a [e|]]; reflexivity. Qed.

Lemma prop_user s : prop (Types.session_value s) (lit "user") = Types.user s.
Proof. destruct s as [u a [e|]]; reflexivity. Qed.

(** [isSessionValid] on a typed session compares the clock with the
    parsed expiry. *)
Lemma isSessionValid_typed s :
  Auth.isSessionValid host now (Types.session_value s) =
  Return (match Types.expiresAt s with
          | Some e => num_lt (Int now) (Date_parse host e)
          | None => false
          end).
Proof.
  unfold Auth.isSessionValid. rewrite truthy_session_value. cbn [negb].
  unfold Get. cbn [Types.session_value bind]. rewrite prop_expiresAt.
  destruct (Types.expiresAt s) as [[|c e]|]; reflexivity.
Qed.

Lemma isSessionValid_truthy v :
  Auth.isSessionValid host now v = Return true -> truthy host v = true.
Proof.
  unfold Auth.isSessionValid. destruct (truthy host v); [reflexivity|discriminate].
Qed.

Lemma getSessionTimeRemaining_typed s :
  Auth.getSessionTimeRemaining host now (Types.session_value s) =
  Return (match Types.expiresAt s with
          | Some [] | None => Int 0
          | Some e =>
              Math_max (Int 0) (Math_floor_div (num_sub (Date_parse host e) (Int now)) 1000)
          end).
Proof.
  unfold Auth.getSessionTimeRemaining. rewrite truthy_session_value. cbn [negb].
  unfold Get. cbn [Types.session_value bind]. rewrite prop_expiresAt.
  destruct (Types.expiresAt s) as [[|c e]|]; reflexivity.
Qed.

(** What [getSessionTimeRemaining] returns when the expiry is missing or
    is a date. *)
Lemma getSessionTimeRemaining_cases (s : Types.AuthSession) :
  Auth.getSessionTimeRemaining host now VNull = Return (Int 0) /\
  (Types.expiresAt s = None ->
   Auth.getSessionTimeRemaining host now (Types.session_value s) = Return (Int 0)) /\
  (forall e t, Types.expiresAt s = Some e -> Date_parse host e = Int t ->
   Auth.getSessionTimeRemaining host now (Types.session_value s) =
     Return (Int (Z.max 0 ((t - now) / 1000)))).
Proof.
  split; [reflexivity|]. rewrite getSessionTimeRemaining_typed.
  split; [intros ->; reflexivity|].
  intros e t -> Et. destruct e as [|c e]; [discriminate|]. now rewrite Et.
Qed.

Lemma validateUser_eq u :
  Auth.validateUser host u =
  Return (truthy host u && typeof_object u &&
          forallb (fun f => present (prop u f)) Auth.requiredFields).
Proof.
  unfold Auth.validateUser.
  destruct u as [| |b|n|s|items|fields]; cbn [truthy typeof_object negb orb andb];
    try reflexivity.
  - destruct b; reflexivity.
  - destruct (number_truthy host n); reflexivity.
  - destruct (jstr_eqb s []); reflexivity.
  - unfold Get, bind. apply (every_forallb (fun f => present (prop (VObj fields) f))).
Qed.

Lemma validateUser_total u : exists b, Auth.validateUser host u = Return b.
Proof. rewrite validateUser_eq. eauto. Qed.

(** [validateUser] rejects an object exactly when a required field is
    [null], [undefined] or the empty string. *)
Lemma validateUser_object fields :
  Auth.validateUser host (VObj fields) = Return false <->
  exists f, In f Auth.requiredFields /\
    (prop (VObj fields) f = VNull \/ prop (VObj fields) f = VUndefined \/
     prop (VObj fields) f = VStr []).
Proof.
  rewrite validateUser_eq. cbn [truthy typeof_object andb].
  transitivity (forallb (fun f => present (prop (VObj fields) f)) Auth.requiredFields = false).
  - split; [intros H; now injection H | intros ->; reflexivity].
  - rewrite forallb_false_iff. split; intros (f & Hin & Hf); exists f; (split; [exact Hin|]);
      now apply present_false_iff.
Qed.

Lemma requireValidSession_typed s :
  Auth.requireValidSession host now (Types.session_value s) =
  match Auth.isSessionValid host now (Types.session_value s) with
  | Return true =>
      match Auth.validateUser host (Types.user s) with
      | Return true => Return (Types.user s)
      | Return false => Throw (AuthenticationError (lit "Invalid user data in session"))
      | Throw e => Throw e
      end
  | Return false => Throw (AuthenticationError (lit "Session has expired"))
  | Throw e => Throw e
  end.
Proof.
  unfold Auth.requireValidSession. rewrite truthy_session_value. cbn [negb].
  destruct (Auth.isSessionValid host now (Types.session_value s)) as [[|]|e];
    cbn [bind negb]; try reflexivity.
  unfold Get. cbn [Types.session_value bind]. rewrite prop_user.
  destruct (Auth.validateUser host (Types.user s)) as [[|]|e]; reflexivity.
Qed.

Lemma Date_parse_iso t : Z.abs t <= maxTime -> Date_parse host (iso_string t) = Int t.
Proof.
  intros H. unfold Date_parse. rewrite (iso_parse_iso_string t H).
  destruct (iso_string t) eqn:E; [|reflexivity].
  pose proof (iso_parse_iso_string t H) as P. rewrite E in P. discriminate.
Qed.

(** The cookie as [serializeSessionToCookie] assembles it. *)
Lemma serializeSessionToCookie_eq (v : value) (isProduction : bool) :
  Auth.serializeSessionToCookie host v isProduction =
  lit "session=" ++ template_of_json host v ++ lit "; HttpOnly" ++
  (if isProduction then lit "; Secure" else []) ++
  lit "; SameSite=lax; Max-Age=3600; Path=/".
Proof.
  unfold Auth.serializeSessionToCookie.
  generalize (template_of_json host v). intros J.
  destruct isProduction; reflexivity.
Qed.

Lemma stringify_session_defined (s : Types.AuthSession) :
  exists json, JSON_stringify host (Types.session_value s) = Some json /\
               template_of_json host (Types.session_value s) = json.
Proof. unfold template_of_json, JSON_stringify. cbn [Types.session_value serialize]. eauto. Qed.

Lemma createAuthSession_defined user token ttl session :
  Auth.createAuthSession now user token ttl = Return session ->
  exists json, JSON_stringify host session = Some json /\ template_of_json host session = json.
Proof.
  unfold Auth.createAuthSession.
  destruct (Date_toISOString (now + ttl * 1000)) as [iso|e]; cbn [bind]; [|discriminate].
  intros H. injection H as <-. unfold template_of_json, JSON_stringify. cbn [serialize]. eauto.
Qed.

(** What [createAuthSession] builds, typed. *)
Lemma createAuthSession_typed user token ttl session :
  Auth.createAuthSession now user (VStr token) ttl = Return session ->
  Z.abs (now + ttl * 1000) <= maxTime /\
  session = Types.session_value
              {| Types.user := user; Types.accessToken := token;
                 Types.expiresAt := Some (iso_string (now + ttl * 1000)) |}.
Proof.
  unfold Auth.createAuthSession, Date_toISOString, TimeClip.
  destruct (Z.abs (now + ttl * 1000) <=? maxTime) eqn:E; [|discriminate].
  cbn [bind]. intros H. injection H as <-. apply Z.leb_le in E. now split.
Qed.

(** At the instant of creation a session has its whole time to live
    left, when that is positive. *)
Lemma remaining_at_creation user token ttl session :
  0 < ttl ->
  Auth.createAuthSession now user (VStr token) ttl = Return session ->
  Auth.getSessionTimeRemaining host now session = Return (Int ttl) /\
  Auth.isSessionValid host now session = Return true.
Proof.
  intros Httl H. destruct (createAuthSession_typed _ _ _ _ H) as [Hrange ->].
  rewrite getSessionTimeRemaining_typed, isSessionValid_typed. cbn [Types.expiresAt].
  rewrite (Date_parse_iso _ Hrange). split.
  - destruct (iso_string (now + ttl * 1000)) eqn:E.
    + pose proof (Date_parse_iso _ Hrange) as P. rewrite E in P. discriminate P.
    + cbn. f_equal. f_equal. Z.to_euclidean_division_equations. lia.
  - cbn. f_equal. apply Z.ltb_lt. lia.
Qed.

(** A session created with no time to live, or a negative one, is expired
    from the start. *)
Lemma expired_at_creation user token ttl session :
  ttl <= 0 ->
  Auth.createAuthSession now user (VStr token) ttl = Return session ->
  Auth.isSessionValid host now session = Return false /\
  Auth.isSessionExpired host now session = Return true /\
  Auth.getSessionTimeRemaining host now session = Return (Int 0).
Proof.
  intros Httl H. destruct (createAuthSession_typed _ _ _ _ H) as [Hrange ->].
  unfold Auth.isSessionExpired.
  rewrite getSessionTimeRemaining_typed, isSessionValid_typed. cbn [Types.expiresAt bind].
  rewrite (Date_parse_iso _ Hrange).
  assert (E : num_lt (Int now) (Int (now + ttl * 1000)) = false)
    by (cbn; apply Z.ltb_ge; lia).
  rewrite E. split; [reflexivity|]. split; [reflexivity|].
  destruct (iso_string (now + ttl * 1000)); [reflexivity|].
  cbn. f_equal. f_equal. Z.to_euclidean_division_equations. lia.
Qed.

Lemma getUserFromSession_total v : exists r, Auth.getUserFromSession host now v = Return r.
Proof.
  unfold Auth.getUserFromSession.
  destruct (Auth.requireValidSession host now v); cbn [try_catch]; eauto.
Qed.

(** Outside the declared type [isSessionValid] can throw: an [expiresAt]
    that is an object with an own [toString] cannot be made a date. *)
Lemma isSessionValid_ill_typed :
  Auth.isSessionValid host now
    (VObj [(lit "expiresAt", VObj [(lit "toString", VNull)])]) = Throw TypeError.
Proof. reflexivity. Qed.

End SessionModel.

Lemma callback_differs (json : jstr) (p p' : bool) :
  callback_cookie json p <>
  lit "session=" ++ json ++ lit "; HttpOnly" ++ (if p' then lit "; Secure" else []) ++
  lit "; SameSite=lax; Max-Age=3600; Path=/".
Proof.
  unfold callback_cookie. intros H.
  apply app_inv_head in H. apply app_inv_head in H.
  destruct p, p'; discriminate H.
Qed.

(** * The session round trip *)

Section SessionRoundTrip.
Context (host : Host) (now : Z).

(** C1, as the code has it. A session created with a time to live of 3600
    seconds is serialized by [serializeSessionToCookie] as
    [session=<json>] followed by the flag segments. [parseSessionFromCookie]
    recovers the session, with the same user and expiry and valid at the
    instant of creation, from [<json>], the value of the cookie; applied to
    the whole string that [serializeSessionToCookie] returns it answers
    [null]. Strings are sequences of 16-bit code units. *)
Theorem session_round_trip (u : Types.User) (token : jstr) (isProduction : bool)
  (session : value) :
  wf_user u = true ->
  wf_string token = true ->
  Auth.createAuthSession now (Types.User_value u) (VStr token) 3600 = Return session ->
  exists json,
    JSON_stringify host session = Some json /\
    Auth.serializeSessionToCookie host session isProduction =
      lit "session=" ++ json ++ lit "; HttpOnly" ++
      (if isProduction then lit "; Secure" else []) ++
      lit "; SameSite=lax; Max-Age=3600; Path=/" /\
    Auth.parseSessionFromCookie host now json = Return session /\
    prop session (lit "user") = Types.User_value u /\
    prop session (lit "expiresAt") = VStr (iso_string (now + 3600 * 1000)) /\
    Auth.isSessionValid host now session = Return true /\
    Auth.parseSessionFromCookie host now
      (Auth.serializeSessionToCookie host session isProduction) = Return VNull.
Proof.
  intros Hu Htoken Hcreate.
  destruct (createAuthSession_defined host _ _ _ _ _ Hcreate) as (json & Ejson & Etemplate).
  unfold Auth.createAuthSession, Date_toISOString, TimeClip in Hcreate.
  destruct (Z.abs (now + 3600 * 1000) <=? maxTime) eqn:Erange; [|discriminate].
  apply Z.leb_le in Erange. cbn [bind] in Hcreate. injection Hcreate as <-.
  set (session := VObj _) in *.
  assert (Hvalid : Auth.isSessionValid host now session = Return true).
  { change session with
      (Types.session_value
         {| Types.user := Types.User_value u; Types.accessToken := token;
            Types.expiresAt := Some (iso_string (now + 3600 * 1000)) |}).
    rewrite isSessionValid_typed. cbn [Types.expiresAt].
    rewrite (Date_parse_iso host _ Erange). cbn. f_equal. apply Z.ltb_lt. lia. }
  assert (Hsafe : json_safe session = true).
  { subst session. cbn [json_safe fields_safe].
    rewrite (json_safe_user u Hu). cbn [json_safe]. rewrite Htoken, wf_string_iso.
    reflexivity. }
  exists json. split; [exact Ejson|].
  split; [now rewrite serializeSessionToCookie_eq, Etemplate|].
  split.
  { unfold Auth.parseSessionFromCookie.
    rewrite (JSON_parse_stringify host session json Hsafe Ejson).
    cbn [bind]. rewrite Hvalid. reflexivity. }
  split; [reflexivity|]. split; [reflexivity|]. split; [exact Hvalid|].
  rewrite serializeSessionToCookie_eq. unfold Auth.parseSessionFromCookie.
  rewrite JSON_parse_not_json. reflexivity.
Qed.

End SessionRoundTrip.

(** The session of the tests, through the round trip. *)
Lemma session_round_trip_witness :
  wf_user Fixture.mockUser = true /\
  wf_string (lit "token123") = true /\
  Auth.createAuthSession Fixture.now (Types.User_value Fixture.mockUser)
    (VStr (lit "token123")) 3600 = Return Fixture.mockSession /\
  exists json,
    JSON_stringify plain_host Fixture.mockSession = Some json /\
    Auth.serializeSessionToCookie plain_host Fixture.mockSession true =
      lit "session=" ++ json ++ lit "; HttpOnly" ++ lit "; Secure" ++
      lit "; SameSite=lax; Max-Age=3600; Path=/" /\
    Auth.parseSessionFromCookie plain_host Fixture.now json = Return Fixture.mockSession /\
    prop Fixture.mockSession (lit "user") = Types.User_value Fixture.mockUser /\
    prop Fixture.mockSession (lit "expiresAt") =
      VStr (iso_string (Fixture.now + 3600 * 1000)) /\
    Auth.isSessionValid plain_host Fixture.now Fixture.mockSession = Return true /\
    Auth.parseSessionFromCookie plain_host Fixture.now
      (Auth.serializeSessionToCookie plain_host Fixture.mockSession true) = Return VNull.
Proof.
  split; [reflexivity|]. split; [reflexivity|]. split; [reflexivity|].
  apply (session_round_trip plain_host Fixture.now Fixture.mockUser (lit "token123") true
           Fixture.mockSession); reflexivity.
Defined.

(** C1 as stated fails: deserializing what serialization returns gives
    [null], not the session. *)
Lemma cookie_string_is_not_its_payload :
  Auth.createAuthSession Fixture.now (Types.User_value Fixture.mockUser)
    (VStr (lit "token123")) 3600 = Return Fixture.mockSession /\
  Auth.parseSessionFromCookie plain_host Fixture.now
    (Auth.serializeSessionToCookie plain_host Fixture.mockSession false) = Return VNull /\
  VNull <> Fixture.mockSession.
Proof.
  split; [reflexivity|]. split; [|discriminate].
  rewrite serializeSessionToCookie_eq. unfold Auth.parseSessionFromCookie.
  rewrite JSON_parse_not_json. reflexivity.
Qed.

(** * The request gate *)

(** The branches of the gate in which the cookie is turned down: [Eparse]
    says what [JSON.parse] made of it. *)
Ltac rejected Eparse :=
  eexists _, _; split; [reflexivity|]; split; [reflexivity|]; split; [reflexivity|];
  cbn [App.isAuthenticated App.session App.user deleted truthy Get_optional];
  split; [split; [discriminate|
           intros (c' & v' & Ec & Ev & Hv); injection Ec as <-;
           rewrite Eparse in Ev; first [discriminate Ev | injection Ev as <-; congruence]]|];
  split; [intros c' v' Ec Ev Hv; injection Ec as <-; rewrite Eparse in Ev;
          first [discriminate Ev | injection Ev as <-; congruence]|];
  split; [auto | discriminate].

Section Gate.
Context (host : Host) (now : Z).

(** C2, as the code has it. After the middleware has run, the request has
    gone on to the downstream handler with [locals] set.
    [locals.isAuthenticated] is true exactly when a session cookie was
    present, parsed as JSON and satisfied [isSessionValid]; then
    [locals.session] is the parsed session, [locals.user] is its [user]
    when that is truthy and [null] otherwise, and no cookie is deleted.
    When the cookie was present but malformed or invalid, the session
    cookie is deleted and the three locals are [null], [null] and false.
    Without a cookie nothing is deleted. *)
Theorem gate_annotates {R : Type} (next : io R) (w : World) :
  exists w' l,
    Middleware.onRequest host now next w = next w' /\
    locals w' = Some l /\
    cookies w' = cookies w /\
    (App.isAuthenticated l = true <->
     exists c v,
       cookie_value (lit "session") (cookies w) = Some c /\
       JSON_parse c = Return v /\
       Auth.isSessionValid host now v = Return true) /\
    (forall c v,
       cookie_value (lit "session") (cookies w) = Some c ->
       JSON_parse c = Return v ->
       Auth.isSessionValid host now v = Return true ->
       App.session l = v /\
       App.user l = (if truthy host (prop v (lit "user")) then prop v (lit "user") else VNull) /\
       deleted w' = deleted w) /\
    (forall c,
       cookie_value (lit "session") (cookies w) = Some c ->
       (forall v, JSON_parse c = Return v -> Auth.isSessionValid host now v <> Return true) ->
       App.isAuthenticated l = false /\ App.session l = VNull /\ App.user l = VNull /\
       deleted w' = deleted w ++ [(lit "session", lit "/")]) /\
    (cookie_value (lit "session") (cookies w) = None ->
     App.isAuthenticated l = false /\ App.session l = VNull /\ App.user l = VNull /\
     deleted w' = deleted w).
Proof.
  unfold Middleware.onRequest, bind_io at 1, cookies_get.
  destruct (cookie_value (lit "session") (cookies w)) as [c|] eqn:Ecookie.
  - unfold bind_io at 1, try_catch_io, bind_io at 1, lift at 1.
    destruct (JSON_parse c) as [v|e] eqn:Eparse.
    + unfold bind_io at 1, lift at 1.
      destruct (Auth.isSessionValid host now v) as [[|]|e] eqn:Evalid.
      * unfold ret at 1, bind_io, set_locals.
        eexists _, _. split; [reflexivity|]. split; [reflexivity|]. split; [reflexivity|].
        cbn [App.isAuthenticated App.session App.user deleted].
        pose proof (isSessionValid_truthy _ _ _ Evalid) as Ht. rewrite Ht.
        assert (Hget : Get_optional v (lit "user") = prop v (lit "user")).
        { destruct v; try reflexivity; discriminate Ht. }
        rewrite Hget.
        split; [split; [intros _; eauto | reflexivity]|].
        split; [intros c' v' Ec Ev _; injection Ec as <-; rewrite Eparse in Ev;
                injection Ev as <-; auto|].
        split; [|discriminate].
        intros c' Ec Hno. injection Ec as <-. destruct (Hno v Eparse Evalid).
      * unfold bind_io, cookies_delete, ret, set_locals. rejected Eparse.
      * unfold bind_io, console_error, cookies_delete, ret, set_locals. rejected Eparse.
    + unfold bind_io, console_error, cookies_delete, ret, set_locals. rejected Eparse.
  - unfold bind_io, ret, set_locals.
    eexists _, _. split; [reflexivity|]. split; [reflexivity|]. split; [reflexivity|].
    cbn [App.isAuthenticated App.session App.user deleted truthy Get_optional].
    split; [split; [discriminate | intros (c' & v' & Ec & _); discriminate]|].
    split; [discriminate|]. split; [discriminate | auto].
Qed.

End Gate.

(** The gate on a request that carries the session of the tests. *)
Lemma gate_annotates_witness :
  exists w' l,
    Middleware.onRequest plain_host Fixture.now (ret tt)
      (Fixture.worldWithCookie Fixture.mockCookieValue) = ret tt w' /\
    locals w' = Some l /\
    App.isAuthenticated l = true /\
    App.session l = Fixture.mockSession /\
    App.user l = Types.User_value Fixture.mockUser /\
    deleted w' = [].
Proof.
  destruct (gate_annotates plain_host Fixture.now (ret tt)
              (Fixture.worldWithCookie Fixture.mockCookieValue))
    as (w' & l & Hrun & Hl & _ & Hauth & Hvalid & _).
  destruct (Hvalid Fixture.mockCookieValue Fixture.mockSession eq_refl eq_refl eq_refl)
    as (Hs & Hu & Hd).
  exists w', l. split; [exact Hrun|]. split; [exact Hl|].
  split; [apply Hauth; exists Fixture.mockCookieValue, Fixture.mockSession; auto|].
  split; [exact Hs|]. split; [exact Hu | exact Hd].
Defined.

(** C2 as stated fails where the parsed session carries a falsy [user]:
    the request is authenticated and [locals.user] is [null], not the
    embedded user. *)
Lemma gate_user_is_not_the_embedded_user :
  exists w' l v,
    Middleware.onRequest plain_host Fixture.now (ret tt)
      (Fixture.worldWithCookie Fixture.cookieWithEmptyUser) = (Return tt, w') /\
    locals w' = Some l /\
    JSON_parse Fixture.cookieWithEmptyUser = Return v /\
    Auth.isSessionValid plain_host Fixture.now v = Return true /\
    App.isAuthenticated l = true /\
    App.session l = v /\
    prop v (lit "user") = VStr [] /\
    App.user l = VNull /\
    App.user l <> prop v (lit "user").
Proof.
  eexists _, _, _.
  split; [reflexivity|]. split; [reflexivity|]. split; [reflexivity|].
  split; [reflexivity|]. split; [reflexivity|]. split; [reflexivity|].
  split; [reflexivity|]. split; [reflexivity | discriminate].
Qed.

(** * Deserialization and validity *)

Section Validity.
Context (host : Host) (now : Z).

(** C3. [parseSessionFromCookie] is total: on every string it returns a
    session or [null] and throws nothing; when [JSON.parse] fails it
    returns [null]; and what it returns, if not [null], is the parsed value
    and satisfies [isSessionValid]. Garbage, the empty string, JSON of the
    wrong shape, a session without expiry and one whose expiry makes
    [isSessionValid] throw all give [null]. *)
Theorem parseSessionFromCookie_total (cookieValue : jstr) :
  (exists r, Auth.parseSessionFromCookie host now cookieValue = Return r /\
     (r = VNull \/
      (JSON_parse cookieValue = Return r /\ Auth.isSessionValid host now r = Return true)) /\
     (forall e, JSON_parse cookieValue = Throw e -> r = VNull) /\
     (forall v, JSON_parse cookieValue = Return v ->
                Auth.isSessionValid host now v <> Return true -> r = VNull)) /\
  Auth.parseSessionFromCookie host now (lit "not json at all") = Return VNull /\
  Auth.parseSessionFromCookie host now [] = Return VNull /\
  Auth.parseSessionFromCookie host now (dq "{'foo':'bar'}") = Return VNull /\
  Auth.parseSessionFromCookie host now (dq "['2999-01-01T00:00:00.000Z']") = Return VNull /\
  Auth.parseSessionFromCookie host now (dq "{'user':{},'accessToken':'t'}") = Return VNull /\
  Auth.parseSessionFromCookie host now (dq "{'expiresAt':{'toString':null}}") = Return VNull.
Proof.
  split; [|repeat split; reflexivity].
  unfold Auth.parseSessionFromCookie.
  destruct (JSON_parse cookieValue) as [v|e] eqn:Eparse; cbn [bind try_catch].
  - destruct (Auth.isSessionValid host now v) as [[|]|e] eqn:Evalid; cbn [bind try_catch].
    + exists v. split; [reflexivity|]. split; [auto|]. split; [discriminate|].
      intros v' Ev Hv. injection Ev as <-. congruence.
    + exists VNull. repeat split; auto.
    + exists VNull. repeat split; auto.
  - exists VNull. repeat split; auto.
Qed.


(** C5. [requireValidSession] checks in this order: an absent session
    ([null] or [undefined]) fails with 'No session provided'; otherwise a
    session that [isSessionValid] refuses fails with 'Session has expired';
    otherwise a user that [validateUser] rejects fails with 'Invalid user
    data in session'; otherwise the embedded user is returned. Each failure
    is an [AuthenticationError], and [validateUser] rejects a user object
    exactly when one of the six required fields is [null], [undefined] or
    the empty string. *)
Theorem requireValidSession_order (s : option Types.AuthSession) :
  Auth.requireValidSession host now VUndefined =
    Throw (AuthenticationError (lit "No session provided")) /\
  (s = None ->
   Auth.requireValidSession host now (Types.nullable s) =
     Throw (AuthenticationError (lit "No session provided"))) /\
  (forall s', s = Some s' ->
     (exists valid, Auth.isSessionValid host now (Types.nullable s) = Return valid) /\
     (exists ok, Auth.validateUser host (Types.user s') = Return ok) /\
     (Auth.isSessionValid host now (Types.nullable s) = Return false ->
      Auth.requireValidSession host now (Types.nullable s) =
        Throw (AuthenticationError (lit "Session has expired"))) /\
     (Auth.isSessionValid host now (Types.nullable s) = Return true ->
      Auth.validateUser host (Types.user s') = Return false ->
      Auth.requireValidSession host now (Types.nullable s) =
        Throw (AuthenticationError (lit "Invalid user data in session"))) /\
     (Auth.isSessionValid host now (Types.nullable s) = Return true ->
      Auth.validateUser host (Types.user s') = Return true ->
      Auth.requireValidSession host now (Types.nullable s) = Return (Types.user s')) /\
     (forall fields, Types.user s' = VObj fields ->
        (Auth.validateUser host (Types.user s') = Return false <->
         exists f, In f Auth.requiredFields /\
           (prop (VObj fields) f = VNull \/ prop (VObj fields) f = VUndefined \/
            prop (VObj fields) f = VStr [])))) /\
  Auth.requiredFields =
    [lit "id"; lit "google_id"; lit "email"; lit "name"; lit "created_at"; lit "updated_at"].
Proof.
  split; [reflexivity|]. split; [|split; [|reflexivity]].
  - intros ->. reflexivity.
  - intros s' ->. cbn [Types.nullable].
    split; [rewrite isSessionValid_typed; eauto|].
    split; [apply validateUser_total|].
    rewrite requireValidSession_typed.
    split; [intros ->; reflexivity|].
    split; [intros -> ->; reflexivity|].
    split; [intros -> ->; reflexivity|].
    intros fields ->. apply validateUser_object.
Qed.

(** C7, where the code departs from it. With an [expiresAt] that is a
    non-empty string and does not parse as a date,
    [getSessionTimeRemaining] returns NaN, not a non-negative integer. *)
Theorem getSessionTimeRemaining_unparseable (s : Types.AuthSession) (e : jstr) :
  Types.expiresAt s = Some e ->
  e <> [] ->
  Date_parse host e = NaN ->
  Auth.getSessionTimeRemaining host now (Types.session_value s) = Return NaN.
Proof.
  intros Ee Hne Hnan. rewrite getSessionTimeRemaining_typed, Ee.
  destruct e as [|c e]; [congruence|]. now rewrite Hnan.
Qed.

(** C10. At one instant, a positive [getSessionTimeRemaining] implies
    that [isSessionValid] is true, for any value passed as the session.
    Not conversely: a session whose expiry lies strictly between now and
    now + 1000 milliseconds is valid and has 0 seconds remaining. *)
Theorem remaining_positive_implies_valid :
  (forall (v : value) (z : Z),
     Auth.getSessionTimeRemaining host now v = Return (Int z) ->
     0 < z ->
     Auth.isSessionValid host now v = Return true) /\
  (forall (u : value) (a : jstr) (e : Z),
     now < e < now + 1000 ->
     Z.abs e <= maxTime ->
     let s := Types.session_value
                {| Types.user := u; Types.accessToken := a;
                   Types.expiresAt := Some (iso_string e) |} in
     Auth.isSessionValid host now s = Return true /\
     Auth.getSessionTimeRemaining host now s = Return (Int 0)).
Proof.
  split.
  - intros v z. unfold Auth.getSessionTimeRemaining, Auth.isSessionValid.
    destruct (truthy host v); cbn [negb]; [|intros H; injection H as <-; lia].
    destruct (Get v (lit "expiresAt")) as [x|err]; cbn [bind]; [|discriminate].
    destruct (truthy host x); cbn [negb]; [|intros H; injection H as <-; lia].
    destruct (Date_getTime host x) as [[|t]|err]; cbn [bind]; try discriminate.
    intros H Hz. injection H as <-. cbn. f_equal. apply Z.ltb_lt.
    Z.to_euclidean_division_equations. lia.
  - intros u a e He Hrange s. subst s.
    rewrite isSessionValid_typed, getSessionTimeRemaining_typed.
    cbn [Types.expiresAt]. rewrite (Date_parse_iso host e Hrange).
    split.
    + cbn. f_equal. apply Z.ltb_lt. lia.
    + destruct (iso_string e) eqn:E; [reflexivity|].
      cbn. f_equal. f_equal. Z.to_euclidean_division_equations. lia.
Qed.

End Validity.

(** Garbage in the cookie. *)
Lemma parseSessionFromCookie_total_witness :
  JSON_parse (lit "garbage") = Throw SyntaxError /\
  Auth.parseSessionFromCookie plain_host Fixture.now (lit "garbage") = Return VNull.
Proof.
  split; [reflexivity|].
  destruct (parseSessionFromCookie_total plain_host Fixture.now (lit "garbage"))
    as [(r & Hr & _ & Hnull & _) _].
  rewrite (Hnull SyntaxError eq_refl) in Hr. exact Hr.
Defined.


(** The session of the tests passes all three checks. *)
Lemma requireValidSession_order_witness :
  Auth.isSessionValid plain_host Fixture.now
    (Types.session_value Fixture.mockTypedSession) = Return true /\
  Auth.validateUser plain_host (Types.user Fixture.mockTypedSession) = Return true /\
  Auth.requireValidSession plain_host Fixture.now
    (Types.session_value Fixture.mockTypedSession) =
    Return (Types.User_value Fixture.mockUser).
Proof.
  split; [reflexivity|]. split; [reflexivity|].
  destruct (proj1 (proj2 (proj2 (requireValidSession_order plain_host Fixture.now
                                   (Some Fixture.mockTypedSession))))
              Fixture.mockTypedSession eq_refl)
    as (_ & _ & _ & _ & Hok & _).
  exact (Hok eq_refl eq_refl).
Defined.

(** The failing input of C7. *)
Lemma getSessionTimeRemaining_unparseable_witness :
  Types.expiresAt Fixture.sessionWithBadExpiry = Some (lit "not-a-date") /\
  lit "not-a-date" <> [] /\
  Date_parse plain_host (lit "not-a-date") = NaN /\
  Auth.getSessionTimeRemaining plain_host Fixture.now
    (Types.session_value Fixture.sessionWithBadExpiry) = Return NaN.
Proof.
  split; [reflexivity|]. split; [discriminate|]. split; [reflexivity|].
  apply (getSessionTimeRemaining_unparseable plain_host Fixture.now
           Fixture.sessionWithBadExpiry (lit "not-a-date"));
    [reflexivity | discriminate | reflexivity].
Defined.

(** An hour remains of the session of the tests, and it is valid; half a
    second before its expiry nothing remains, and it is valid still. *)
Lemma remaining_positive_implies_valid_witness :
  Auth.getSessionTimeRemaining plain_host Fixture.now Fixture.mockSession = Return (Int 3600) /\
  Auth.isSessionValid plain_host Fixture.now Fixture.mockSession = Return true /\
  Auth.isSessionValid plain_host (1704114000000 - 500) Fixture.mockSession = Return true /\
  Auth.getSessionTimeRemaining plain_host (1704114000000 - 500) Fixture.mockSession =
    Return (Int 0).
Proof.
  split; [reflexivity|].
  split; [exact (proj1 (remaining_positive_implies_valid plain_host Fixture.now)
                   Fixture.mockSession 3600 eq_refl eq_refl)|].
  apply (proj2 (remaining_positive_implies_valid plain_host (1704114000000 - 500))
           (Types.User_value Fixture.mockUser) (lit "token123") 1704114000000);
    [split; reflexivity | discriminate].
Defined.

(** * The cookie on the wire *)

Section Wire.
Context (host : Host).

(** C6, as the code has it. For every session and production flag,
    [serializeSessionToCookie] returns [session=<json>; HttpOnly; Secure;
    SameSite=lax; Max-Age=3600; Path=/], where [<json>] is
    [JSON.stringify] of the session, the segments are in that order and
    joined by a semicolon and a space, [Secure] is there exactly when the
    flag is set, and the value of [SameSite] is the option as written,
    [lax]. *)
Theorem serializeSessionToCookie_format (s : Types.AuthSession) (isProduction : bool) :
  exists json,
    JSON_stringify host (Types.session_value s) = Some json /\
    Auth.serializeSessionToCookie host (Types.session_value s) isProduction =
    lit "session=" ++ json ++ lit "; HttpOnly" ++
    (if isProduction then lit "; Secure" else []) ++
    lit "; SameSite=lax; Max-Age=3600; Path=/".
Proof.
  destruct (stringify_session_defined host s) as (json & E1 & E2).
  exists json. split; [exact E1|]. now rewrite serializeSessionToCookie_eq, E2.
Qed.

End Wire.

(** C6 as stated fails: the string is not the one with [SameSite=Lax]. *)
Lemma serializeSessionToCookie_not_capital_Lax :
  JSON_stringify plain_host Fixture.mockSession = Some Fixture.mockCookieValue /\
  Auth.serializeSessionToCookie plain_host Fixture.mockSession false <>
  lit "session=" ++ Fixture.mockCookieValue ++
  lit "; HttpOnly; SameSite=Lax; Max-Age=3600; Path=/".
Proof.
  split; [reflexivity|].
  rewrite serializeSessionToCookie_eq.
  change (template_of_json plain_host Fixture.mockSession) with Fixture.mockCookieValue.
  intros H. apply app_inv_head in H. apply app_inv_head in H. discriminate H.
Qed.

(** * Logout *)

(** C8. [createClearSessionCookie] is the fixed clear form, and the logout
    handler sets exactly that string as the [Set-Cookie] header of the
    response it returns, on the normal path and also when the first call
    of the redirect helper throws and the second answers. *)
Theorem logout_clears_cookie (redirect : Redirect) (w : World) :
  Auth.createClearSessionCookie =
    lit "session=; Path=/; Expires=Thu, 01 Jan 1970 00:00:00 GMT; HttpOnly; SameSite=Lax" /\
  (forall r,
     redirect (redirect_calls w) (lit "/?logout=success") = Return r ->
     exists w' r',
       Logout.POST redirect w = (Return r', w') /\
       r' = set_header (lit "Set-Cookie") Auth.createClearSessionCookie r /\
       headers_get (lit "Set-Cookie") (headers r') = Some Auth.createClearSessionCookie /\
       console w' = console w) /\
  (forall e r,
     redirect (redirect_calls w) (lit "/?logout=success") = Throw e ->
     redirect (S (redirect_calls w)) (lit "/?error=logout_failed") = Return r ->
     exists w' r',
       Logout.POST redirect w = (Return r', w') /\
       r' = set_header (lit "Set-Cookie") Auth.createClearSessionCookie r /\
       headers_get (lit "Set-Cookie") (headers r') = Some Auth.createClearSessionCookie /\
       console w' = console w ++ [(lit "Logout error:", LogError e)]).
Proof.
  split; [reflexivity|]. split.
  - intros r Hr. unfold Logout.POST, try_catch_io, bind_io, call_redirect, ret.
    rewrite Hr. eexists _, _. split; [reflexivity|]. split; [reflexivity|].
    split; [apply headers_get_set | reflexivity].
  - intros e r He Hr.
    unfold Logout.POST, try_catch_io, bind_io, call_redirect, console_error, ret.
    rewrite He. cbn [redirect_calls]. rewrite Hr.
    eexists _, _. split; [reflexivity|]. split; [reflexivity|].
    split; [apply headers_get_set | reflexivity].
Qed.

(** The redirect that fails once, as in the test. *)
Lemma logout_clears_cookie_witness :
  Fixture.failingOnceRedirect 0%nat (lit "/?logout=success") =
    Throw (HostError (lit "Redirect failed")) /\
  Fixture.failingOnceRedirect 1%nat (lit "/?error=logout_failed") =
    Return Fixture.mockResponse /\
  exists w' r',
    Logout.POST Fixture.failingOnceRedirect Fixture.emptyWorld = (Return r', w') /\
    r' = set_header (lit "Set-Cookie") Auth.createClearSessionCookie Fixture.mockResponse /\
    headers_get (lit "Set-Cookie") (headers r') = Some Auth.createClearSessionCookie /\
    console w' = console Fixture.emptyWorld ++
                 [(lit "Logout error:", LogError (HostError (lit "Redirect failed")))].
Proof.
  split; [reflexivity|]. split; [reflexivity|].
  apply (proj2 (proj2 (logout_clears_cookie Fixture.failingOnceRedirect Fixture.emptyWorld))
           (HostError (lit "Redirect failed")) Fixture.mockResponse); reflexivity.
Defined.

(** * The login callback *)

(** One awaited call of the handler that resolves as [H] says. *)
Ltac await H := unfold bind_io at 1; unfold lift at 1; rewrite H.

Section LoginCallback.
Context (host : Host) (now : Z) (ext : Google.Collaborators).

(** C9. On a login that succeeds, the [Set-Cookie] header of the response
    is [session=<json>; httpOnly=true; secure=<true|false>; sameSite=lax;
    maxAge=3600; path=/]: the entries of the cookie options joined as
    key=value pairs under their own names, not the attribute segments of
    [serializeSessionToCookie], whose string it never is. *)
Theorem callback_cookie_raw_options
  (request : Google.Request) (tokens : Google.Tokens) (user session : value)
  (w : World) (r : Response) :
  login_succeeds host now ext request tokens user ->
  Auth.createAuthSession now user
    (Google.or_else host (Google.access_token tokens) (VStr [])) 3600 = Return session ->
  Google.redirect ext (redirect_calls w) (lit "/?auth=success") = Return r ->
  exists w' r' json,
    Google.POST host now ext request w = (Return r', w') /\
    JSON_stringify host session = Some json /\
    r' = set_header (lit "Set-Cookie")
           (callback_cookie json (Google.is_production (Google.NODE_ENV ext))) r /\
    headers_get (lit "Set-Cookie") (headers r') =
      Some (lit "session=" ++ json ++ lit "; httpOnly=true; secure=" ++
            (if Google.is_production (Google.NODE_ENV ext) then lit "true" else lit "false") ++
            lit "; sameSite=lax; maxAge=3600; path=/") /\
    forall p,
      headers_get (lit "Set-Cookie") (headers r') <>
      Some (Auth.serializeSessionToCookie host session p).
Proof.
  intros (code & profile & found & Herr & Hcode & Hne & Htok & Hprof & Hid & Hemail & Hname
          & Hclient & Hfound & Hstore) Hsession Hredirect.
  destruct (createAuthSession_defined host _ _ _ _ _ Hsession) as (json & Ejson & Etemplate).
  assert (Hcookie :
    lit "session=" ++ template_of_json host session ++ lit "; " ++
    join (lit "; ")
      (map (fun '(key, value) => key ++ lit "=" ++ Google.option_to_string value)
         (Google.Object_entries
            (Auth.getSessionCookieOptions (Google.is_production (Google.NODE_ENV ext)))))
    = callback_cookie json (Google.is_production (Google.NODE_ENV ext))).
  { rewrite Etemplate. unfold callback_cookie.
    destruct (Google.is_production (Google.NODE_ENV ext)); reflexivity. }
  assert (Hrun : exists w',
    Google.POST host now ext request w =
    (Return (set_header (lit "Set-Cookie")
               (callback_cookie json (Google.is_production (Google.NODE_ENV ext))) r), w')).
  { unfold Google.POST, try_catch_io.
    rewrite Herr, Hcode.
    replace (jstr_eqb code []) with false
      by (symmetry; destruct (jstr_eqb code []) eqn:E;
          [apply jstr_eqb_eq in E; congruence | reflexivity]).
    await Htok. await Hprof.
    rewrite Hid, Hemail, Hname. cbn [negb orb].
    await Hclient. await Hfound.
    unfold bind_io at 1.
    destruct Hstore as [(Hbranch & stamp & updated & Hstamp & Hupd & Hok & ->)
                       |(Hbranch & created & Hins & Hok & ->)];
      rewrite Hbranch; unfold stored in Hok; apply andb_prop in Hok;
      destruct Hok as [Hnoerr Hdata]; apply negb_true_iff in Hnoerr.
    - await Hstamp. await Hupd.
      rewrite Hnoerr, Hdata. cbn [negb orb]. unfold ret at 1.
      await Hsession.
      unfold bind_io at 1. unfold call_redirect at 1. rewrite Hredirect.
      unfold ret. rewrite Hcookie. eauto.
    - await Hins.
      rewrite Hnoerr, Hdata. cbn [negb orb]. unfold ret at 1.
      await Hsession.
      unfold bind_io at 1. unfold call_redirect at 1. rewrite Hredirect.
      unfold ret. rewrite Hcookie. eauto. }
  destruct Hrun as (w' & Hrun).
  eexists w', _, json. split; [exact Hrun|]. split; [exact Ejson|]. split; [reflexivity|].
  cbn [set_header headers]. rewrite headers_get_set.
  split; [reflexivity|].
  intros p H. injection H as H. rewrite serializeSessionToCookie_eq, Etemplate in H.
  exact (callback_differs _ _ _ H).
Qed.

End LoginCallback.

(** The callback of the test: the account is new and the row is inserted. *)
Lemma callback_cookie_raw_options_witness :
  login_succeeds plain_host Fixture.now Fixture.mockCollaborators Fixture.mockRequest
    Fixture.mockTokens (Types.User_value Fixture.mockUser) /\
  exists w' r' json,
    Google.POST plain_host Fixture.now Fixture.mockCollaborators Fixture.mockRequest
      Fixture.emptyWorld = (Return r', w') /\
    JSON_stringify plain_host Fixture.mockCallbackSession = Some json /\
    r' = set_header (lit "Set-Cookie") (callback_cookie json false) Fixture.mockResponse /\
    headers_get (lit "Set-Cookie") (headers r') =
      Some (lit "session=" ++ json ++ lit "; httpOnly=true; secure=" ++ lit "false" ++
            lit "; sameSite=lax; maxAge=3600; path=/") /\
    forall p,
      headers_get (lit "Set-Cookie") (headers r') <>
      Some (Auth.serializeSessionToCookie plain_host Fixture.mockCallbackSession p).
Proof.
  assert (Hlogin : login_succeeds plain_host Fixture.now Fixture.mockCollaborators
                     Fixture.mockRequest Fixture.mockTokens
                     (Types.User_value Fixture.mockUser)).
  { exists (lit "mock-code"),
      {| Google.id := VStr (lit "google-123");
         Google.email := VStr (lit "test@example.com");
         Google.name := VStr (lit "Test User");
         Google.picture := VStr (lit "https://example.com/avatar.jpg") |},
      {| Google.data := VNull;
         Google.error := VObj [(lit "code", VStr (lit "PGRST116"))] |}.
    repeat (split; [first [reflexivity | discriminate]|]).
    right. split; [reflexivity|].
    exists {| Google.data := Types.User_value Fixture.mockUser; Google.error := VNull |}.
    repeat split; reflexivity. }
  split; [exact Hlogin|].
  apply (callback_cookie_raw_options plain_host Fixture.now Fixture.mockCollaborators
           Fixture.mockRequest Fixture.mockTokens (Types.User_value Fixture.mockUser)
           Fixture.mockCallbackSession Fixture.emptyWorld Fixture.mockResponse);
    [exact Hlogin | reflexivity | reflexivity].
Defined.

(** * Further properties of the session model *)

Lemma iso_string_nonempty t : iso_string t <> [].
Proof.
  unfold iso_string. destruct (civil_from_days (t / msPerDay)) as [[y m] d].
  intros H. apply (f_equal (@List.length N)) in H.
  rewrite !length_app in H. cbn [List.length lit list_ascii_of_string map] in H. lia.
Qed.

Lemma truthy_iso host t : truthy host (VStr (iso_string t)) = true.
Proof.
  cbn [truthy]. destruct (jstr_eqb (iso_string t) []) eqn:E; [|reflexivity].
  apply jstr_eqb_eq in E. destruct (iso_string_nonempty t E).
Qed.

(** What [createAuthSession] returns, whatever the user and the token are. *)
Lemma createAuthSession_eq now user token ttl session :
  Auth.createAuthSession now user token ttl = Return session ->
  Z.abs (now + ttl * 1000) <= maxTime /\
  session = VObj [(lit "user", user); (lit "accessToken", token);
                  (lit "expiresAt", VStr (iso_string (now + ttl * 1000)))].
Proof.
  unfold Auth.createAuthSession, Date_toISOString, TimeClip.
  destruct (Z.abs (now + ttl * 1000) <=? maxTime) eqn:E; [|discriminate].
  cbn [bind]. intros H. injection H as <-. apply Z.leb_le in E. now split.
Qed.

Section Lifetime.
Context (host : Host).

Lemma session_lifetime_eq (t0 t1 ttl : Z) (user token session : value) :
  Auth.createAuthSession t0 user token ttl = Return session ->
  Auth.isSessionValid host t1 session = Return (t1 <? t0 + ttl * 1000) /\
  Auth.isSessionExpired host t1 session = Return (t0 + ttl * 1000 <=? t1) /\
  Auth.getSessionTimeRemaining host t1 session =
    Return (Int (Z.max 0 ((t0 + ttl * 1000 - t1) / 1000))).
Proof.
  intros H. destruct (createAuthSession_eq _ _ _ _ _ H) as [Hrange ->].
  assert (Hvalid : Auth.isSessionValid host t1
            (VObj [(lit "user", user); (lit "accessToken", token);
                   (lit "expiresAt", VStr (iso_string (t0 + ttl * 1000)))]) =
          Return (t1 <? t0 + ttl * 1000)).
  { unfold Auth.isSessionValid. cbn [truthy negb Get bind].
    change (prop _ (lit "expiresAt")) with (VStr (iso_string (t0 + ttl * 1000))).
    rewrite truthy_iso. cbn [negb Date_getTime bind].
    now rewrite (Date_parse_iso host _ Hrange). }
  split; [exact Hvalid|]. split.
  - unfold Auth.isSessionExpired. rewrite Hvalid. cbn [bind]. f_equal.
    rewrite Z.leb_antisym. reflexivity.
  - unfold Auth.getSessionTimeRemaining. cbn [truthy negb Get bind].
    change (prop _ (lit "expiresAt")) with (VStr (iso_string (t0 + ttl * 1000))).
    rewrite truthy_iso. cbn [negb Date_getTime bind].
    now rewrite (Date_parse_iso host _ Hrange).
Qed.

(** X1. A session created at the instant [t0] with a time to live of [ttl]
    seconds and looked at at the instant [t1]: [isSessionValid] is true
    exactly while [t1] is before [t0] plus [ttl] seconds,
    [isSessionExpired] is its negation, and [getSessionTimeRemaining] is
    the whole seconds left, 0 from the expiry on. *)
Theorem session_lifetime (t0 t1 ttl : Z) (user token session : value) :
  Auth.createAuthSession t0 user token ttl = Return session ->
  Auth.isSessionValid host t1 session = Return (t1 <? t0 + ttl * 1000) /\
  Auth.isSessionExpired host t1 session = Return (t0 + ttl * 1000 <=? t1) /\
  Auth.getSessionTimeRemaining host t1 session =
    Return (Int (Z.max 0 ((t0 + ttl * 1000 - t1) / 1000))).
Proof. apply session_lifetime_eq. Qed.

End Lifetime.

(** The session of the tests half an hour on, and at the end of its hour. *)
Lemma session_lifetime_witness :
  Auth.createAuthSession Fixture.now (Types.User_value Fixture.mockUser)
    (VStr (lit "token123")) 3600 = Return Fixture.mockSession /\
  Auth.isSessionValid plain_host (Fixture.now + 1800000) Fixture.mockSession = Return true /\
  Auth.getSessionTimeRemaining plain_host (Fixture.now + 1800000) Fixture.mockSession =
    Return (Int 1800) /\
  Auth.isSessionExpired plain_host (Fixture.now + 3600000) Fixture.mockSession = Return true.
Proof.
  split; [reflexivity|].
  destruct (session_lifetime plain_host Fixture.now (Fixture.now + 1800000) 3600
              (Types.User_value Fixture.mockUser) (VStr (lit "token123"))
              Fixture.mockSession eq_refl) as (Hvalid & _ & Hleft).
  destruct (session_lifetime plain_host Fixture.now (Fixture.now + 3600000) 3600
              (Types.User_value Fixture.mockUser) (VStr (lit "token123"))
              Fixture.mockSession eq_refl) as (_ & Hexpired & _).
  split; [exact Hvalid|]. split; [exact Hleft | exact Hexpired].
Defined.


(** X2. [createAuthSession] returns the object with the three fields
    [user], [accessToken] and [expiresAt], the expiry in ISO form, when the
    expiry is a time value (at most 8.64e15 milliseconds from the epoch);
    beyond that [toISOString] throws a [RangeError] and so does
    [createAuthSession]. *)
Theorem createAuthSession_range (now ttl : Z) (user token : value) :
  (Z.abs (now + ttl * 1000) <= maxTime ->
   Auth.createAuthSession now user token ttl =
     Return (VObj [(lit "user", user); (lit "accessToken", token);
                   (lit "expiresAt", VStr (iso_string (now + ttl * 1000)))])) /\
  (maxTime < Z.abs (now + ttl * 1000) ->
   Auth.createAuthSession now user token ttl = Throw RangeError).
Proof.
  unfold Auth.createAuthSession, Date_toISOString, TimeClip. split; intros H.
  - apply Z.leb_le in H. now rewrite H.
  - apply Z.leb_gt in H. now rewrite H.
Qed.

Section Users.
Context (host : Host) (now : Z).

(** X3. [getUserFromSession] throws on no value: it returns what
    [requireValidSession] returns and [null] where that throws. A result
    other than [null] is the [user] of the session, the session satisfies
    [isSessionValid] and the user satisfies [validateUser]. *)
Theorem getUserFromSession_cases (v : value) :
  exists r,
    Auth.getUserFromSession host now v = Return r /\
    (forall u, Auth.requireValidSession host now v = Return u -> r = u) /\
    (forall e, Auth.requireValidSession host now v = Throw e -> r = VNull) /\
    (r <> VNull ->
     r = prop v (lit "user") /\
     Auth.isSessionValid host now v = Return true /\
     Auth.validateUser host r = Return true).
Proof.
  unfold Auth.getUserFromSession.
  destruct (Auth.requireValidSession host now v) as [u|e] eqn:E; cbn [try_catch].
  - exists u. split; [reflexivity|]. split; [intros u' H; now injection H|].
    split; [discriminate|]. intros _.
    unfold Auth.requireValidSession in E.
    destruct (truthy host v) eqn:Ht; cbn [negb] in E; [|discriminate].
    destruct (Auth.isSessionValid host now v) as [[|]|e]; cbn [bind negb] in E;
      try discriminate.
    assert (Hget : Get v (lit "user") = Return (prop v (lit "user"))).
    { destruct v; try reflexivity; discriminate Ht. }
    rewrite Hget in E. cbn [bind] in E.
    destruct (Auth.validateUser host (prop v (lit "user"))) as [[|]|e] eqn:Ev;
      cbn [bind negb] in E; try discriminate.
    injection E as <-. auto.
  - exists VNull. split; [reflexivity|]. split; [discriminate|]. split; [reflexivity|].
    congruence.
Qed.

(** X4. [validateUser] throws on no value; it is false on a value that is
    no object, on [null] and on an array; on a row of the users table it is
    true exactly when [id], [google_id], [email], [name], [created_at] and
    [updated_at] are not empty, whatever [avatar_url] is. *)
Theorem validateUser_cases (v : value) (u : Types.User) :
  (exists b, Auth.validateUser host v = Return b) /\
  (typeof_object v = false -> Auth.validateUser host v = Return false) /\
  (v = VNull -> Auth.validateUser host v = Return false) /\
  (forall items, v = VArr items -> Auth.validateUser host v = Return false) /\
  Auth.validateUser host (Types.User_value u) =
    Return (nonempty (Types.id u) && nonempty (Types.google_id u) &&
            nonempty (Types.email u) && nonempty (Types.name u) &&
            nonempty (Types.created_at u) && nonempty (Types.updated_at u)).
Proof.
  split; [apply validateUser_total|].
  split; [intros H; rewrite validateUser_eq, H, andb_false_r; reflexivity|].
  split; [intros ->; reflexivity|].
  split; [intros items ->; reflexivity|].
  rewrite validateUser_eq. destruct u as [i g e n a c up].
  unfold nonempty.
  cbn [Types.id Types.google_id Types.email Types.name Types.created_at Types.updated_at].
  cbn. rewrite !andb_assoc, andb_true_r. reflexivity.
Qed.

End Users.

(** * The gate and the library *)

Section GateLibrary.
Context (host : Host) (now : Z).

(** The gate on a cookie that parses, by what [isSessionValid] says. *)
Lemma onRequest_parsed {R : Type} (next : io R) (w : World) (c : jstr) (v : value) (b : bool) :
  cookie_value (lit "session") (cookies w) = Some c ->
  JSON_parse c = Return v ->
  Auth.isSessionValid host now v = Return b ->
  Middleware.onRequest host now next w =
  next {| cookies := cookies w;
          deleted := if b then deleted w else deleted w ++ [(lit "session", lit "/")];
          locals := Some {| App.session := if b then v else VNull;
                            App.user := if b
                                        then (if truthy host (prop v (lit "user"))
                                              then prop v (lit "user") else VNull)
                                        else VNull;
                            App.isAuthenticated := b |};
          console := console w;
          redirect_calls := redirect_calls w |}.
Proof.
  intros Hc Hv Hb.
  unfold Middleware.onRequest, bind_io at 1, cookies_get. rewrite Hc.
  unfold bind_io at 1, try_catch_io, bind_io at 1, lift at 1. rewrite Hv.
  unfold bind_io at 1, lift at 1. rewrite Hb.
  destruct b.
  - unfold ret at 1, bind_io, set_locals.
    pose proof (isSessionValid_truthy _ _ _ Hb) as Ht. rewrite Ht.
    assert (Hget : Get_optional v (lit "user") = prop v (lit "user")).
    { destruct v; try reflexivity; discriminate Ht. }
    rewrite Hget. reflexivity.
  - unfold bind_io, cookies_delete, ret, set_locals. reflexivity.
Qed.

(** X5. The middleware and the library agree: when the request carries a
    session cookie, [locals.session] is what [parseSessionFromCookie]
    returns for the value of the cookie. When that is [null] the request
    is not authenticated and the cookie is deleted; otherwise the request
    is authenticated and nothing is deleted. *)
Theorem gate_session_is_parseSessionFromCookie {R : Type} (next : io R) (w : World)
  (c : jstr) :
  cookie_value (lit "session") (cookies w) = Some c ->
  exists w' l,
    Middleware.onRequest host now next w = next w' /\
    locals w' = Some l /\
    Auth.parseSessionFromCookie host now c = Return (App.session l) /\
    (App.session l = VNull ->
     App.isAuthenticated l = false /\
     deleted w' = deleted w ++ [(lit "session", lit "/")]) /\
    (App.session l <> VNull ->
     App.isAuthenticated l = true /\ deleted w' = deleted w).
Proof.
  intros Hc. unfold Auth.parseSessionFromCookie.
  destruct (JSON_parse c) as [v|e] eqn:Eparse; cbn [bind try_catch].
  - destruct (Auth.isSessionValid host now v) as [[|]|e] eqn:Evalid.
    + rewrite (onRequest_parsed next w c v true Hc Eparse Evalid).
      eexists _, _. split; [reflexivity|]. split; [reflexivity|].
      cbn [bind try_catch App.session App.isAuthenticated deleted].
      split; [reflexivity|].
      pose proof (isSessionValid_truthy _ _ _ Evalid) as Ht.
      split; [intros ->; discriminate Ht | auto].
    + rewrite (onRequest_parsed next w c v false Hc Eparse Evalid).
      eexists _, _. split; [reflexivity|]. split; [reflexivity|].
      cbn [bind try_catch App.session App.isAuthenticated deleted].
      split; [reflexivity|]. split; [auto | congruence].
    + unfold Middleware.onRequest, bind_io at 1, cookies_get. rewrite Hc.
      unfold bind_io at 1, try_catch_io, bind_io at 1, lift at 1. rewrite Eparse.
      unfold bind_io at 1, lift at 1. rewrite Evalid.
      unfold bind_io, console_error, cookies_delete, ret, set_locals.
      eexists _, _. split; [reflexivity|]. split; [reflexivity|].
      cbn [bind try_catch App.session App.isAuthenticated deleted truthy].
      split; [reflexivity|]. split; [auto | congruence].
  - unfold Middleware.onRequest, bind_io at 1, cookies_get. rewrite Hc.
    unfold bind_io at 1, try_catch_io, bind_io at 1, lift at 1. rewrite Eparse.
    unfold bind_io, console_error, cookies_delete, ret, set_locals.
    eexists _, _. split; [reflexivity|]. split; [reflexivity|].
    cbn [bind try_catch App.session App.isAuthenticated deleted truthy].
    split; [reflexivity|]. split; [auto | congruence].
Qed.

End GateLibrary.

(** The gate on the cookie of the tests. *)
Lemma gate_session_is_parseSessionFromCookie_witness :
  cookie_value (lit "session") (cookies (Fixture.worldWithCookie Fixture.mockCookieValue))
    = Some Fixture.mockCookieValue /\
  exists w' l,
    Middleware.onRequest plain_host Fixture.now (ret tt)
      (Fixture.worldWithCookie Fixture.mockCookieValue) = ret tt w' /\
    locals w' = Some l /\
    Auth.parseSessionFromCookie plain_host Fixture.now Fixture.mockCookieValue =
      Return (App.session l) /\
    App.isAuthenticated l = true /\
    deleted w' = [].
Proof.
  split; [reflexivity|].
  destruct (gate_session_is_parseSessionFromCookie plain_host Fixture.now (ret tt)
              (Fixture.worldWithCookie Fixture.mockCookieValue) Fixture.mockCookieValue
              eq_refl) as (w' & l & Hrun & Hl & Hparse & _ & Hsome).
  assert (Hsession : App.session l <> VNull).
  { assert (E : Auth.parseSessionFromCookie plain_host Fixture.now Fixture.mockCookieValue
                = Return Fixture.mockSession) by reflexivity.
    rewrite E in Hparse. injection Hparse as <-. discriminate. }
  destruct (Hsome Hsession) as (Hauth & Hdeleted).
  exists w', l. split; [exact Hrun|]. split; [exact Hl|]. split; [exact Hparse|].
  split; [exact Hauth | exact Hdeleted].
Defined.


Section LoginThenGate.
Context (host : Host).

(** X6. A session of one hour, serialized with [JSON.stringify] and sent
    back as the value of the session cookie, passes the middleware before
    the hour is over: the request is authenticated, [locals.session] is the
    session and [locals.user] its user. From the end of the hour on the
    request is not authenticated and the cookie is deleted. *)
Theorem fresh_session_passes_gate {R : Type} (next : io R) (u : Types.User) (token : jstr)
  (t0 t1 : Z) (session : value) (json : jstr) (w : World) :
  wf_user u = true ->
  wf_string token = true ->
  Auth.createAuthSession t0 (Types.User_value u) (VStr token) 3600 = Return session ->
  JSON_stringify host session = Some json ->
  cookie_value (lit "session") (cookies w) = Some json ->
  exists w' l,
    Middleware.onRequest host t1 next w = next w' /\
    locals w' = Some l /\
    (t1 < t0 + 3600000 ->
     App.isAuthenticated l = true /\ App.session l = session /\
     App.user l = Types.User_value u /\ deleted w' = deleted w) /\
    (t0 + 3600000 <= t1 ->
     App.isAuthenticated l = false /\ App.session l = VNull /\
     App.user l = VNull /\ deleted w' = deleted w ++ [(lit "session", lit "/")]).
Proof.
  intros Hu Htoken Hcreate Ejson Hcookie.
  destruct (session_lifetime_eq host t0 t1 3600 _ _ _ Hcreate) as (Hvalid & _).
  destruct (createAuthSession_eq _ _ _ _ _ Hcreate) as [Hrange ->].
  assert (Hsafe : json_safe
            (VObj [(lit "user", Types.User_value u); (lit "accessToken", VStr token);
                   (lit "expiresAt", VStr (iso_string (t0 + 3600 * 1000)))]) = true).
  { cbn [json_safe fields_safe].
    rewrite (json_safe_user u Hu). cbn [json_safe]. rewrite Htoken, wf_string_iso.
    reflexivity. }
  rewrite (onRequest_parsed host t1 next w json _ _ Hcookie
             (JSON_parse_stringify host _ json Hsafe Ejson) Hvalid).
  eexists _, _. split; [reflexivity|]. split; [reflexivity|].
  cbn [App.isAuthenticated App.session App.user deleted].
  change (3600 * 1000) with 3600000.
  split; intros Ht.
  - apply Z.ltb_lt in Ht. rewrite Ht. auto.
  - apply Z.ltb_ge in Ht. rewrite Ht. auto.
Qed.

End LoginThenGate.

(** The session of the tests, a minute after the login. *)
Lemma fresh_session_passes_gate_witness :
  wf_user Fixture.mockUser = true /\
  wf_string (lit "token123") = true /\
  Auth.createAuthSession Fixture.now (Types.User_value Fixture.mockUser)
    (VStr (lit "token123")) 3600 = Return Fixture.mockSession /\
  JSON_stringify plain_host Fixture.mockSession = Some Fixture.mockCookieValue /\
  cookie_value (lit "session") (cookies (Fixture.worldWithCookie Fixture.mockCookieValue))
    = Some Fixture.mockCookieValue /\
  exists w' l,
    Middleware.onRequest plain_host (Fixture.now + 60000) (ret tt)
      (Fixture.worldWithCookie Fixture.mockCookieValue) = ret tt w' /\
    locals w' = Some l /\
    App.isAuthenticated l = true /\
    App.session l = Fixture.mockSession /\
    App.user l = Types.User_value Fixture.mockUser.
Proof.
  repeat (split; [reflexivity|]).
  destruct (fresh_session_passes_gate plain_host (ret tt) Fixture.mockUser (lit "token123")
              Fixture.now (Fixture.now + 60000) Fixture.mockSession Fixture.mockCookieValue
              (Fixture.worldWithCookie Fixture.mockCookieValue)
              eq_refl eq_refl eq_refl eq_refl eq_refl) as (w' & l & Hrun & Hl & Hin & _).
  destruct (Hin eq_refl) as (Hauth & Hsession & Huser & _).
  exists w', l. auto.
Defined.


(** * The callback, read backwards *)

Lemma bind_io_lift_inv {A B : Type} (m : outcome A) (k : A -> io B) (w w' : World) (r : B) :
  bind_io (lift m) k w = (Return r, w') ->
  exists a, m = Return a /\ k a w = (Return r, w').
Proof.
  unfold bind_io, lift. destruct m as [a|e]; [eauto | discriminate].
Qed.

Lemma call_redirect_inv (rd : Redirect) (target : jstr) (w w' : World) (r : Response) :
  call_redirect rd target w = (Return r, w') ->
  rd (redirect_calls w) target = Return r /\ redirect_calls w' = S (redirect_calls w) /\
  console w' = console w.
Proof.
  unfold call_redirect. intros H. injection H as H <-. auto.
Qed.

Lemma bind_io_call_redirect_inv {B : Type} (rd : Redirect) (target : jstr)
  (k : Response -> io B) (w w' : World) (r : B) :
  bind_io (call_redirect rd target) k w = (Return r, w') ->
  exists r0, rd (redirect_calls w) target = Return r0 /\
    k r0 {| cookies := cookies w; deleted := deleted w; locals := locals w;
            console := console w; redirect_calls := S (redirect_calls w) |} = (Return r, w').
Proof.
  unfold bind_io, call_redirect.
  destruct (rd (redirect_calls w) target) as [r0|e]; [eauto | discriminate].
Qed.

Section CallbackInversion.
Context (host : Host) (now : Z) (ext : Google.Collaborators).

Lemma POST_inv (request : Google.Request) (w w' : World) (r' : Response) :
  Google.POST host now ext request w = (Return r', w') ->
  (exists tokens user session r,
     login_succeeds host now ext request tokens user /\
     Auth.createAuthSession now user
       (Google.or_else host (Google.access_token tokens) (VStr [])) 3600 = Return session /\
     Google.redirect ext (redirect_calls w) (lit "/?auth=success") = Return r /\
     r' = set_header (lit "Set-Cookie")
            (lit "session=" ++ template_of_json host session ++ lit "; " ++
             join (lit "; ")
               (map (fun '(key, value) => key ++ lit "=" ++ Google.option_to_string value)
                  (Google.Object_entries
                     (Auth.getSessionCookieOptions
                        (Google.is_production (Google.NODE_ENV ext))))))
            r)
  \/
  (exists n target,
     In target error_targets /\ Google.redirect ext n target = Return r').
Proof.
  unfold Google.POST, try_catch_io.
  match goal with
  | |- context [match ?b w with _ => _ end] => destruct (b w) as [[r0|e] w1] eqn:Ebody
  end.
  - intros H. injection H as <- <-.
    destruct (Google.option_truthy (Google.oauth_error request)) eqn:Herr.
    + right. unfold bind_io at 1, console_error at 1 in Ebody.
      apply call_redirect_inv in Ebody. destruct Ebody as (Hr & _).
      eexists _, _. split; [|exact Hr]. cbn; auto.
    + destruct (Google.code request) as [code|] eqn:Hcode; [|discriminate Ebody].
      destruct (jstr_eqb code []) eqn:Hne; [discriminate Ebody|].
      apply bind_io_lift_inv in Ebody. destruct Ebody as (tokens & Htok & Ebody).
      apply bind_io_lift_inv in Ebody. destruct Ebody as (profile & Hprof & Ebody).
      destruct (truthy host (Google.id profile)) eqn:Hid; [|discriminate Ebody].
      destruct (truthy host (Google.email profile)) eqn:Hemail; [|discriminate Ebody].
      destruct (truthy host (Google.name profile)) eqn:Hname; [|discriminate Ebody].
      cbn [negb orb] in Ebody.
      apply bind_io_lift_inv in Ebody. destruct Ebody as ([] & Hclient & Ebody).
      apply bind_io_lift_inv in Ebody. destruct Ebody as (found & Hfound & Ebody).
      unfold bind_io at 1 in Ebody.
      match type of Ebody with
      | context [match ?u w with _ => _ end] => destruct (u w) as [[user|e] w2] eqn:Euser
      end; [|discriminate Ebody].
      apply bind_io_lift_inv in Ebody. destruct Ebody as (session & Hsession & Ebody).
      apply bind_io_call_redirect_inv in Ebody. destruct Ebody as (r & Hr & Ebody).
      unfold ret in Ebody. injection Ebody as <- <-.
      assert (Hne' : code <> []).
      { intros ->. discriminate Hne. }
      assert (Hlogin : login_succeeds host now ext request tokens user /\ w2 = w).
      { destruct (truthy host (Google.data found) && negb (truthy host (Google.error found)))
          eqn:Hbranch.
        - apply bind_io_lift_inv in Euser. destruct Euser as (stamp & Hstamp & Euser).
          apply bind_io_lift_inv in Euser. destruct Euser as (updated & Hupd & Euser).
          destruct (truthy host (Google.error updated)) eqn:Hue; [discriminate Euser|].
          destruct (truthy host (Google.data updated)) eqn:Hud; [|discriminate Euser].
          cbn [negb orb] in Euser. unfold ret in Euser. injection Euser as <- <-.
          split; [|reflexivity].
          exists code, profile, found. repeat (split; [assumption|]).
          left. split; [exact Hbranch|]. exists stamp, updated.
          split; [exact Hstamp|]. split; [exact Hupd|].
          split; [unfold stored; rewrite Hue, Hud; reflexivity | reflexivity].
        - apply bind_io_lift_inv in Euser. destruct Euser as (created & Hins & Euser).
          destruct (truthy host (Google.error created)) eqn:Hce; [discriminate Euser|].
          destruct (truthy host (Google.data created)) eqn:Hcd; [|discriminate Euser].
          cbn [negb orb] in Euser. unfold ret in Euser. injection Euser as <- <-.
          split; [|reflexivity].
          exists code, profile, found. repeat (split; [assumption|]).
          right. split; [exact Hbranch|]. exists created.
          split; [exact Hins|].
          split; [unfold stored; rewrite Hce, Hcd; reflexivity | reflexivity]. }
      destruct Hlogin as [Hlogin ->].
      left. exists tokens, user, session, r. auto.
  - intros H. right. unfold bind_io at 1, console_error at 1 in H.
    destruct e; apply call_redirect_inv in H; destruct H as (Hr & _);
      (eexists _, _; split; [|exact Hr]); cbn; auto.
Qed.

(** X7. The callback sets the session cookie on a login that went through
    and on no other path: when the responses of [redirect] carry no
    [Set-Cookie] header and the response of the callback does, the code was
    exchanged, the profile was complete and the store returned the user. *)
Theorem callback_cookie_only_on_success (request : Google.Request) (w w' : World)
  (r' : Response) :
  (forall n target r,
     Google.redirect ext n target = Return r ->
     headers_get (lit "Set-Cookie") (headers r) = None) ->
  Google.POST host now ext request w = (Return r', w') ->
  headers_get (lit "Set-Cookie") (headers r') <> None ->
  exists tokens user, login_succeeds host now ext request tokens user.
Proof.
  intros Hplain Hrun Hcookie.
  destruct (POST_inv _ _ _ _ Hrun)
    as [(tokens & user & session & r & Hlogin & _)|(n & target & _ & Hr)].
  - eauto.
  - destruct (Hcookie (Hplain _ _ _ Hr)).
Qed.

(** X8. When [redirect] answers every call, the callback throws nothing:
    it returns a response, after a login that went through or else the
    response [redirect] gave for one of the four error pages. *)
Theorem callback_always_redirects (request : Google.Request) (w : World) :
  (forall n target, exists r, Google.redirect ext n target = Return r) ->
  exists r' w',
    Google.POST host now ext request w = (Return r', w') /\
    ((exists tokens user, login_succeeds host now ext request tokens user) \/
     (exists n target,
        In target error_targets /\ Google.redirect ext n target = Return r')).
Proof.
  intros Htotal.
  assert (Hrun : exists r' w', Google.POST host now ext request w = (Return r', w')).
  { unfold Google.POST, try_catch_io.
    match goal with
    | |- context [match ?b w with _ => _ end] => destruct (b w) as [[r0|e] w1]
    end; [eauto|].
    unfold bind_io at 1, console_error at 1, call_redirect.
    destruct e;
      match goal with
      | |- context [Google.redirect ext ?n ?t] =>
          destruct (Htotal n t) as (r & ->); eauto
      end. }
  destruct Hrun as (r' & w' & Hrun). exists r', w'. split; [exact Hrun|].
  destruct (POST_inv _ _ _ _ Hrun)
    as [(tokens & user & session & r & Hlogin & _)|H]; eauto.
Qed.

End CallbackInversion.

(** The callback of the test sets the cookie, and the login went through. *)
Lemma callback_cookie_only_on_success_witness :
  (forall n target r,
     Fixture.mockRedirect n target = Return r ->
     headers_get (lit "Set-Cookie") (headers r) = None) /\
  exists r' w',
    Google.POST plain_host Fixture.now Fixture.mockCollaborators Fixture.mockRequest
      Fixture.emptyWorld = (Return r', w') /\
    headers_get (lit "Set-Cookie") (headers r') <> None /\
    exists tokens user,
      login_succeeds plain_host Fixture.now Fixture.mockCollaborators Fixture.mockRequest
        tokens user.
Proof.
  assert (Hplain : forall n target r,
            Fixture.mockRedirect n target = Return r ->
            headers_get (lit "Set-Cookie") (headers r) = None).
  { intros n target r H. injection H as <-. reflexivity. }
  split; [exact Hplain|].
  eexists _, _. split; [reflexivity|]. split; [discriminate|].
  eapply (callback_cookie_only_on_success plain_host Fixture.now Fixture.mockCollaborators
            Fixture.mockRequest Fixture.emptyWorld);
    [exact Hplain | reflexivity | discriminate].
Defined.

(** The callback with a profile that lacks its email answers with an
    error page. *)
Lemma callback_always_redirects_witness :
  (forall n target, exists r, Fixture.mockRedirect n target = Return r) /\
  exists r' w',
    Google.POST plain_host Fixture.now Sample.collaboratorsWithoutEmail Fixture.mockRequest
      Fixture.emptyWorld = (Return r', w') /\
    ((exists tokens user,
        login_succeeds plain_host Fixture.now Sample.collaboratorsWithoutEmail
          Fixture.mockRequest tokens user) \/
     (exists n target,
        In target error_targets /\ Fixture.mockRedirect n target = Return r')).
Proof.
  assert (Htotal : forall n target, exists r, Fixture.mockRedirect n target = Return r).
  { intros n target. eexists. reflexivity. }
  split; [exact Htotal|].
  exact (callback_always_redirects plain_host Fixture.now Sample.collaboratorsWithoutEmail
           Fixture.mockRequest Fixture.emptyWorld Htotal).
Defined.


Section CallbackRejections.
Context (host : Host) (now : Z) (ext : Google.Collaborators).

Lemma handler_run (e : exn) (w : World) (r : Response) :
  Google.redirect ext (redirect_calls w) (error_page e) = Return r ->
  (console_error (lit "Authentication error:") (LogError e) ;;;
   match e with
   | ValidationError _ => call_redirect (Google.redirect ext) (lit "/?error=invalid_request")
   | AuthenticationError _ => call_redirect (Google.redirect ext) (lit "/?error=auth_failed")
   | _ => call_redirect (Google.redirect ext) (lit "/?error=server_error")
   end) w =
  (Return r, logged_and_redirected w [(lit "Authentication error:", LogError e)]).
Proof.
  intros H. unfold bind_io, console_error, call_redirect, logged_and_redirected.
  destruct e; cbn [error_page redirect_calls] in *; rewrite H; reflexivity.
Qed.

(** X9. What the callback does with a request it cannot use. With an
    [error] parameter in the URL it logs the error and answers with the
    redirect to [/?error=oauth_denied], whatever the code is; without
    [error] and without a code it answers with the redirect to
    [/?error=invalid_request], having logged the [ValidationError]. Neither
    response is given a cookie. *)
Theorem callback_rejects_request (request : Google.Request) (w : World) (r : Response) :
  (forall e,
     Google.oauth_error request = Some e -> e <> [] ->
     Google.redirect ext (redirect_calls w) (lit "/?error=oauth_denied") = Return r ->
     Google.POST host now ext request w =
       (Return r, logged_and_redirected w [(lit "OAuth error:", LogValue (VStr e))])) /\
  (Google.option_truthy (Google.oauth_error request) = false ->
   Google.option_truthy (Google.code request) = false ->
   Google.redirect ext (redirect_calls w) (lit "/?error=invalid_request") = Return r ->
   Google.POST host now ext request w =
     (Return r,
      logged_and_redirected w
        [(lit "Authentication error:",
          LogError (ValidationError (lit "Authorization code is required")))])).
Proof.
  split.
  - intros e He Hne Hr. unfold Google.POST, try_catch_io. rewrite He.
    assert (Ht : Google.option_truthy (Some e) = true).
    { cbn. destruct (jstr_eqb e []) eqn:E; [|reflexivity].
      apply jstr_eqb_eq in E. congruence. }
    rewrite Ht. unfold bind_io, console_error, call_redirect. cbn [redirect_calls].
    rewrite Hr. reflexivity.
  - intros Herr Hcode Hr. unfold Google.POST, try_catch_io. rewrite Herr.
    destruct (Google.code request) as [c|]; cbn [Google.option_truthy] in Hcode.
    + apply negb_false_iff in Hcode. rewrite Hcode. unfold raise at 1.
      now apply handler_run.
    + unfold raise at 1. now apply handler_run.
Qed.

(** X10. What the callback does when a party fails. An exception of the
    token exchange or of the profile request leads to the error page of
    its class; a profile without id, email or name leads to
    [/?error=auth_failed]; so does an insert that returns an error or no
    row, after the error of the store is logged. The response is the one
    [redirect] returned, without a cookie. *)
Theorem callback_rejects_upstream (request : Google.Request) (w : World) (r : Response)
  (code : jstr) :
  Google.option_truthy (Google.oauth_error request) = false ->
  Google.code request = Some code ->
  code <> [] ->
  (forall e,
     Google.getToken ext code = Throw e ->
     Google.redirect ext (redirect_calls w) (error_page e) = Return r ->
     Google.POST host now ext request w =
       (Return r, logged_and_redirected w [(lit "Authentication error:", LogError e)])) /\
  (forall tokens e,
     Google.getToken ext code = Return tokens ->
     Google.userinfo_get ext tokens = Throw e ->
     Google.redirect ext (redirect_calls w) (error_page e) = Return r ->
     Google.POST host now ext request w =
       (Return r, logged_and_redirected w [(lit "Authentication error:", LogError e)])) /\
  (forall tokens profile,
     Google.getToken ext code = Return tokens ->
     Google.userinfo_get ext tokens = Return profile ->
     truthy host (Google.id profile) && truthy host (Google.email profile)
       && truthy host (Google.name profile) = false ->
     Google.redirect ext (redirect_calls w) (lit "/?error=auth_failed") = Return r ->
     Google.POST host now ext request w =
       (Return r,
        logged_and_redirected w
          [(lit "Authentication error:",
            LogError (AuthenticationError (lit "Incomplete user information from Google")))])) /\
  (forall tokens profile found created,
     Google.getToken ext code = Return tokens ->
     Google.userinfo_get ext tokens = Return profile ->
     truthy host (Google.id profile) && truthy host (Google.email profile)
       && truthy host (Google.name profile) = true ->
     Google.createClient ext = Return tt ->
     Google.select_user ext (Google.id profile) = Return found ->
     truthy host (Google.data found) && negb (truthy host (Google.error found)) = false ->
     Google.insert_user ext
       (VObj [(lit "google_id", Google.id profile);
              (lit "email", Google.email profile);
              (lit "name", Google.name profile);
              (lit "avatar_url", Google.or_else host (Google.picture profile) VNull)])
       = Return created ->
     stored host created = false ->
     Google.redirect ext (redirect_calls w) (lit "/?error=auth_failed") = Return r ->
     Google.POST host now ext request w =
       (Return r,
        logged_and_redirected w
          [(lit "Error creating user:", LogValue (Google.error created));
           (lit "Authentication error:",
            LogError (AuthenticationError (lit "Failed to create user account")))])).
Proof.
  intros Herr Hcode Hne.
  assert (Hne' : jstr_eqb code [] = false).
  { destruct (jstr_eqb code []) eqn:E; [|reflexivity]. apply jstr_eqb_eq in E. congruence. }
  split; [|split; [|split]].
  - intros e Htok Hr. unfold Google.POST, try_catch_io. rewrite Herr, Hcode, Hne'.
    await Htok. now apply handler_run.
  - intros tokens e Htok Hprof Hr. unfold Google.POST, try_catch_io.
    rewrite Herr, Hcode, Hne'. await Htok. await Hprof. now apply handler_run.
  - intros tokens profile Htok Hprof Hinc Hr. unfold Google.POST, try_catch_io.
    rewrite Herr, Hcode, Hne'. await Htok. await Hprof.
    assert (E : negb (truthy host (Google.id profile))
                || negb (truthy host (Google.email profile))
                || negb (truthy host (Google.name profile)) = true).
    { rewrite <- !negb_andb. now rewrite Hinc. }
    rewrite E. unfold raise at 1. now apply handler_run.
  - intros tokens profile found created Htok Hprof Hcomplete Hclient Hfound Hbranch Hins
      Hbad Hr.
    unfold Google.POST, try_catch_io.
    rewrite Herr, Hcode, Hne'. await Htok. await Hprof.
    assert (E : negb (truthy host (Google.id profile))
                || negb (truthy host (Google.email profile))
                || negb (truthy host (Google.name profile)) = false).
    { rewrite <- !negb_andb. now rewrite Hcomplete. }
    rewrite E. await Hclient. await Hfound.
    unfold bind_io at 1. rewrite Hbranch. await Hins.
    assert (E' : truthy host (Google.error created) || negb (truthy host (Google.data created))
                 = true).
    { unfold stored in Hbad.
      destruct (truthy host (Google.error created)), (truthy host (Google.data created));
        (reflexivity || discriminate Hbad). }
    rewrite E'. unfold bind_io at 1, console_error at 1, raise at 1.
    unfold bind_io, console_error, call_redirect, logged_and_redirected.
    cbn [redirect_calls console cookies deleted locals]. rewrite Hr.
    rewrite <- app_assoc. reflexivity.
Qed.

End CallbackRejections.

(** The callback of the test with a profile that lacks its email. *)
Lemma callback_rejects_upstream_witness :
  Google.option_truthy (Google.oauth_error Fixture.mockRequest) = false /\
  Google.code Fixture.mockRequest = Some (lit "mock-code") /\
  lit "mock-code" <> [] /\
  Google.POST plain_host Fixture.now Sample.collaboratorsWithoutEmail Fixture.mockRequest
    Fixture.emptyWorld =
  (Return Fixture.mockResponse,
   logged_and_redirected Fixture.emptyWorld
     [(lit "Authentication error:",
       LogError (AuthenticationError (lit "Incomplete user information from Google")))]).
Proof.
  split; [reflexivity|]. split; [reflexivity|]. split; [discriminate|].
  destruct (callback_rejects_upstream plain_host Fixture.now Sample.collaboratorsWithoutEmail
              Fixture.mockRequest Fixture.emptyWorld Fixture.mockResponse (lit "mock-code")
              eq_refl eq_refl ltac:(discriminate)) as (_ & _ & Hprofile & _).
  exact (Hprofile Fixture.mockTokens
           {| Google.id := VStr (lit "google-123"); Google.email := VNull;
              Google.name := VStr (lit "Test User"); Google.picture := VNull |}
           eq_refl eq_refl eq_refl eq_refl).
Defined.


(** * The start of the login flow and the store client *)

Section StartProperties.
Context (host : Host).

(** X11. The [GET] handler of the login route throws nothing. It answers
    with what [redirect] returns for the consent URL, and when the URL
    cannot be generated or [redirect] throws, with status 500, content type
    [application/json] and a body that parses to the object with the two
    fields [error] and [message], having logged the exception. *)
Theorem google_GET_total (generateAuthUrl : outcome jstr) (redirect : Redirect) (w : World) :
  exists r w',
    GoogleStart.GET host generateAuthUrl redirect w = (Return r, w') /\
    (forall authUrl response,
       generateAuthUrl = Return authUrl ->
       redirect (redirect_calls w) authUrl = Return response ->
       r = inl response /\ console w' = console w) /\
    (forall error,
       generateAuthUrl = Throw error \/
       (exists authUrl,
          generateAuthUrl = Return authUrl /\
          redirect (redirect_calls w) authUrl = Throw error) ->
       exists answer,
         r = inr answer /\
         GoogleStart.status answer = 500 /\
         GoogleStart.answer_headers answer = [(lit "Content-Type", lit "application/json")] /\
         JSON_parse (GoogleStart.body answer) =
           Return (VObj [(lit "error", VStr (lit "Failed to initiate authentication"));
                         (lit "message",
                          VStr (lit "Unable to connect to Google OAuth service"))]) /\
         console w' = console w ++ [(lit "Error generating OAuth URL:", LogError error)]).
Proof.
  unfold GoogleStart.GET, try_catch_io, bind_io at 1, lift.
  destruct generateAuthUrl as [authUrl|e].
  - unfold bind_io at 1, call_redirect.
    destruct (redirect (redirect_calls w) authUrl) as [response|e] eqn:Hr.
    + eexists _, _. split; [reflexivity|]. split.
      * intros a r Ha Hr'. injection Ha as <-. rewrite Hr in Hr'. injection Hr' as <-.
        auto.
      * intros error [H|(a & Ha & Hr')]; [discriminate H|].
        injection Ha as <-. rewrite Hr in Hr'. discriminate Hr'.
    + eexists _, _. split; [reflexivity|]. split.
      * intros a r Ha Hr'. injection Ha as <-. rewrite Hr in Hr'. discriminate Hr'.
      * intros error [H|(a & Ha & Hr')]; [discriminate H|].
        injection Ha as <-. rewrite Hr in Hr'. injection Hr' as <-.
        eexists. split; [reflexivity|]. repeat split.
  - eexists _, _. split; [reflexivity|]. split.
    + intros a r Ha. discriminate Ha.
    + intros error [H|(a & Ha & _)]; [|discriminate Ha]. injection H as <-.
      eexists. split; [reflexivity|]. repeat split.
Qed.

(** X12. [isAuthenticated] of the store client throws nothing: it is true
    exactly when [getUser] resolves with a [data.user] that is truthy and
    an [error] that is not; it is false when [getUser] rejects, when
    [data] is absent and when the store reports an error. *)
Theorem isAuthenticated_total (auth_getUser : outcome Supabase.UserResponse) :
  exists b,
    Supabase.isAuthenticated host auth_getUser = Return b /\
    (b = true <->
     exists response user,
       auth_getUser = Return response /\
       Get (Supabase.data response) (lit "user") = Return user /\
       truthy host (Supabase.error response) = false /\
       truthy host user = true).
Proof.
  unfold Supabase.isAuthenticated, Supabase.getCurrentUser.
  destruct auth_getUser as [response|e]; cbn [bind try_catch].
  - destruct (Get (Supabase.data response) (lit "user")) as [user|e] eqn:Hu;
      cbn [bind try_catch].
    + destruct (truthy host (Supabase.error response)) eqn:He.
      * exists false.
        split.
        { destruct (Get (Supabase.error response) (lit "message")) as [m|x];
            cbn [bind try_catch]; [|reflexivity].
          destruct (ToString host m); reflexivity. }
        split; [discriminate|]. intros (r & u & Hr & _ & H & _).
        injection Hr as <-. congruence.
      * cbn [bind try_catch]. exists (truthy host user). split; [reflexivity|].
        split.
        -- intros H. exists response, user. auto.
        -- intros (r & u & Hr & Hu' & _ & H). injection Hr as <-.
           rewrite Hu in Hu'. now injection Hu' as <-.
    + exists false. split; [reflexivity|]. split; [discriminate|].
      intros (r & u & Hr & Hu' & _). injection Hr as <-. rewrite Hu in Hu'. discriminate.
  - exists false. split; [reflexivity|]. split; [discriminate|].
    intros (r & u & Hr & _). discriminate Hr.
Qed.

End StartProperties.

(** * Properties of the string built-ins *)

Lemma trimStart_split s :
  exists ws, s = ws ++ trimStart s /\ forallb is_space ws = true.
Proof.
  induction s as [|c s (ws & E & H)]; [exists []; auto|].
  cbn [trimStart]. destruct (is_space c) eqn:Ec.
  - exists (c :: ws). cbn [app forallb]. rewrite Ec, H. split; [now f_equal | reflexivity].
  - exists []. auto.
Qed.

Lemma trimStart_spaces ws s : forallb is_space ws = true -> trimStart (ws ++ s) = trimStart s.
Proof.
  induction ws as [|c ws IH]; [reflexivity|]. cbn [forallb app trimStart].
  intros H. apply andb_prop in H. destruct H as [-> H]. auto.
Qed.

Lemma trimStart_clean c s : is_space c = false -> trimStart (c :: s) = c :: s.
Proof. intros H. cbn [trimStart]. now rewrite H. Qed.

Lemma trimStart_head s c t : trimStart s = c :: t -> is_space c = false.
Proof.
  induction s as [|x s IH]; [discriminate|]. cbn [trimStart].
  destruct (is_space x) eqn:E; [exact IH|]. intros H. injection H as <- _. exact E.
Qed.

Lemma trimStart_idem s : trimStart (trimStart s) = trimStart s.
Proof.
  destruct (trimStart s) as [|c t] eqn:E; [reflexivity|].
  apply trimStart_clean. exact (trimStart_head _ _ _ E).
Qed.

Lemma forallb_rev {A} (p : A -> bool) l : forallb p (rev l) = forallb p l.
Proof.
  induction l as [|a l IH]; [reflexivity|].
  cbn [rev forallb]. rewrite forallb_app, IH. cbn [forallb]. rewrite andb_true_r.
  apply andb_comm.
Qed.

Lemma trimEnd_split s :
  exists ws, s = trimEnd s ++ ws /\ forallb is_space ws = true.
Proof.
  unfold trimEnd. destruct (trimStart_split (rev s)) as (ws & E & H).
  exists (rev ws). split; [|now rewrite forallb_rev].
  rewrite <- rev_app_distr, <- E. symmetry. apply rev_involutive.
Qed.

Lemma trimEnd_spaces s ws : forallb is_space ws = true -> trimEnd (s ++ ws) = trimEnd s.
Proof.
  intros H. unfold trimEnd. rewrite rev_app_distr, trimStart_spaces; [reflexivity|].
  now rewrite forallb_rev.
Qed.

(** A string that [trim] leaves alone: no space at either end. *)
Lemma trimEnd_clean s c : is_space c = false -> trimEnd (s ++ [c]) = s ++ [c].
Proof.
  intros H. unfold trimEnd. rewrite rev_app_distr. cbn [rev app].
  rewrite trimStart_clean by exact H.
  cbn [rev]. now rewrite rev_involutive.
Qed.

Lemma trimEnd_nil : trimEnd [] = [].
Proof. reflexivity. Qed.

Lemma trimEnd_last s t c : trimEnd s = t ++ [c] -> is_space c = false.
Proof.
  unfold trimEnd. intros H. apply (f_equal (@rev N)) in H.
  rewrite rev_involutive, rev_app_distr in H. cbn [rev app] in H.
  exact (trimStart_head _ _ _ H).
Qed.

Lemma trimEnd_head c s : is_space c = false -> exists t, trimEnd (c :: s) = c :: t.
Proof.
  intros Hc. induction s as [|x s IH] using rev_ind.
  - exists []. apply (trimEnd_clean [] c Hc).
  - destruct (is_space x) eqn:Ex.
    + destruct IH as (t & IH). exists t.
      change (c :: s ++ [x]) with ((c :: s) ++ [x]).
      rewrite trimEnd_spaces; [exact IH|]. cbn. now rewrite Ex.
    + exists (s ++ [x]). change (c :: s ++ [x]) with ((c :: s) ++ [x]).
      now rewrite trimEnd_clean.
Qed.

(** The three parts of a string: leading spaces, what [trim] keeps,
    trailing spaces. *)
Lemma trim_split s :
  exists ws1 ws2,
    s = ws1 ++ trim s ++ ws2 /\
    forallb is_space ws1 = true /\ forallb is_space ws2 = true.
Proof.
  destruct (trimStart_split s) as (ws1 & E1 & H1).
  destruct (trimEnd_split (trimStart s)) as (ws2 & E2 & H2).
  exists ws1, ws2. unfold trim. rewrite <- E2. auto.
Qed.

Lemma trim_head s c t : trim s = c :: t -> is_space c = false.
Proof.
  unfold trim. destruct (trimStart s) as [|x u] eqn:E; [discriminate|].
  pose proof (trimStart_head _ _ _ E) as Hx.
  destruct (trimEnd_head x u Hx) as (t' & ->). intros H. now injection H as <- _.
Qed.

Lemma trim_last s t c : trim s = t ++ [c] -> is_space c = false.
Proof. unfold trim. apply trimEnd_last. Qed.

(** [trim] on a string with spaces around a core that has none at its
    ends. *)
Lemma trim_core ws1 ws2 core :
  forallb is_space ws1 = true -> forallb is_space ws2 = true ->
  trimStart core = core -> trimEnd core = core ->
  trim (ws1 ++ core ++ ws2) = core.
Proof.
  intros H1 H2 Hs He. unfold trim.
  rewrite trimStart_spaces by exact H1.
  destruct core as [|c core].
  - cbn [app]. destruct (trimStart_split ws2) as (ws & E & H).
    assert (Hn : trimStart ws2 = []).
    { destruct (trimStart ws2) as [|x u] eqn:Ex; [reflexivity|].
      pose proof (trimStart_head _ _ _ Ex) as Hx.
      rewrite E, forallb_app in H2. cbn [forallb] in H2.
      rewrite Hx, andb_false_r in H2. discriminate. }
    now rewrite Hn.
  - assert (Hc : is_space c = false).
    { cbn [trimStart] in Hs. destruct (is_space c); [|reflexivity].
      pose proof (trimStart_split core) as (ws & E & _).
      apply (f_equal (@List.length N)) in Hs. rewrite E in Hs at 2.
      cbn [List.length] in Hs. rewrite length_app in Hs. lia. }
    change ((c :: core) ++ ws2) with (c :: core ++ ws2).
    rewrite trimStart_clean by exact Hc.
    change (c :: core ++ ws2) with ((c :: core) ++ ws2).
    now rewrite trimEnd_spaces.
Qed.

Lemma trim_fixed s : trimStart (trim s) = trim s /\ trimEnd (trim s) = trim s.
Proof.
  split.
  - destruct (trim s) as [|c t] eqn:E; [reflexivity|].
    apply trimStart_clean. exact (trim_head _ _ _ E).
  - destruct (trim s) as [|c t] eqn:E; [reflexivity|].
    destruct (@exists_last _ (c :: t) ltac:(discriminate)) as (t' & x & E').
    rewrite E' in *. apply trimEnd_clean. exact (trim_last _ _ _ E).
Qed.

Lemma trim_idem s : trim (trim s) = trim s.
Proof.
  destruct (trim_fixed s) as [Hs He]. unfold trim at 1. now rewrite Hs, He.
Qed.

Lemma trim_length s : (List.length (trim s) <= List.length s)%nat.
Proof.
  destruct (trim_split s) as (ws1 & ws2 & E & _).
  rewrite E at 2. rewrite !length_app. lia.
Qed.

Lemma starts_with_inv p s r : starts_with p s = Some r -> s = p ++ r.
Proof.
  unfold starts_with.
  destruct (jstr_eqb (firstn (List.length p) s) p) eqn:E; [|discriminate].
  intros H. injection H as <-. apply jstr_eqb_eq in E.
  rewrite <- E at 1. symmetry. apply firstn_skipn.
Qed.

Lemma includes_iff needle s :
  includes needle s = true <-> exists p q, s = p ++ needle ++ q.
Proof.
  induction s as [|c s IH].
  - cbn [includes]. destruct (starts_with needle []) as [r|] eqn:E.
    + split; [intros _|reflexivity]. exists [], r. exact (starts_with_inv _ _ _ E).
    + split; [discriminate|]. intros (p & q & H).
      destruct p; [|discriminate]. cbn [app] in H.
      rewrite H, starts_with_app in E. discriminate.
  - cbn [includes]. destruct (starts_with needle (c :: s)) as [r|] eqn:E.
    + split; [intros _|reflexivity]. exists [], r. exact (starts_with_inv _ _ _ E).
    + rewrite IH. split.
      * intros (p & q & ->). exists (c :: p), q. reflexivity.
      * intros (p & q & H). destruct p as [|x p].
        -- cbn [app] in H. rewrite H, starts_with_app in E. discriminate.
        -- injection H as _ ->. eauto.
Qed.

(** ** What the patterns match *)

Lemma match_one class r s :
  match_here (One class :: r) s = true <->
  exists c rest, s = c :: rest /\ class c = true /\ match_here r rest = true.
Proof.
  cbn [match_here]. destruct s as [|c s].
  - split; [discriminate | intros (c & rest & H & _); discriminate].
  - rewrite andb_true_iff. split.
    + intros [H1 H2]. eauto.
    + intros (c' & rest & H & H1 & H2). injection H as <- <-. auto.
Qed.

Lemma match_many class r s :
  match_here (Many class :: r) s = true <->
  exists run rest,
    s = run ++ rest /\ run <> [] /\ forallb class run = true /\ match_here r rest = true.
Proof.
  cbn [match_here].
  induction s as [|c s IH].
  - split; [discriminate|]. intros (run & rest & H & Hne & _).
    destruct run; [congruence | discriminate].
  - rewrite andb_true_iff, orb_true_iff, IH. split.
    + intros [Hc [(run & rest & -> & Hne & Hrun & Hr)|Hr]].
      * exists (c :: run), rest. cbn [forallb app]. rewrite Hc, Hrun.
        repeat split; [discriminate | exact Hr].
      * exists [c], s. cbn [forallb app]. rewrite Hc.
        repeat split; [discriminate | exact Hr].
    + intros (run & rest & H & Hne & Hrun & Hr).
      destruct run as [|x run]; [congruence|].
      injection H as <- ->. cbn [forallb] in Hrun. apply andb_prop in Hrun.
      destruct Hrun as [Hc Hrun]. split; [exact Hc|].
      destruct run as [|y run]; [right; exact Hr|].
      left. exists (y :: run), rest. repeat split; [discriminate | exact Hrun | exact Hr].
Qed.

Lemma match_end s : match_here [End_of_input] s = true <-> s = [].
Proof. destruct s; cbn; split; congruence. Qed.

(** [/^\d+$/]: a string of digits, not empty. *)
Lemma test_digits s :
  RegExp_test Validation.digitsRegex s = true <-> s <> [] /\ forallb is_digit s = true.
Proof.
  unfold RegExp_test, Validation.digitsRegex. rewrite match_many. split.
  - intros (run & rest & -> & Hne & Hrun & Hend). apply match_end in Hend. subst rest.
    rewrite app_nil_r. auto.
  - intros [Hne H]. exists s, []. rewrite app_nil_r. repeat split; auto.
Qed.

(** The pattern of an e-mail address: [a@b.c] with no part empty and no
    space and no [@] in a part. *)
Lemma test_email s :
  RegExp_test Validation.emailRegex s = true <->
  exists a b c,
    s = a ++ lit "@" ++ b ++ lit "." ++ c /\
    a <> [] /\ b <> [] /\ c <> [] /\
    forallb Validation.not_space_or_at (a ++ b ++ c) = true.
Proof.
  unfold RegExp_test, Validation.emailRegex. rewrite match_many. split.
  - intros (a & r1 & -> & Ha & Hpa & H).
    apply match_one in H. destruct H as (x & r2 & -> & Hx & H).
    apply N.eqb_eq in Hx. subst x.
    apply match_many in H. destruct H as (b & r3 & -> & Hb & Hpb & H).
    apply match_one in H. destruct H as (y & r4 & -> & Hy & H).
    apply N.eqb_eq in Hy. subst y.
    apply match_many in H. destruct H as (c & r5 & -> & Hc & Hpc & H).
    apply match_end in H. subst r5. rewrite app_nil_r.
    exists a, b, c. rewrite !forallb_app, Hpa, Hpb, Hpc. auto.
  - intros (a & b & c & -> & Ha & Hb & Hc & H).
    rewrite !forallb_app in H. apply andb_prop in H. destruct H as [Hpa H].
    apply andb_prop in H. destruct H as [Hpb Hpc].
    exists a, (lit "@" ++ b ++ lit "." ++ c). repeat split; auto.
    apply match_one. exists (ch "@"), (b ++ lit "." ++ c).
    split; [reflexivity|]. split; [apply N.eqb_refl|].
    apply match_many. exists b, (lit "." ++ c). repeat split; auto.
    apply match_one. exists (ch "."), c.
    split; [reflexivity|]. split; [apply N.eqb_refl|].
    apply match_many. exists c, []. rewrite app_nil_r. repeat split; auto.
Qed.

(** * Validation *)

Section ValidationProperties.
Context (host : Host).

Lemma not_space_or_at_space c : Validation.not_space_or_at c = true -> is_space c = false.
Proof.
  unfold Validation.not_space_or_at. intros H. apply negb_true_iff in H.
  now apply orb_false_iff in H.
Qed.

Lemma truthy_string s : truthy host (VStr s) = negb (jstr_eqb s []).
Proof. reflexivity. Qed.

Lemma jstr_eqb_nil s : jstr_eqb s [] = match s with [] => true | _ :: _ => false end.
Proof. destruct s; reflexivity. Qed.

(** X13. [isValidEmail] accepts exactly the strings that are, between
    spaces that do not count, [a@b.c] with [a], [b] and [c] not empty and
    free of spaces and of [@], and in which no two dots follow each
    other. *)
Theorem isValidEmail_spec (email : value) :
  Validation.isValidEmail host email = true <->
  exists ws1 ws2 a b c,
    email = VStr (ws1 ++ (a ++ lit "@" ++ b ++ lit "." ++ c) ++ ws2) /\
    forallb is_space ws1 = true /\ forallb is_space ws2 = true /\
    a <> [] /\ b <> [] /\ c <> [] /\
    forallb Validation.not_space_or_at (a ++ b ++ c) = true /\
    (forall p q, a ++ lit "@" ++ b ++ lit "." ++ c <> p ++ lit ".." ++ q).
Proof.
  unfold Validation.isValidEmail. split.
  - destruct email as [| |x|n|s|items|fields];
      cbn [typeof_string negb orb]; rewrite ?orb_true_r; try discriminate.
    cbn [string_of]. destruct (negb (truthy host (VStr s))); cbn [orb]; [discriminate|].
    destruct (includes (lit "..") (trim s)) eqn:Hdots; [discriminate|].
    intros H. apply test_email in H. destruct H as (a & b & c & E & Ha & Hb & Hc & Hp).
    destruct (trim_split s) as (ws1 & ws2 & Es & H1 & H2).
    exists ws1, ws2, a, b, c. rewrite <- E. split; [now f_equal|].
    repeat (split; [assumption|]).
    intros p q Hpq.
    assert (Hin : includes (lit "..") (trim s) = true) by (apply includes_iff; eauto).
    congruence.
  - intros (ws1 & ws2 & a & b & c & -> & H1 & H2 & Ha & Hb & Hc & Hp & Hdots).
    cbn [typeof_string string_of negb orb].
    set (core := a ++ lit "@" ++ b ++ lit "." ++ c) in *.
    rewrite !forallb_app in Hp. apply andb_prop in Hp. destruct Hp as [Hpa Hp].
    apply andb_prop in Hp. destruct Hp as [Hpb Hpc].
    assert (Hstart : trimStart core = core).
    { subst core. destruct a as [|x a]; [congruence|].
      cbn [forallb] in Hpa. apply andb_prop in Hpa. destruct Hpa as [Hx _].
      apply trimStart_clean. now apply not_space_or_at_space. }
    assert (Hend : trimEnd core = core).
    { subst core. destruct (@exists_last _ c Hc) as (c' & x & ->).
      rewrite forallb_app in Hpc. apply andb_prop in Hpc. destruct Hpc as [_ Hx].
      cbn [forallb] in Hx. rewrite andb_true_r in Hx.
      replace (a ++ lit "@" ++ b ++ lit "." ++ c' ++ [x])
        with ((a ++ lit "@" ++ b ++ lit "." ++ c') ++ [x])
        by (now rewrite <- !app_assoc).
      apply trimEnd_clean. now apply not_space_or_at_space. }
    rewrite (trim_core ws1 ws2 core H1 H2 Hstart Hend).
    assert (Hne : truthy host (VStr (ws1 ++ core ++ ws2)) = true).
    { rewrite truthy_string, jstr_eqb_nil.
      destruct (ws1 ++ core ++ ws2) eqn:E; [|reflexivity].
      apply app_eq_nil in E. destruct E as [_ E]. apply app_eq_nil in E.
      destruct E as [E _]. subst core. apply app_eq_nil in E. destruct E. congruence. }
    rewrite Hne. cbn [negb orb].
    destruct (includes (lit "..") core) eqn:Hinc.
    + apply includes_iff in Hinc. destruct Hinc as (p & q & E). destruct (Hdots p q E).
    + apply test_email. exists a, b, c. rewrite !forallb_app, Hpa, Hpb, Hpc. auto.
Qed.

Lemma String_length_zero s : (String_length s =? 0) = true <-> s = [].
Proof.
  unfold String_length. rewrite Z.eqb_eq. destruct s; cbn [List.length]; split;
    try reflexivity; try discriminate; lia.
Qed.

End ValidationProperties.

Section RequestProperties.
Context (host : Host).

Lemma trim_nonempty s : trim s <> [] -> s <> [].
Proof. intros H ->. now apply H. Qed.

(** [validateScanContent] by cases. *)
Lemma validateScanContent_eq content :
  Validation.validateScanContent host content =
  match content with
  | VStr s =>
      if jstr_eqb s [] then
        Validation.invalid (lit "Scan content is required") (VStr (lit "content"))
      else if String_length (trim s) =? 0 then
        Validation.invalid (lit "Scan content cannot be empty") (VStr (lit "content"))
      else if 10000 <? String_length (trim s) then
        Validation.invalid (lit "Scan content is too long (max 10,000 characters)")
          (VStr (lit "content"))
      else Normal tt
  | _ => Validation.invalid (lit "Scan content is required") (VStr (lit "content"))
  end.
Proof.
  unfold Validation.validateScanContent.
  destruct content as [| |b|n|s|items|fields];
    cbn [typeof_string negb orb]; rewrite ?orb_true_r; try reflexivity.
  cbn [truthy string_of]. destruct (jstr_eqb s []); reflexivity.
Qed.

Lemma validateScanContent_ok content :
  Validation.validateScanContent host content = Normal tt <->
  exists s, content = VStr s /\ 1 <= String_length (trim s) <= 10000.
Proof.
  rewrite validateScanContent_eq. split.
  - destruct content as [| |b|n|s|items|fields]; try discriminate.
    destruct (jstr_eqb s []); [discriminate|].
    destruct (String_length (trim s) =? 0) eqn:E0; [discriminate|].
    destruct (10000 <? String_length (trim s)) eqn:E1; [discriminate|].
    intros _. exists s. split; [reflexivity|].
    apply Z.eqb_neq in E0. apply Z.ltb_ge in E1. unfold String_length in *. lia.
  - intros (s & -> & Hlen).
    assert (Hne : jstr_eqb s [] = false).
    { rewrite jstr_eqb_nil. destruct s; [|reflexivity].
      cbn in Hlen. lia. }
    rewrite Hne.
    assert (E0 : (String_length (trim s) =? 0) = false) by (apply Z.eqb_neq; lia).
    assert (E1 : (10000 <? String_length (trim s)) = false) by (apply Z.ltb_ge; lia).
    now rewrite E0, E1.
Qed.

Lemma validateScanType_ok v :
  Validation.validateScanType v = true <-> v = VStr (lit "qr") \/ v = VStr (lit "barcode").
Proof.
  unfold Validation.validateScanType.
  destruct v as [| |b|n|s|items|fields];
    try (split; [discriminate | intros [H|H]; discriminate H]).
  rewrite orb_true_iff, !jstr_eqb_eq. split; (intros [H|H]; [left|right]; congruence).
Qed.

(** [validateScanFormat] accepts an absent format and a string that is not
    blank and, untrimmed, at most 100 code units long. *)
Lemma validateScanFormat_ok format :
  Validation.validateScanFormat format = Normal tt <->
  format = VNull \/ format = VUndefined \/
  exists f, format = VStr f /\ trim f <> [] /\ String_length f <= 100.
Proof.
  unfold Validation.validateScanFormat.
  destruct format as [| |b|n|s|items|fields]; cbn [typeof_string negb string_of].
  - split; auto.
  - split; auto.
  - split; [discriminate | intros [H|[H|(f & H & _)]]; discriminate H].
  - split; [discriminate | intros [H|[H|(f & H & _)]]; discriminate H].
  - destruct (String_length (trim s) =? 0) eqn:E0.
    + split; [discriminate|]. intros [H|[H|(f & H & Hne & _)]]; try discriminate H.
      injection H as <-. apply String_length_zero in E0. congruence.
    + destruct (100 <? String_length s) eqn:E1.
      * split; [discriminate|]. intros [H|[H|(f & H & _ & Hlen)]]; try discriminate H.
        injection H as <-. apply Z.ltb_lt in E1. lia.
      * split; [|reflexivity]. intros _. right. right. exists s.
        split; [reflexivity|]. split; [|apply Z.ltb_ge in E1; exact E1].
        intros H. apply String_length_zero in H. congruence.
  - split; [discriminate | intros [H|[H|(f & H & _)]]; discriminate H].
  - split; [discriminate | intros [H|[H|(f & H & _)]]; discriminate H].
Qed.

Lemma prop_string_object v k s : prop v k = VStr s -> exists fields, v = VObj fields.
Proof. destruct v; try discriminate. eauto. Qed.

Lemma validateScanCreateRequest_iff (request r : value) :
  Validation.validateScanCreateRequest host request = Normal r <->
  exists content scanType format,
    prop request (lit "content") = VStr content /\
    1 <= String_length (trim content) <= 10000 /\
    prop request (lit "scanType") = VStr scanType /\
    (scanType = lit "qr" \/ scanType = lit "barcode") /\
    ((prop request (lit "format") = VNull \/ prop request (lit "format") = VUndefined) /\
     format = VUndefined
     \/
     exists f, prop request (lit "format") = VStr f /\ trim f <> [] /\
               String_length f <= 100 /\ format = VStr (trim f)) /\
    r = VObj [(lit "content", VStr (trim content));
              (lit "scanType", VStr scanType);
              (lit "format", format)].
Proof.
  unfold Validation.validateScanCreateRequest. split.
  - destruct (negb (truthy host request) || negb (typeof_object request));
      [discriminate|].
    destruct (Validation.validateScanContent host (prop request (lit "content")))
      as [[]|t] eqn:Ec; cbn [and_then]; [|discriminate].
    apply validateScanContent_ok in Ec. destruct Ec as (content & Ec & Hlen).
    destruct (Validation.validateScanType (prop request (lit "scanType"))) eqn:Et;
      cbn [negb]; [|discriminate].
    apply validateScanType_ok in Et.
    destruct (Validation.validateScanFormat (prop request (lit "format")))
      as [[]|t] eqn:Ef; cbn [and_then]; [|discriminate].
    apply validateScanFormat_ok in Ef.
    intros H. injection H as <-. rewrite Ec. cbn [string_of].
    assert (Hst : exists scanType, prop request (lit "scanType") = VStr scanType /\
                    (scanType = lit "qr" \/ scanType = lit "barcode")).
    { destruct Et as [Et|Et]; rewrite Et; eauto. }
    destruct Hst as (scanType & Est & Hst). rewrite Est.
    destruct Ef as [Ef|[Ef|(f & Ef & Hne & Hlen')]]; rewrite Ef;
      unfold Google.or_else; cbn [Validation.optional_trim truthy].
    + exists content, scanType, VUndefined. repeat (split; [auto; fail|]). auto.
    + exists content, scanType, VUndefined. repeat (split; [auto; fail|]). auto.
    + assert (Htr : jstr_eqb (trim f) [] = false).
      { rewrite jstr_eqb_nil. destruct (trim f); [congruence | reflexivity]. }
      rewrite Htr. cbn [negb].
      exists content, scanType, (VStr (trim f)). repeat (split; [auto; fail|]).
      split; [right; exists f; auto | reflexivity].
  - intros (content & scanType & format & Ec & Hlen & Est & Hst & Hf & ->).
    destruct (prop_string_object _ _ _ Ec) as (fields & ->).
    cbn [truthy typeof_object negb orb].
    rewrite (proj2 (validateScanContent_ok _)) by eauto. cbn [and_then].
    rewrite (proj2 (validateScanType_ok _)) by (rewrite Est; destruct Hst as [->| ->]; auto).
    cbn [negb]. rewrite Ec, Est. cbn [string_of].
    destruct Hf as [[Hf ->]|(f & Ef & Hne & Hlen' & ->)].
    + rewrite (proj2 (validateScanFormat_ok _)) by tauto. cbn [and_then].
      destruct Hf as [-> | ->]; reflexivity.
    + rewrite (proj2 (validateScanFormat_ok _)) by (right; right; eauto). cbn [and_then].
      rewrite Ef. unfold Google.or_else. cbn [Validation.optional_trim truthy].
      assert (Htr : jstr_eqb (trim f) [] = false).
      { rewrite jstr_eqb_nil. destruct (trim f); [congruence | reflexivity]. }
      now rewrite Htr.
Qed.

(** X14. [validateScanCreateRequest] returns exactly for a request whose
    [content] is a string of 1 to 10000 code units after trimming, whose
    [scanType] is [qr] or [barcode] and whose [format] is absent, [null]
    or a string that is not blank and, before trimming, at most 100 code
    units long. What it returns is the object with the content trimmed,
    the type, and the format trimmed or [undefined]. *)
Theorem validateScanCreateRequest_accepts (request r : value) :
  Validation.validateScanCreateRequest host request = Normal r <->
  exists content scanType format,
    prop request (lit "content") = VStr content /\
    1 <= String_length (trim content) <= 10000 /\
    prop request (lit "scanType") = VStr scanType /\
    (scanType = lit "qr" \/ scanType = lit "barcode") /\
    ((prop request (lit "format") = VNull \/ prop request (lit "format") = VUndefined) /\
     format = VUndefined
     \/
     exists f, prop request (lit "format") = VStr f /\ trim f <> [] /\
               String_length f <= 100 /\ format = VStr (trim f)) /\
    r = VObj [(lit "content", VStr (trim content));
              (lit "scanType", VStr scanType);
              (lit "format", format)].
Proof. apply validateScanCreateRequest_iff. Qed.

(** X15. A request that [validateScanCreateRequest] returns is valid and
    normal: validated again it is returned unchanged. *)
Theorem validateScanCreateRequest_idempotent (request r : value) :
  Validation.validateScanCreateRequest host request = Normal r ->
  Validation.validateScanCreateRequest host r = Normal r.
Proof.
  intros H. apply validateScanCreateRequest_iff in H.
  destruct H as (content & scanType & format & Ec & Hlen & Est & Hst & Hf & ->).
  apply validateScanCreateRequest_iff.
  exists (trim content), scanType, format.
  split; [reflexivity|]. rewrite trim_idem. split; [exact Hlen|].
  split; [reflexivity|]. split; [exact Hst|]. split; [|reflexivity].
  change (prop _ (lit "format")) with format.
  destruct Hf as [[_ ->]|(f & _ & Hne & Hlen' & ->)]; [left; auto|].
  right. exists (trim f). rewrite trim_idem. repeat split; auto.
  pose proof (trim_length f). unfold String_length in *. lia.
Qed.

Lemma validateScanContent_throws content t :
  Validation.validateScanContent host content = Abrupt t ->
  exists message, t = Err.Instance (Err.new_ValidationError message (VStr (lit "content"))).
Proof.
  rewrite validateScanContent_eq. unfold Validation.invalid.
  destruct content as [| |b|n|s|items|fields];
    try (intros H; injection H as <-; eauto; fail).
  destruct (jstr_eqb s []); [intros H; injection H as <-; eauto|].
  destruct (String_length (trim s) =? 0); [intros H; injection H as <-; eauto|].
  destruct (10000 <? String_length (trim s)); [intros H; injection H as <-; eauto|].
  discriminate.
Qed.

Lemma validateScanFormat_throws format t :
  Validation.validateScanFormat format = Abrupt t ->
  exists message, t = Err.Instance (Err.new_ValidationError message (VStr (lit "format"))).
Proof.
  unfold Validation.validateScanFormat, Validation.invalid.
  destruct format as [| |b|n|s|items|fields]; cbn [typeof_string negb string_of];
    try discriminate; try (intros H; injection H as <-; eauto; fail).
  destruct (String_length (trim s) =? 0); [intros H; injection H as <-; eauto|].
  destruct (100 <? String_length s); [intros H; injection H as <-; eauto|].
  discriminate.
Qed.

(** X16. [validateScanCreateRequest] throws nothing but a
    [ValidationError], and the checks run in the order request, content,
    type, format: the error names no field when the request is no object,
    [content] when the content fails, [scanType] when the content passes
    and the type fails, [format] when both pass and the format fails. *)
Theorem validateScanCreateRequest_rejects (request : value) (t : Err.thrown) :
  Validation.validateScanCreateRequest host request = Abrupt t ->
  exists message field,
    t = Err.Instance (Err.new_ValidationError message field) /\
    (field = VUndefined /\ truthy host request && typeof_object request = false
     \/
     truthy host request && typeof_object request = true /\
     (field = VStr (lit "content") /\
      Validation.validateScanContent host (prop request (lit "content")) = Abrupt t
      \/
      Validation.validateScanContent host (prop request (lit "content")) = Normal tt /\
      (field = VStr (lit "scanType") /\
       Validation.validateScanType (prop request (lit "scanType")) = false
       \/
       Validation.validateScanType (prop request (lit "scanType")) = true /\
       field = VStr (lit "format") /\
       Validation.validateScanFormat (prop request (lit "format")) = Abrupt t))).
Proof.
  unfold Validation.validateScanCreateRequest.
  rewrite <- negb_andb.
  destruct (truthy host request && typeof_object request) eqn:Hobj; cbn [negb].
  - destruct (Validation.validateScanContent host (prop request (lit "content")))
      as [[]|t0] eqn:Ec; cbn [and_then].
    + destruct (Validation.validateScanType (prop request (lit "scanType"))) eqn:Et;
        cbn [negb].
      * destruct (Validation.validateScanFormat (prop request (lit "format")))
          as [[]|t1] eqn:Ef; cbn [and_then]; [discriminate|].
        intros H. injection H as <-.
        destruct (validateScanFormat_throws _ _ Ef) as (m & ->).
        exists m, (VStr (lit "format")). split; [reflexivity|]. right. split; [reflexivity|].
        right. split; [reflexivity|]. right. auto.
      * intros H. injection H as <-. eexists _, _. split; [reflexivity|].
        right. split; [reflexivity|]. right. split; [reflexivity|]. left. auto.
    + intros H. injection H as <-.
      destruct (validateScanContent_throws _ _ Ec) as (m & ->).
      exists m, (VStr (lit "content")). split; [reflexivity|]. right. split; [reflexivity|].
      left. auto.
  - intros H. injection H as <-. eexists _, _. split; [reflexivity|]. left. auto.
Qed.

End RequestProperties.

(** A scan with spaces around its content and its format. *)
Lemma validateScanCreateRequest_idempotent_witness :
  Validation.validateScanCreateRequest plain_host Sample.scanRequest =
    Normal Sample.scanCreateRequest /\
  Validation.validateScanCreateRequest plain_host Sample.scanCreateRequest =
    Normal Sample.scanCreateRequest.
Proof.
  split; [reflexivity|].
  exact (validateScanCreateRequest_idempotent plain_host Sample.scanRequest
           Sample.scanCreateRequest eq_refl).
Defined.

(** Blank content and an unknown type: the content is reported. *)
Lemma validateScanCreateRequest_rejects_witness :
  Validation.validateScanCreateRequest plain_host Sample.blankScanRequest =
    Validation.invalid (lit "Scan content cannot be empty") (VStr (lit "content")) /\
  Validation.validateScanType (prop Sample.blankScanRequest (lit "scanType")) = false /\
  exists message field,
    Validation.invalid (A := value) (lit "Scan content cannot be empty")
      (VStr (lit "content")) =
    Abrupt (Err.Instance (Err.new_ValidationError message field)) /\
    field = VStr (lit "content").
Proof.
  split; [reflexivity|]. split; [reflexivity|].
  destruct (validateScanCreateRequest_rejects plain_host Sample.blankScanRequest
              (Err.Instance (Err.new_ValidationError (lit "Scan content cannot be empty")
                               (VStr (lit "content"))))
              eq_refl) as (message & field & E & H).
  exists message, field. split; [now rewrite <- E|].
  destruct H as [[_ H]|[_ [[H _]|[H _]]]]; [discriminate H | exact H | discriminate H].
Defined.


Section IdentifierProperties.
Context (host : Host).

Lemma is_digit_not_space c : is_digit c = true -> is_space c = false.
Proof.
  unfold is_digit, is_space. intros H. apply andb_prop in H. destruct H as [H1 H2].
  apply N.leb_le in H1, H2.
  rewrite !orb_false_iff, andb_false_iff, !N.eqb_neq, !N.leb_gt. lia.
Qed.

(** X17. [validateGoogleId] accepts exactly the strings that are, between
    spaces that do not count, one or more of the digits 0 to 9. *)
Theorem validateGoogleId_spec (googleId : value) :
  Validation.validateGoogleId host googleId = Normal tt <->
  exists ws1 digits ws2,
    googleId = VStr (ws1 ++ digits ++ ws2) /\
    forallb is_space ws1 = true /\ forallb is_space ws2 = true /\
    digits <> [] /\ forallb is_digit digits = true.
Proof.
  unfold Validation.validateGoogleId. split.
  - destruct googleId as [| |b|n|s|items|fields];
      cbn [typeof_string negb orb]; rewrite ?orb_true_r; try discriminate.
    cbn [string_of]. destruct (negb (truthy host (VStr s))); cbn [orb]; [discriminate|].
    destruct (String_length (trim s) =? 0); [discriminate|].
    destruct (RegExp_test Validation.digitsRegex (trim s)) eqn:Hd; cbn [negb];
      [|discriminate].
    intros _. apply test_digits in Hd. destruct Hd as [Hne Hd].
    destruct (trim_split s) as (ws1 & ws2 & E & H1 & H2).
    exists ws1, (trim s), ws2. split; [now f_equal | auto].
  - intros (ws1 & digits & ws2 & -> & H1 & H2 & Hne & Hd).
    cbn [typeof_string string_of negb orb].
    assert (Hstart : trimStart digits = digits).
    { destruct digits as [|x d]; [congruence|].
      cbn [forallb] in Hd. apply andb_prop in Hd. destruct Hd as [Hx _].
      apply trimStart_clean. now apply is_digit_not_space. }
    assert (Hend : trimEnd digits = digits).
    { destruct (@exists_last _ digits Hne) as (d & x & ->).
      rewrite forallb_app in Hd. apply andb_prop in Hd. destruct Hd as [_ Hx].
      cbn [forallb] in Hx. rewrite andb_true_r in Hx.
      apply trimEnd_clean. now apply is_digit_not_space. }
    rewrite (trim_core ws1 ws2 digits H1 H2 Hstart Hend).
    assert (Ht : truthy host (VStr (ws1 ++ digits ++ ws2)) = true).
    { cbn [truthy]. rewrite jstr_eqb_nil.
      destruct (ws1 ++ digits ++ ws2) eqn:E; [|reflexivity].
      apply app_eq_nil in E. destruct E as [_ E]. apply app_eq_nil in E.
      destruct E. congruence. }
    rewrite Ht. cbn [negb orb].
    assert (E0 : (String_length digits =? 0) = false).
    { destruct (String_length digits =? 0) eqn:E; [|reflexivity].
      apply String_length_zero in E. congruence. }
    rewrite E0. rewrite (proj2 (test_digits digits)) by auto. reflexivity.
Qed.

(** X18. [validateDateString] accepts exactly the strings that [Date.parse]
    reads as a date. It accepts whatever [toISOString] writes, and so the
    [expiresAt] of every session [createAuthSession] returns. *)
Theorem validateDateString_spec (dateString : value) (fieldName : jstr) :
  (Validation.validateDateString host dateString fieldName = Normal tt <->
   exists s t, dateString = VStr s /\ Date_parse host s = Int t) /\
  (forall t,
     Z.abs t <= maxTime ->
     Validation.validateDateString host (VStr (iso_string t)) fieldName = Normal tt) /\
  (forall now user token ttl session,
     Auth.createAuthSession now user token ttl = Return session ->
     Validation.validateDateString host (prop session (lit "expiresAt")) fieldName
       = Normal tt).
Proof.
  assert (Hiff : forall v,
    Validation.validateDateString host v fieldName = Normal tt <->
    exists s t, v = VStr s /\ Date_parse host s = Int t).
  { intros v. unfold Validation.validateDateString. split.
    - destruct v as [| |b|n|s|items|fields];
        cbn [typeof_string negb orb]; rewrite ?orb_true_r; try discriminate.
      cbn [string_of]. destruct (negb (truthy host (VStr s))); cbn [orb]; [discriminate|].
      destruct (Date_parse host s) as [|t] eqn:E; [discriminate|]. eauto.
    - intros (s & t & -> & E). cbn [typeof_string string_of negb orb].
      assert (Ht : truthy host (VStr s) = true).
      { cbn [truthy]. rewrite jstr_eqb_nil. destruct s; [discriminate E | reflexivity]. }
      now rewrite Ht, E. }
  split; [apply Hiff|]. split.
  - intros t Ht. apply Hiff. exists (iso_string t), t.
    split; [reflexivity | now apply Date_parse_iso].
  - intros now user token ttl session H.
    destruct (createAuthSession_eq _ _ _ _ _ H) as [Hrange ->].
    apply Hiff. exists (iso_string (now + ttl * 1000)), (now + ttl * 1000).
    split; [reflexivity | now apply Date_parse_iso].
Qed.

End IdentifierProperties.

(** ** Sanitized strings *)

Section SanitizeProperties.

Lemma replace_runs_clean class r b c s :
  class c = false ->
  replace_runs class r b (c :: s) = c :: replace_runs class r false s.
Proof. intros H. cbn [replace_runs]. now rewrite H. Qed.

Lemma replace_runs_in c b s :
  In c (replace_runs is_space (lit " ") b s) -> c = 32%N \/ (In c s /\ is_space c = false).
Proof.
  revert b. induction s as [|x s IH]; intros b; cbn [replace_runs]; [intros []|].
  destruct (is_space x) eqn:Ex.
  - intros H. apply in_app_or in H. destruct H as [H|H].
    + destruct b; [destruct H|]. destruct H as [<-|[]]. now left.
    + destruct (IH _ H) as [->|[Hin Hc]]; [now left | right; split; [now right | exact Hc]].
  - intros [<-|H]; [right; split; [now left | exact Ex]|].
    destruct (IH _ H) as [->|[Hin Hc]]; [now left | right; split; [now right | exact Hc]].
Qed.

Lemma replace_runs_head s c t :
  replace_runs is_space (lit " ") true s = c :: t -> is_space c = false.
Proof.
  induction s as [|x s IH]; cbn [replace_runs]; [discriminate|].
  destruct (is_space x) eqn:Ex; [exact IH|].
  intros H. now injection H as <- _.
Qed.

Lemma replace_runs_adjacent b s p x y q :
  replace_runs is_space (lit " ") b s = p ++ x :: y :: q ->
  is_space x = true -> is_space y = false.
Proof.
  revert b p. induction s as [|z s IH]; intros b p; cbn [replace_runs].
  - destruct p; discriminate.
  - destruct (is_space z) eqn:Ez.
    + destruct b; cbn [app]; [apply IH|].
      destruct p as [|x' p]; cbn [app]; intros H Hx.
      * injection H as _ H. exact (replace_runs_head _ _ _ H).
      * injection H as _ H. exact (IH _ _ H Hx).
    + destruct p as [|x' p]; cbn [app]; intros H Hx.
      * injection H as <- _. congruence.
      * injection H as _ H. exact (IH _ _ H Hx).
Qed.

Lemma replace_runs_snoc b s c :
  is_space c = false ->
  replace_runs is_space (lit " ") b (s ++ [c]) = replace_runs is_space (lit " ") b s ++ [c].
Proof.
  intros Hc. revert b. induction s as [|x s IH]; intros b; cbn [app replace_runs].
  - now rewrite Hc.
  - destruct (is_space x); [rewrite IH, app_assoc | rewrite IH]; reflexivity.
Qed.

(** A string in which every space is a single U+0020 is left alone. *)
Lemma replace_runs_fixed s :
  (forall c, In c s -> is_space c = true -> c = 32%N) ->
  (forall p x y q, s = p ++ x :: y :: q -> is_space x = true -> is_space y = false) ->
  replace_runs is_space (lit " ") false s = s.
Proof.
  induction s as [|x s IH]; intros Hsp Hadj; [reflexivity|].
  assert (IH' : replace_runs is_space (lit " ") false s = s).
  { apply IH.
    - intros c Hc. apply Hsp. now right.
    - intros p a b q ->. apply (Hadj (x :: p) a b q). reflexivity. }
  cbn [replace_runs]. destruct (is_space x) eqn:Ex; [|now rewrite IH'].
  rewrite (Hsp x (or_introl eq_refl) Ex). cbn [lit list_ascii_of_string map app].
  f_equal. destruct s as [|y s]; [reflexivity|].
  pose proof (Hadj [] x y s eq_refl Ex) as Hy.
  rewrite replace_runs_clean by exact Hy. rewrite replace_runs_clean in IH' by exact Hy.
  exact IH'.
Qed.

Lemma filter_fixed {A} (p : A -> bool) l : forallb p l = true -> filter p l = l.
Proof.
  induction l as [|a l IH]; [reflexivity|]. cbn [forallb filter].
  intros H. apply andb_prop in H. destruct H as [-> H]. now rewrite IH.
Qed.

Lemma is_control_space : Validation.is_control 32 = false.
Proof. reflexivity. Qed.

Lemma sanitize_in c s :
  In c (Validation.sanitizeString (VStr s)) ->
  Validation.is_control c = false /\ (is_space c = true -> c = 32%N).
Proof.
  unfold Validation.sanitizeString. cbn [typeof_string negb string_of].
  intros H. apply replace_runs_in in H. destruct H as [->|[Hin Hc]].
  - split; [reflexivity | auto].
  - unfold remove_all in Hin. apply filter_In in Hin. destruct Hin as [_ Hctl].
    apply negb_true_iff in Hctl. split; [exact Hctl | congruence].
Qed.

Lemma sanitizeString_normal (input : value) :
  let out := Validation.sanitizeString input in
  (typeof_string input = false -> out = []) /\
  (forall c, In c out -> Validation.is_control c = false) /\
  (forall c, In c out -> is_space c = true -> c = 32%N) /\
  (forall p x y q, out = p ++ x :: y :: q -> is_space x = true -> is_space y = false).
Proof.
  cbn zeta. split.
  - unfold Validation.sanitizeString. now intros ->.
  - destruct input as [| |b|n|s|items|fields];
      try (repeat split; [intros c []|intros c []|intros [|? ?] ? ? ? H; discriminate H]).
    split; [intros c H; exact (proj1 (sanitize_in c s H))|].
    split; [intros c H; exact (proj2 (sanitize_in c s H))|].
    unfold Validation.sanitizeString. cbn [typeof_string negb string_of].
    intros p x y q. apply replace_runs_adjacent.
Qed.

Lemma sanitizeString_again (s : jstr) :
  let once := Validation.sanitizeString (VStr s) in
  Validation.sanitizeString (VStr once) = trim once /\
  (forallb (fun c => negb (Validation.is_control c)) s = true -> Validation.sanitizeString (VStr once) = once) /\
  Validation.sanitizeString (VStr [0; 32; 97]%N) = [32; 97]%N /\
  Validation.sanitizeString (VStr [32; 97]%N) = [97]%N.
Proof.
  cbn zeta. set (once := Validation.sanitizeString (VStr s)).
  assert (Hin : forall c, In c once ->
            Validation.is_control c = false /\ (is_space c = true -> c = 32%N))
    by (intros c; apply sanitize_in).
  assert (Hadj : forall p x y q, once = p ++ x :: y :: q ->
            is_space x = true -> is_space y = false).
  { intros p x y q. unfold once, Validation.sanitizeString.
    cbn [typeof_string negb string_of]. apply replace_runs_adjacent. }
  destruct (trim_split once) as (ws1 & ws2 & E & H1 & H2).
  assert (Hsub : forall c, In c (trim once) -> In c once).
  { intros c Hc. rewrite E. apply in_or_app. right. apply in_or_app. now left. }
  assert (Htwice : Validation.sanitizeString (VStr once) = trim once).
  { unfold Validation.sanitizeString at 1. cbn [typeof_string negb string_of].
    unfold remove_all. rewrite filter_fixed.
    - apply replace_runs_fixed.
      + intros c Hc. apply (Hin c (Hsub c Hc)).
      + intros p x y q Ht. apply (Hadj (ws1 ++ p) x y (q ++ ws2)).
        rewrite E at 1. rewrite Ht. now rewrite <- !app_assoc.
    - apply forallb_forall. intros c Hc. apply negb_true_iff. apply (Hin c (Hsub c Hc)). }
  split; [exact Htwice|]. split; [|split; reflexivity].
  intros Hclean. rewrite Htwice.
  unfold once, Validation.sanitizeString. cbn [typeof_string negb string_of].
  unfold remove_all. rewrite (filter_fixed _ (trim s)).
  2:{ apply forallb_forall. intros c Hc.
      destruct (trim_split s) as (v1 & v2 & Es & _).
      assert (Hcs : In c s).
      { rewrite Es. apply in_or_app. right. apply in_or_app. now left. }
      exact (proj1 (forallb_forall _ _) Hclean c Hcs). }
  destruct (trim s) as [|c t] eqn:Et; [reflexivity|].
  pose proof (trim_head _ _ _ Et) as Hc.
  destruct (@exists_last _ (c :: t) ltac:(discriminate)) as (t' & z & Ez).
  assert (Hz : is_space z = false).
  { apply (trim_last s t' z). congruence. }
  unfold trim. rewrite replace_runs_clean by exact Hc.
  rewrite trimStart_clean by exact Hc.
  rewrite <- (replace_runs_clean is_space (lit " ") false c t Hc).
  rewrite Ez, replace_runs_snoc by exact Hz.
  now apply trimEnd_clean.
Qed.

(** X19. What [sanitizeString] returns has no control character, its only
    white space is U+0020, and no two of them follow each other; for a
    value that is no string it is the empty string. *)
Theorem sanitizeString_output (input : value) :
  let out := Validation.sanitizeString input in
  (typeof_string input = false -> out = []) /\
  (forall c, In c out -> Validation.is_control c = false) /\
  (forall c, In c out -> is_space c = true -> c = 32%N) /\
  (forall p x y q, out = p ++ x :: y :: q -> is_space x = true -> is_space y = false).
Proof. apply sanitizeString_normal. Qed.

(** X20. A second pass of [sanitizeString] only trims: applied to its own
    result it returns that result trimmed. On a string without control
    characters the result is trimmed already and a second pass changes
    nothing; with them it need not be, as a NUL before a space shows. *)
Theorem sanitizeString_twice (s : jstr) :
  let once := Validation.sanitizeString (VStr s) in
  Validation.sanitizeString (VStr once) = trim once /\
  (forallb (fun c => negb (Validation.is_control c)) s = true -> Validation.sanitizeString (VStr once) = once) /\
  Validation.sanitizeString (VStr [0; 32; 97]%N) = [32; 97]%N /\
  Validation.sanitizeString (VStr [32; 97]%N) = [97]%N.
Proof. apply sanitizeString_again. Qed.

End SanitizeProperties.

(** ** Queries and pages *)

Section QueryProperties.
Context (host : Host).

(** X21. A query that [validateSearchQuery] returns is the sanitized
    input and 1 to 500 code units long. Validated again it comes back
    trimmed, unless it is a single space, which is rejected as empty. *)
Theorem validateSearchQuery_result (query : value) (r : jstr) :
  Validation.validateSearchQuery host query = Normal r ->
  r = Validation.sanitizeString query /\
  1 <= String_length r <= 500 /\
  (trim r <> [] -> Validation.validateSearchQuery host (VStr r) = Normal (trim r)) /\
  (trim r = [] ->
   r = lit " " /\
   Validation.validateSearchQuery host (VStr r) =
     Validation.invalid (lit "Search query cannot be empty") (VStr (lit "query"))).
Proof.
  unfold Validation.validateSearchQuery at 1.
  destruct (negb (truthy host query) || negb (typeof_string query)) eqn:Hq; [discriminate|].
  destruct (String_length (Validation.sanitizeString query) =? 0) eqn:E0; [discriminate|].
  destruct (500 <? String_length (Validation.sanitizeString query)) eqn:E1; [discriminate|].
  intros H. injection H as <-.
  apply Z.eqb_neq in E0. apply Z.ltb_ge in E1.
  apply orb_false_iff in Hq. destruct Hq as [_ Hs]. apply negb_false_iff in Hs.
  destruct query as [| |b|n|s|items|fields]; try discriminate Hs.
  set (r := Validation.sanitizeString (VStr s)) in *.
  assert (Hlen : 0 <= String_length r) by (unfold String_length; lia).
  split; [reflexivity|]. split; [lia|].
  assert (Hne : r <> []).
  { intros H. rewrite H in E0. now apply E0. }
  assert (Htruthy : negb (truthy host (VStr r)) || negb (typeof_string (VStr r)) = false).
  { cbn [truthy typeof_string negb]. rewrite jstr_eqb_nil.
    destruct r; [congruence | reflexivity]. }
  pose proof (sanitizeString_again s) as Htwice. cbn zeta in Htwice.
  destruct Htwice as (Htwice & _). fold r in Htwice.
  pose proof (trim_length r) as Htl.
  split.
  - intros Ht. unfold Validation.validateSearchQuery. rewrite Htruthy, Htwice.
    assert (E0' : (String_length (trim r) =? 0) = false).
    { destruct (String_length (trim r) =? 0) eqn:E; [|reflexivity].
      apply String_length_zero in E. congruence. }
    assert (E1' : (500 <? String_length (trim r)) = false).
    { apply Z.ltb_ge. unfold String_length in *. lia. }
    now rewrite E0', E1'.
  - intros Ht. split.
    + destruct (trim_split r) as (ws1 & ws2 & E & H1 & H2).
      rewrite Ht in E. cbn [app] in E.
      assert (Hall : forallb is_space r = true) by (rewrite E, forallb_app, H1, H2; reflexivity).
      pose proof (sanitizeString_normal (VStr s)) as Hout. cbn zeta in Hout.
      fold r in Hout. destruct Hout as (_ & _ & H32 & Hadj).
      destruct r as [|x [|y rest]]; [congruence| |].
      * cbn [forallb] in Hall. rewrite andb_true_r in Hall.
        now rewrite (H32 x (or_introl eq_refl) Hall).
      * cbn [forallb] in Hall. apply andb_prop in Hall. destruct Hall as [Hx Hall].
        apply andb_prop in Hall. destruct Hall as [Hy _].
        pose proof (Hadj [] x y rest eq_refl Hx). congruence.
    + unfold Validation.validateSearchQuery. rewrite Htruthy, Htwice, Ht. reflexivity.
Qed.

(** X22. What [validatePaginationParams] returns is a limit from 1 to 100
    and an offset that is not negative, both integers: the parameters
    given, 20 and 0 where they are absent. A limit and an offset in these
    bounds are returned; a limit of 0 is not replaced by the default but
    rejected. *)
Theorem validatePaginationParams_bounds (params : Validation.PaginationParams) :
  (forall l o,
     Validation.validatePaginationParams params = Normal (l, o) ->
     exists n m,
       l = Validation.Integer n /\ o = Validation.Integer m /\
       1 <= n <= 100 /\ 0 <= m /\
       (Validation.limit params = None -> n = 20) /\
       (Validation.offset params = None -> m = 0) /\
       (forall x, Validation.limit params = Some x -> l = x) /\
       (forall x, Validation.offset params = Some x -> o = x)) /\
  (forall n m,
     1 <= n <= 100 -> 0 <= m ->
     Validation.limit params = Some (Validation.Integer n) ->
     Validation.offset params = Some (Validation.Integer m) ->
     Validation.validatePaginationParams params =
       Normal (Validation.Integer n, Validation.Integer m)) /\
  (Validation.limit params = Some (Validation.Integer 0) ->
   Validation.validatePaginationParams params =
     Validation.invalid (lit "Limit must be an integer between 1 and 100")
       (VStr (lit "limit"))).
Proof.
  unfold Validation.validatePaginationParams, Validation.nullish_or.
  destruct params as [[[n|]|] [[m|]|]]; cbn [Validation.limit Validation.offset];
    (split; [|split]); try discriminate;
    try (intros l o;
         repeat match goal with
                | |- context [if ?c then _ else _] => destruct c eqn:?
                end; try discriminate;
         intros H; injection H as <- <-;
         repeat match goal with
                | H : (_ || _) = false |- _ => apply orb_false_iff in H; destruct H
                | H : (_ <? _) = false |- _ => apply Z.ltb_ge in H
                end;
         eexists _, _; repeat split; try reflexivity; try lia; try discriminate;
         intros x Hx; now injection Hx as <-);
    try (intros n' m' Hn Hm H1 H2; injection H1 as ->; injection H2 as ->;
         replace ((n' <? 1) || (100 <? n')) with false
           by (symmetry; apply orb_false_iff; split; apply Z.ltb_ge; lia);
         replace (m' <? 0) with false by (symmetry; apply Z.ltb_ge; lia);
         reflexivity);
    try (intros H; injection H as ->; reflexivity).
Qed.

End QueryProperties.

(** A query with a tab and spaces in it. *)
Lemma validateSearchQuery_result_witness :
  Validation.validateSearchQuery plain_host (VStr [32; 113; 114; 9; 32; 32; 99; 32]%N)
    = Normal [113; 114; 32; 99]%N /\
  Validation.sanitizeString (VStr [32; 113; 114; 9; 32; 32; 99; 32]%N)
    = [113; 114; 32; 99]%N /\
  Validation.validateSearchQuery plain_host (VStr [113; 114; 32; 99]%N)
    = Normal [113; 114; 32; 99]%N.
Proof.
  split; [reflexivity|].
  destruct (validateSearchQuery_result plain_host (VStr [32; 113; 114; 9; 32; 32; 99; 32]%N)
              [113; 114; 32; 99]%N eq_refl) as (Hsanitized & _ & Hagain & _).
  split; [now rewrite <- Hsanitized|].
  exact (Hagain ltac:(discriminate)).
Defined.


(** * Errors and retries *)




Section RetryProperties.
Context (host : Host) (now : Z) (native_message : exn -> jstr) (development : bool).
Context {A : Type} (fn : nat -> completion A) (maxAttempts baseDelay : Z).
Context (context : option (list (jstr * value))) (isDev : option bool).

Local Abbreviation createErrorInfo := (Errors.createErrorInfo host now native_message).
Local Abbreviation logError := (Errors.logError host now native_message development).
Local Abbreviation retry_from :=
  (Errors.retry_from host now native_message development fn maxAttempts baseDelay
     context isDev).
Local Abbreviation retryWithBackoff :=
  (Errors.retryWithBackoff host now native_message development fn maxAttempts baseDelay
     context isDev).

(** [logError] leaves the calls and the delays alone, and fails exactly
    when the error cannot be described. *)
Lemma logError_inv error ctx w r w' :
  logError error ctx isDev w = (r, w') ->
  Errors.calls w' = Errors.calls w /\ Errors.slept w' = Errors.slept w /\
  (length (Errors.printed w) <= length (Errors.printed w') <= S (length (Errors.printed w)))%nat /\
  (isDev = Some false -> Errors.printed w' = Errors.printed w) /\
  match r with
  | Normal _ => exists info, createErrorInfo error = Normal info
  | Abrupt t => createErrorInfo error = Abrupt t
  end.
Proof.
  unfold Errors.logError.
  destruct (createErrorInfo error) as [info|t].
  - intros H. injection H as <- <-.
    destruct (match isDev with Some b => b | None => development end) eqn:E;
      cbn [Errors.calls Errors.slept Errors.printed]; rewrite ?length_app;
      cbn [length]; repeat split; eauto; try lia.
    intros ->. discriminate E.
  - intros H. injection H as <- <-. repeat split; auto.
Qed.

Lemma logError_ok error ctx w info :
  createErrorInfo error = Normal info ->
  exists w', logError error ctx isDev w = (Normal tt, w') /\
    Errors.calls w' = Errors.calls w /\ Errors.slept w' = Errors.slept w.
Proof.
  intros H. unfold Errors.logError. rewrite H.
  eexists. split; [reflexivity|].
  destruct (match isDev with Some b => b | None => development end); auto.
Qed.

(** The delays before the attempts after [attempt], [n] of them. *)
Local Abbreviation delays_from attempt n :=
  (map (fun i => Errors.getRetryDelay (attempt + Z.of_nat i) baseDelay) (seq 0 n)).

Lemma delays_from_S attempt n :
  delays_from attempt (S n) =
  Errors.getRetryDelay attempt baseDelay :: delays_from (attempt + 1) n.
Proof.
  cbn [seq map]. rewrite Z.add_0_r. f_equal.
  rewrite <- seq_shift, map_map. apply map_ext. intros i. f_equal. lia.
Qed.

Lemma retry_from_trace remaining :
  forall attempt lastError w r w',
    Z.of_nat remaining = Z.max 0 (maxAttempts - attempt + 1) ->
    retry_from remaining attempt lastError w = (r, w') ->
    exists n,
      (n <= remaining)%nat /\ (1 <= remaining -> 1 <= n)%nat /\
      Errors.calls w' = (Errors.calls w + n)%nat /\
      Errors.slept w' = Errors.slept w ++ delays_from attempt (n - 1) /\
      (length (Errors.printed w) <= length (Errors.printed w')
       <= length (Errors.printed w) + n)%nat /\
      (isDev = Some false -> Errors.printed w' = Errors.printed w).
Proof.
  induction remaining as [|k IH]; intros attempt lastError w r w' Hrem.
  - cbn [Errors.retry_from]. intros H. injection H as <- <-. exists 0%nat.
    cbn. rewrite app_nil_r. repeat split; auto; lia.
  - cbn [Errors.retry_from]. unfold Errors.call.
    destruct (fn (Errors.calls w)) as [a|error].
    + intros H. injection H as <- <-. exists 1%nat.
      cbn [Errors.calls Errors.slept Errors.printed Nat.sub seq map].
      rewrite app_nil_r. repeat split; auto; lia.
    + destruct ((attempt =? maxAttempts) || negb (Errors.isRetryableError error)) eqn:Hstop.
      * match goal with
        | |- context [logError ?e ?c isDev ?w0] =>
            destruct (logError e c isDev w0) as [r0 w2] eqn:Hlog
        end.
        apply logError_inv in Hlog.
        cbn [Errors.calls Errors.slept Errors.printed] in Hlog.
        destruct Hlog as (Hc & Hs & Hp & Hq & _).
        intros H. exists 1%nat.
        cbn [Nat.sub seq map]. rewrite app_nil_r.
        destruct r0; injection H as <- <-; repeat split; auto; lia.
      * apply orb_false_iff in Hstop. destruct Hstop as [Hne _].
        apply Z.eqb_neq in Hne.
        match goal with
        | |- context [logError ?e ?c isDev ?w0] =>
            destruct (logError e c isDev w0) as [r0 w2] eqn:Hlog
        end.
        apply logError_inv in Hlog.
        cbn [Errors.calls Errors.slept Errors.printed] in Hlog.
        destruct Hlog as (Hc & Hs & Hp & Hq & _).
        destruct r0 as [[]|t].
        -- intros H. apply IH in H; [|lia].
           destruct H as (n & Hn & Hn1 & Hcalls & Hslept & Hprinted & Hquiet).
           unfold Errors.sleep in *.
           cbn [Errors.calls Errors.slept Errors.printed] in *.
           exists (S n). split; [lia|]. split; [lia|]. split; [lia|].
           assert (Hk : (1 <= k)%nat) by lia. specialize (Hn1 Hk).
           split.
           { rewrite Hslept, Hs, <- app_assoc. f_equal.
             replace (S n - 1)%nat with (S (n - 1)) by lia.
             now rewrite delays_from_S. }
           split; [lia|]. intros Hd. rewrite (Hquiet Hd). auto.
        -- intros H. injection H as <- <-. exists 1%nat.
           cbn [Nat.sub seq map]. rewrite app_nil_r.
           repeat split; auto; lia.
Qed.

(** X24. Whatever the function under retry does, [retryWithBackoff] calls
    it at most [maxAttempts] times, and at least once when [maxAttempts] is
    1 or more; between the calls it waits [getRetryDelay] of the attempts
    1, 2, ... in turn, never after the last call; it prints at most one
    line for each call, and none when [isDev] is false. *)
Theorem retryWithBackoff_trace (w w' : Errors.Trace) (r : completion A) :
  retryWithBackoff w = (r, w') ->
  exists n,
    Z.of_nat n <= Z.max 0 maxAttempts /\
    (1 <= maxAttempts -> (1 <= n)%nat) /\
    Errors.calls w' = (Errors.calls w + n)%nat /\
    Errors.slept w' =
      Errors.slept w ++
      map (fun i => Errors.getRetryDelay (Z.of_nat i) baseDelay) (seq 1 (n - 1)) /\
    (length (Errors.printed w) <= length (Errors.printed w')
     <= length (Errors.printed w) + n)%nat /\
    (isDev = Some false -> Errors.printed w' = Errors.printed w).
Proof.
  unfold Errors.retryWithBackoff. intros H.
  apply retry_from_trace in H; [|lia].
  destruct H as (n & Hn & Hn1 & Hcalls & Hslept & Hprinted & Hquiet).
  exists n. split; [lia|]. split; [intros Hm; apply Hn1; lia|]. split; [exact Hcalls|].
  split; [|auto].
  rewrite Hslept. f_equal.
  rewrite <- seq_shift, map_map. apply map_ext. intros i. f_equal. lia.
Qed.

(** The first [k] calls fail with errors that are retried and can be
    logged. *)
Local Abbreviation retried w k :=
  (forall i, (i < k)%nat ->
     exists error info,
       fn (Errors.calls w + i) = Abrupt error /\
       Errors.isRetryableError error = true /\
       createErrorInfo error = Normal info).

Lemma retry_from_success remaining :
  forall attempt lastError w a,
    Z.of_nat remaining = Z.max 0 (maxAttempts - attempt + 1) ->
    ((exists w', retry_from remaining attempt lastError w = (Normal a, w')) <->
     exists k, (k < remaining)%nat /\ fn (Errors.calls w + k) = Normal a /\ retried w k).
Proof.
  induction remaining as [|n IH]; intros attempt lastError w a Hrem.
  - cbn [Errors.retry_from]. split; [intros (w' & H); discriminate H|].
    intros (k & Hk & _). lia.
  - cbn [Errors.retry_from]. unfold Errors.call.
    destruct (fn (Errors.calls w)) as [a0|error] eqn:Hcall.
    + split.
      * intros (w' & H). injection H as <- _. exists 0%nat.
        rewrite Nat.add_0_r. split; [lia|]. split; [exact Hcall|]. intros i Hi. lia.
      * intros (k & Hk & Hfn & Hretried). destruct k as [|k].
        -- rewrite Nat.add_0_r, Hcall in Hfn. injection Hfn as ->. eauto.
        -- destruct (Hretried 0%nat ltac:(lia)) as (e & info & He & _).
           rewrite Nat.add_0_r, Hcall in He. discriminate He.
    + destruct ((attempt =? maxAttempts) || negb (Errors.isRetryableError error)) eqn:Hstop.
      * split.
        -- intros (w' & H).
           match type of H with
           | context [logError ?e ?c isDev ?w0] => destruct (logError e c isDev w0) as [[[]|t] w2]
           end; discriminate H.
        -- intros (k & Hk & Hfn & Hretried). destruct k as [|k].
           ++ rewrite Nat.add_0_r, Hcall in Hfn. discriminate Hfn.
           ++ destruct (Hretried 0%nat ltac:(lia)) as (e & info & He & Hr & _).
              rewrite Nat.add_0_r, Hcall in He. injection He as <-.
              rewrite Hr in Hstop. cbn [negb] in Hstop. rewrite orb_false_r in Hstop.
              apply Z.eqb_eq in Hstop. lia.
      * apply orb_false_iff in Hstop. destruct Hstop as [Hne Hretry].
        apply Z.eqb_neq in Hne. apply negb_false_iff in Hretry.
        match goal with
        | |- context [logError ?e ?c isDev ?w0] =>
            destruct (logError e c isDev w0) as [r0 w2] eqn:Hlog
        end.
        pose proof (logError_inv _ _ _ _ _ Hlog) as (Hc & Hs & _ & _ & Hinfo).
        cbn [Errors.calls] in Hc.
        destruct r0 as [[]|t].
        -- destruct Hinfo as (info & Hinfo).
           rewrite (IH (attempt + 1) error (Errors.sleep
                      (Errors.getRetryDelay attempt baseDelay) w2) a) by lia.
           unfold Errors.sleep. cbn [Errors.calls]. rewrite Hc. split.
           ++ intros (k & Hk & Hfn & Hretried). exists (S k).
              split; [lia|]. split; [now rewrite Nat.add_succ_r|].
              intros i Hi. destruct i as [|i].
              ** rewrite Nat.add_0_r. eauto.
              ** rewrite Nat.add_succ_r. apply Hretried. lia.
           ++ intros (k & Hk & Hfn & Hretried). destruct k as [|k].
              ** rewrite Nat.add_0_r, Hcall in Hfn. discriminate Hfn.
              ** exists k. split; [lia|]. split; [now rewrite Nat.add_succ_r in Hfn|].
                 intros i Hi. specialize (Hretried (S i) ltac:(lia)).
                 now rewrite Nat.add_succ_r in Hretried.
        -- split; [intros (w' & H); discriminate H|].
           intros (k & Hk & Hfn & Hretried). destruct k as [|k].
           ++ rewrite Nat.add_0_r, Hcall in Hfn. discriminate Hfn.
           ++ destruct (Hretried 0%nat ltac:(lia)) as (e & info & He & _ & Hi).
              rewrite Nat.add_0_r, Hcall in He. injection He as <-. congruence.
Qed.

(** X25. [retryWithBackoff] returns a value exactly when one of the first
    [maxAttempts] calls returns it and every call before that failed with
    an error that is retryable and could be logged. *)
Theorem retryWithBackoff_succeeds (w : Errors.Trace) (a : A) :
  (exists w', retryWithBackoff w = (Normal a, w')) <->
  exists k,
    Z.of_nat k < maxAttempts /\
    fn (Errors.calls w + k) = Normal a /\
    forall i, (i < k)%nat ->
      exists error info,
        fn (Errors.calls w + i) = Abrupt error /\
        Errors.isRetryableError error = true /\
        createErrorInfo error = Normal info.
Proof.
  unfold Errors.retryWithBackoff.
  rewrite (retry_from_success (Z.to_nat maxAttempts) 1 (Err.Other VUndefined) w a) by lia.
  split; intros (k & Hk & H); exists k; (split; [lia | exact H]).
Qed.

Lemma retry_from_failure remaining :
  forall attempt lastError w k error info,
    Z.of_nat remaining = Z.max 0 (maxAttempts - attempt + 1) ->
    (k < remaining)%nat ->
    retried w k ->
    fn (Errors.calls w + k) = Abrupt error ->
    createErrorInfo error = Normal info ->
    S k = remaining \/ Errors.isRetryableError error = false ->
    exists w',
      retry_from remaining attempt lastError w = (Abrupt error, w') /\
      Errors.calls w' = (Errors.calls w + S k)%nat.
Proof.
  induction remaining as [|n IH];
    intros attempt lastError w k error info Hrem Hk Hretried Hfn Hinfo Hstop; [lia|].
  cbn [Errors.retry_from]. unfold Errors.call.
  destruct k as [|k].
  - rewrite Nat.add_0_r in Hfn. rewrite Hfn.
    assert (E : (attempt =? maxAttempts) || negb (Errors.isRetryableError error) = true).
    { destruct Hstop as [H| ->]; [|apply orb_true_r].
      replace (attempt =? maxAttempts) with true; [reflexivity|].
      symmetry. apply Z.eqb_eq. lia. }
    rewrite E.
    match goal with
    | |- context [logError ?e ?c isDev ?w0] =>
        destruct (logError_ok e c w0 info Hinfo) as (w2 & -> & Hc & _)
    end.
    cbn [Errors.calls] in Hc. exists w2. split; [reflexivity | lia].
  - destruct (Hretried 0%nat ltac:(lia)) as (e0 & info0 & He0 & Hr0 & Hi0).
    rewrite Nat.add_0_r in He0. rewrite He0, Hr0.
    assert (E : (attempt =? maxAttempts) = false) by (apply Z.eqb_neq; lia).
    rewrite E. cbn [negb orb].
    match goal with
    | |- context [logError ?e ?c isDev ?w0] =>
        destruct (logError_ok e c w0 info0 Hi0) as (w2 & -> & Hc & _)
    end.
    cbn [Errors.calls] in Hc.
    destruct (IH (attempt + 1) e0
                (Errors.sleep (Errors.getRetryDelay attempt baseDelay) w2)
                k error info) as (w' & Hrun & Hcalls).
    + lia.
    + lia.
    + intros i Hi. unfold Errors.sleep. cbn [Errors.calls]. rewrite Hc.
      specialize (Hretried (S i) ltac:(lia)). now rewrite Nat.add_succ_r in Hretried.
    + unfold Errors.sleep. cbn [Errors.calls]. rewrite Hc.
      now rewrite Nat.add_succ_r in Hfn.
    + exact Hinfo.
    + destruct Hstop as [H|H]; [left; lia | now right].
    + exists w'. split; [exact Hrun|].
      rewrite Hcalls. unfold Errors.sleep. cbn [Errors.calls]. lia.
Qed.

(** X26. [retryWithBackoff] gives up as follows. With [maxAttempts] of 0
    or less it calls nothing and throws [undefined]. Otherwise, after
    failures that were retried, it throws the error of the call that is
    the last allowed or whose error is not retryable, and calls no more.
    No exception of the session model is retryable. *)
Theorem retryWithBackoff_gives_up (w : Errors.Trace) :
  (maxAttempts <= 0 -> retryWithBackoff w = (Abrupt (Err.Other VUndefined), w)) /\
  (forall k error info,
     Z.of_nat k < maxAttempts ->
     (forall i, (i < k)%nat ->
        exists error' info',
          fn (Errors.calls w + i) = Abrupt error' /\
          Errors.isRetryableError error' = true /\
          createErrorInfo error' = Normal info') ->
     fn (Errors.calls w + k) = Abrupt error ->
     createErrorInfo error = Normal info ->
     Z.of_nat k + 1 = maxAttempts \/ Errors.isRetryableError error = false ->
     exists w',
       retryWithBackoff w = (Abrupt error, w') /\
       Errors.calls w' = (Errors.calls w + S k)%nat) /\
  (forall e, Errors.isRetryableError (thrown_of_exn native_message e) = false).
Proof.
  split; [|split].
  - intros H. unfold Errors.retryWithBackoff.
    replace (Z.to_nat maxAttempts) with 0%nat by lia. reflexivity.
  - intros k error info Hk Hretried Hfn Hinfo Hstop.
    unfold Errors.retryWithBackoff.
    apply (retry_from_failure (Z.to_nat maxAttempts) 1 (Err.Other VUndefined) w k error info);
      auto; try lia.
    destruct Hstop as [H|H]; [left; lia | now right].
  - intros []; reflexivity.
Qed.

End RetryProperties.

(** Two failures on the network, then an answer: three calls, and waits
    of one and of two seconds. *)
Lemma retryWithBackoff_trace_witness :
  exists r w',
    Errors.retryWithBackoff plain_host Fixture.now Sample.native_message false
      Sample.flaky 3 1000 None (Some false) Sample.emptyTrace = (r, w') /\
    r = Normal 7 /\
    Errors.calls w' = 3%nat /\
    Errors.slept w' = [1000; 2000] /\
    Errors.printed w' = [].
Proof.
  eexists _, _. split; [reflexivity|].
  destruct (retryWithBackoff_trace plain_host Fixture.now Sample.native_message false
              Sample.flaky 3 1000 None (Some false) Sample.emptyTrace _ _ eq_refl)
    as (n & _ & _ & _ & _ & _ & Hquiet).
  split; [reflexivity|]. split; [reflexivity|]. split; [reflexivity|].
  exact (Hquiet eq_refl).
Defined.


Section ErrorInfoProperties.
Context (host : Host) (now : Z) (native_message : exn -> jstr).

Local Abbreviation createErrorInfo := (Errors.createErrorInfo host now native_message).

Lemma timestamp_now :
  Z.abs now <= maxTime -> Date_toISOString now = Return (iso_string now).
Proof.
  intros H. unfold Date_toISOString, TimeClip. apply Z.leb_le in H. now rewrite H.
Qed.

(** The status an error carries into its description. *)
Lemma createErrorInfo_instance (e : Err.object) :
  Z.abs now <= maxTime ->
  exists info,
    createErrorInfo (Err.Instance e) = Normal info /\
    Errors.name info = Err.name e /\
    Errors.message info = Err.message e /\
    Errors.timestamp info = iso_string now /\
    Errors.userMessage info =
      match Errors.table_get (Err.name e) Errors.ERROR_USER_MESSAGES with
      | Some m => m
      | None => lit "An unexpected error occurred. Please try again."
      end /\
    Errors.statusCode info =
      (if truthy host (Err.detail e) && Err.class_eqb (Err.class_of e) Err.NetworkError
       then Err.detail e
       else if truthy host (Err.detail e) && Err.class_eqb (Err.class_of e) Err.RateLimitError
       then number 429
       else VUndefined).
Proof.
  intros Hclock. unfold Errors.createErrorInfo, Errors.native.
  rewrite (timestamp_now Hclock). cbn [and_then]. eexists. split; [reflexivity|].
  destruct e as [c n m d]. cbn [Err.class_of Err.name Err.message Err.detail Err.instanceof].
  destruct (truthy host d); destruct c; cbn; auto.
Qed.

(** X27. The status of [createApiErrorResponse] for an error object: the
    status passed, when it is truthy; else the [statusCode] of a
    [NetworkError] that has one; else 429 for a [RateLimitError] with a
    [retryAfter]; else 500. The message and the time stamp are those of
    the error and of the clock. *)
Theorem createApiErrorResponse_status (e : Err.object) (statusCode : value) :
  Z.abs now <= maxTime ->
  truthy host (number 429) = true ->
  exists r,
    Errors.createApiErrorResponse host now native_message (Err.Instance e) statusCode
      = Normal r /\
    prop r (lit "statusCode") =
      (if truthy host statusCode then statusCode
       else if truthy host (Err.detail e) && Err.class_eqb (Err.class_of e) Err.NetworkError
       then Err.detail e
       else if truthy host (Err.detail e) && Err.class_eqb (Err.class_of e) Err.RateLimitError
       then number 429
       else number 500) /\
    prop r (lit "message") = VStr (Err.message e) /\
    prop r (lit "timestamp") = VStr (iso_string now).
Proof.
  intros Hclock H429. unfold Errors.createApiErrorResponse.
  destruct (createErrorInfo_instance e Hclock) as (info & -> & _ & Hm & Ht & _ & Hs).
  cbn [and_then]. eexists. split; [reflexivity|].
  change (prop _ (lit "message")) with (VStr (Errors.message info)).
  change (prop _ (lit "timestamp")) with (VStr (Errors.timestamp info)).
  rewrite Hm, Ht. split; [|auto].
  change (prop _ (lit "statusCode"))
    with (Google.or_else host statusCode
            (Google.or_else host (Errors.statusCode info) (number 500))).
  unfold Google.or_else. rewrite Hs.
  destruct (truthy host statusCode); [reflexivity|].
  destruct (truthy host (Err.detail e)) eqn:Hd; cbn [andb]; [|reflexivity].
  destruct (Err.class_eqb (Err.class_of e) Err.NetworkError); [now rewrite Hd|].
  destruct (Err.class_eqb (Err.class_of e) Err.RateLimitError); [now rewrite H429|].
  reflexivity.
Qed.

(** X28. Without a status passed, [createApiErrorResponse] gives every
    exception of the session model the status 500: an
    [AuthenticationError] with the text 'Please log in to continue.', a
    [ValidationError] with 'Please check your input and try again.' and no
    field, an error of the engine with the text for unexpected errors. *)
Theorem session_errors_answer_500 (x : exn) :
  Z.abs now <= maxTime ->
  exists r,
    Errors.createApiErrorResponse host now native_message
      (thrown_of_exn native_message x) VUndefined = Normal r /\
    prop r (lit "statusCode") = number 500 /\
    (forall m, x = AuthenticationError m ->
       prop r (lit "error") = VStr (lit "Please log in to continue.") /\
       prop r (lit "message") = VStr m) /\
    (forall m, x = ValidationError m ->
       prop r (lit "error") = VStr (lit "Please check your input and try again.") /\
       prop r (lit "message") = VStr m /\ prop r (lit "field") = VUndefined) /\
    (x = SyntaxError \/ x = TypeError \/ x = RangeError \/ (exists m, x = HostError m) ->
     prop r (lit "error") = VStr (lit "An unexpected error occurred. Please try again.")).
Proof.
  intros Hclock. unfold Errors.createApiErrorResponse, Errors.createErrorInfo, Errors.native.
  rewrite (timestamp_now Hclock). cbn [and_then].
  destruct x; (eexists; split; [reflexivity|]); (split; [reflexivity|]);
    (split; [intros m' H; first [discriminate H | injection H as <-; split; reflexivity]|]);
    (split; [intros m' H; first [discriminate H
                                | injection H as <-; repeat split; reflexivity]|]);
    try (intros _; reflexivity);
    intros [H|[H|[H|(m' & H)]]]; discriminate H.
Qed.

(** X29. [safeExecute] returns the result of a function that returns, and
    the description of what a function throws: of an error object with its
    name and message, of another value as [UnknownError] with the value as
    a string. It throws only when that value cannot be made a string. *)
Theorem safeExecute_cases {A : Type} (fn : completion A) :
  Z.abs now <= maxTime ->
  (forall a, fn = Normal a ->
     Errors.safeExecute host now native_message fn = Normal (Errors.Result a)) /\
  (forall e, fn = Abrupt (Err.Instance e) ->
     exists info,
       Errors.safeExecute host now native_message fn = Normal (Errors.Failure info) /\
       Errors.name info = Err.name e /\ Errors.message info = Err.message e) /\
  (forall v s, fn = Abrupt (Err.Other v) -> ToString host v = Return s ->
     exists info,
       Errors.safeExecute host now native_message fn = Normal (Errors.Failure info) /\
       Errors.name info = lit "UnknownError" /\ Errors.message info = s /\
       Errors.severity info = Errors.MEDIUM) /\
  (forall t, Errors.safeExecute host now native_message fn = Abrupt t ->
     exists v x, fn = Abrupt (Err.Other v) /\ ToString host v = Throw x /\
                 t = thrown_of_exn native_message x).
Proof.
  intros Hclock. split; [intros a ->; reflexivity|]. split; [|split].
  - intros e ->. cbn [Errors.safeExecute].
    destruct (createErrorInfo_instance e Hclock) as (info & -> & Hn & Hm & _).
    cbn [and_then]. eauto.
  - intros v s -> Hs. cbn [Errors.safeExecute].
    unfold Errors.createErrorInfo, Errors.native.
    rewrite (timestamp_now Hclock), Hs. cbn [and_then]. eexists. split; [reflexivity|].
    auto.
  - intros t. destruct fn as [a|[e|v]]; cbn [Errors.safeExecute]; [discriminate| |].
    + destruct (createErrorInfo_instance e Hclock) as (info & -> & _). discriminate.
    + unfold Errors.createErrorInfo, Errors.native.
      rewrite (timestamp_now Hclock). cbn [and_then].
      destruct (ToString host v) as [s|x] eqn:Es; cbn [and_then]; [discriminate|].
      intros H. injection H as <-. exists v, x. auto.
Qed.

End ErrorInfoProperties.

(** A rate limit with a time to retry after. *)
Lemma createApiErrorResponse_status_witness :
  Z.abs Fixture.now <= maxTime /\
  truthy plain_host (number 429) = true /\
  exists r,
    Errors.createApiErrorResponse plain_host Fixture.now Sample.native_message
      (Err.Instance (Err.new_RateLimitError None (number 60))) VUndefined = Normal r /\
    prop r (lit "statusCode") = number 429 /\
    prop r (lit "message") = VStr (lit "Rate limit exceeded").
Proof.
  split; [discriminate|]. split; [reflexivity|].
  destruct (createApiErrorResponse_status plain_host Fixture.now Sample.native_message
              (Err.new_RateLimitError None (number 60)) VUndefined
              ltac:(discriminate) eq_refl) as (r & Hr & Hs & Hm & _).
  exists r. split; [exact Hr|]. split; [exact Hs | exact Hm].
Defined.

(** The error of an expired session. *)
Lemma session_errors_answer_500_witness :
  Z.abs Fixture.now <= maxTime /\
  exists r,
    Errors.createApiErrorResponse plain_host Fixture.now Sample.native_message
      (thrown_of_exn Sample.native_message (AuthenticationError (lit "Session has expired")))
      VUndefined = Normal r /\
    prop r (lit "statusCode") = number 500 /\
    prop r (lit "error") = VStr (lit "Please log in to continue.").
Proof.
  split; [discriminate|].
  destruct (session_errors_answer_500 plain_host Fixture.now Sample.native_message
              (AuthenticationError (lit "Session has expired")) ltac:(discriminate))
    as (r & Hr & Hs & Hauth & _).
  exists r. split; [exact Hr|]. split; [exact Hs|].
  exact (proj1 (Hauth (lit "Session has expired") eq_refl)).
Defined.

(** A function that throws a string. *)
Lemma safeExecute_cases_witness :
  Z.abs Fixture.now <= maxTime /\
  exists info,
    Errors.safeExecute (A := Z) plain_host Fixture.now Sample.native_message
      (Abrupt (Err.Other (VStr (lit "boom")))) = Normal (Errors.Failure info) /\
    Errors.name info = lit "UnknownError" /\
    Errors.message info = lit "boom".
Proof.
  split; [discriminate|].
  destruct (safeExecute_cases plain_host Fixture.now Sample.native_message
              (Abrupt (A := Z) (Err.Other (VStr (lit "boom")))) ltac:(discriminate))
    as (_ & _ & Hother & _).
  destruct (Hother (VStr (lit "boom")) (lit "boom") eq_refl eq_refl)
    as (info & Hrun & Hname & Hmessage & _).
  exists info. auto.
Defined.

